(** * goweight: size attribution for Go binaries

    A shallow embedding of the size-attribution engine of goweight
    (pkg/symbol_analyzer.go, pkg/binary_analyzer.go, pkg/analyzer.go and
    main.go) together with the properties its specification states.

    Conventions.
    - Go strings are byte strings: [string] (a list of [ascii]).
    - [uint64] values are [Z] with the wrap-around modulo [2^64] written
      out ([u64add], [u64mul]).
    - Go maps are [gmap string _]; a nil map reads like the empty map.
    - The operating system (files, environment, embedded build info) is a
      read-only [World]; every system call and log line is recorded in an
      event trace. *)

From Stdlib Require Import ZArith Lia List Ascii String Sorted Permutation.
From Stdlib Require Import Floats.SpecFloat.
From stdpp Require Import base option list sorting gmap strings fin_maps.

Local Open Scope string_scope.
Local Open Scope Z_scope.

(** ** The [strings] package of the Go standard library *)

Module strings.

(** [strings.Index(s, substr)]: byte offset of the first occurrence of
    [substr] in [s], or [-1]. *)
Definition Index (s substr : string) : Z :=
  match String.index 0 substr s with
  | Some n => Z.of_nat n
  | None => -1
  end.

(** [strings.Contains(s, substr)] is [Index(s, substr) >= 0]. *)
Definition Contains (s substr : string) : bool := 0 <=? Index s substr.

(** [strings.HasPrefix(s, prefix)]. *)
Definition HasPrefix (s pre : string) : bool := String.prefix pre s.

(** [strings.Join(elems, sep)]. *)
Definition Join (elems : list string) (sep : string) : string :=
  String.concat sep elems.

(** Worker of [Split] for a non-empty separator: [cur] is the piece being
    read, [skip] counts the bytes of a separator still to be dropped. *)
Fixpoint genSplit (sep : string) (skip : nat) (cur : string) (s : string)
  : list string :=
  match s with
  | EmptyString => [cur]
  | String c s' =>
      match skip with
      | S k => genSplit sep k cur s'
      | O =>
          if String.prefix sep s
          then cur :: genSplit sep (String.length sep - 1) EmptyString s'
          else genSplit sep 0 (cur +:+ String c EmptyString) s'
      end
  end.

(** [strings.Split(s, sep)]: all pieces of [s] between occurrences of
    [sep]; with an empty separator Go explodes the string (into UTF-8
    sequences; bytes here, the source never calls it that way). *)
Definition Split (s sep : string) : list string :=
  match sep with
  | EmptyString =>
      List.map (fun c => String c EmptyString) (list_ascii_of_string s)
  | _ => genSplit sep 0 EmptyString s
  end.

End strings.

(** [s[:n]] on a string. *)
Definition str_take (n : Z) (s : string) : string :=
  String.substring 0 (Z.to_nat n) s.

(** ** pkg/symbol_analyzer.go: the package name resolver *)

(** The [for i := len(parts) - 1; i >= 0; i--] loop of
    [extractPackageFromSymbol]; [k] is [i + 1]. *)
Fixpoint findPackagePath (parts : list string) (k : nat) : string :=
  match k with
  | O => ""
  | S i =>
      let packageName := strings.Join (take i parts) "." in
      if strings.Contains packageName "/"
         || String.eqb packageName "main"
         || String.eqb packageName "runtime"
      then packageName
      else findPackagePath parts i
  end.

Definition extractPackageFromSymbol (symbolName : string) : string :=
  let idx := strings.Index symbolName "." in
  if 0 <? idx then
    let prefix := str_take idx symbolName in
    if String.eqb prefix "runtime" || String.eqb prefix "main"
       || String.eqb prefix "go"
    then prefix
    else if strings.Contains prefix "/" || strings.Contains prefix "."
    then
      let parts := strings.Split symbolName "." in
      if (1 <? Z.of_nat (List.length parts))
      then findPackagePath parts (List.length parts)
      else ""
    else ""
  else "".

(** ** Machine numbers *)

(** [uint64] arithmetic wraps around. *)
Definition u64 (z : Z) : Z := z mod 2 ^ 64.
Definition u64add (a b : Z) : Z := (a + b) mod 2 ^ 64.
Definition u64mul (a b : Z) : Z := (a * b) mod 2 ^ 64.

(** [float64] is IEEE 754 binary64, computed with the reference
    operations of [SpecFloat] (round to nearest, ties to even). *)
Module float64.

Definition prec : Z := 53.
Definition emax : Z := 1024.

(** [float64(n)] for an integer [n]. *)
Definition of_Z (n : Z) : spec_float := binary_normalize prec emax n 0 false.

Definition mul : spec_float -> spec_float -> spec_float := SFmul prec emax.
Definition div : spec_float -> spec_float -> spec_float := SFdiv prec emax.

(** [uint64(x)]: truncation towards zero.  Go leaves the result open
    when [x] is negative, infinite, not a number or not below [2^64];
    the source never converts such a value, the model answers with the
    wrapped magnitude or [0]. *)
Definition to_uint64 (x : spec_float) : Z :=
  match x with
  | S754_finite false m e => u64 (Z.shiftl (Z.pos m) e)
  | _ => 0
  end.

End float64.

(** The literal [0.7] as a [float64]: [0x3FE6666666666666]. *)
Definition codeRatio : spec_float := S754_finite false 6305039478318694 (-53).

(** ** Results and errors *)

(** A Go [(value, error)] pair; an error is carried by its message. *)
Inductive result (A : Type) : Type :=
| Ok (a : A)
| Err (msg : string).
Arguments Ok {A} a.
Arguments Err {A} msg.

(** ** Data model *)

(** [pkg.ModuleEntry]. *)
Record ModuleEntry : Type := {
  Path : string;
  Name : string;
  Version : string;
  Size : Z;
  SizeHuman : string
}.

(** [pkg.Section] ([Section] is a keyword here). *)
Record BinSection : Type := {
  sec_Name : string;
  sec_Size : Z;
  sec_Type : string
}.

(** [pkg.Symbol]. *)
Record Symbol : Type := {
  sym_Name : string;
  sym_Size : Z;
  sym_Address : Z;
  sym_Package : string;
  sym_Section : string
}.

(** [humanize.Bytes] of github.com/dustin/go-humanize renders a byte
    count for people; the engine only stores its result. *)
Class Humanize : Type := humanize_Bytes : Z -> string.

(** *** What the [debug/elf], [debug/macho] and [debug/pe] readers return *)

Record ElfSection : Type := {
  esec_Name : string;
  esec_Size : Z;
  esec_Type : string          (* [sec.Type.String()] *)
}.

Record ElfSymbol : Type := {
  esym_Name : string;
  esym_Size : Z;
  esym_Value : Z;
  esym_Section : Z            (* [elf.SectionIndex], an unsigned 16-bit index *)
}.

Record ElfFile : Type := {
  elf_Sections : list ElfSection;
  elf_Symbols : result (list ElfSymbol);          (* [Symbols()] *)
  elf_DynamicSymbols : result (list ElfSymbol)    (* [DynamicSymbols()] *)
}.

Record MachoSection : Type := {
  msec_Name : string;
  msec_Size : Z
}.

Record MachoSymbol : Type := {
  msym_Name : string;
  msym_Type : Z;
  msym_Sect : Z;
  msym_Desc : Z;
  msym_Value : Z
}.

Record MachoFile : Type := {
  macho_Symtab : option (list MachoSymbol);       (* [Symtab], may be nil *)
  macho_Sections : list MachoSection
}.

Record PESection : Type := {
  psec_Name : string;
  psec_Size : Z
}.

Record PESymbol : Type := {
  psym_Name : string;
  psym_Value : Z
}.

Record PEFile : Type := {
  pe_Symbols : option (list PESymbol);            (* [Symbols], may be nil *)
  pe_Sections : list PESection
}.

(** An opened binary: what each of the three readers makes of it
    ([None]: [NewFile] returned an error). *)
Record BinaryFile : Type := {
  asELF : option ElfFile;
  asMachO : option MachoFile;
  asPE : option PEFile
}.

(** *** Build information ([debug/buildinfo]) *)

Record Module_ : Type := {
  mod_Path : string;
  mod_Version : string
}.

Record BuildInfo : Type := {
  bi_Main : Module_;
  bi_Deps : list (option Module_)      (* [[]*debug.Module], entries may be nil *)
}.

(** *** Files *)

(** What a name stands for when it is not a directory, and in general. *)
Inductive LeafKind : Type := Regular | Symlink | Special.
Inductive FileKind : Type := NotDir (k : LeafKind) | Directory.

(** [os.FileInfo], as far as the engine reads it. *)
Record FileInfo : Type := {
  fi_Kind : FileKind;
  fi_Size : Z                           (* [Size()], an [int64] *)
}.

Definition IsDir (info : FileInfo) : bool :=
  match fi_Kind info with Directory => true | _ => false end.

#[local] Set Warnings "-register-all".

(** A file tree as [os.Lstat] and the sorted directory listing show it:
    - [NoStat err]: [Lstat] of this name fails with [err];
    - [Leaf kind size]: anything that is not a directory;
    - [Dir size listing]: a directory; [listing] is [Err] when it cannot be
      read, else its entries in lexical order of their names. *)
Inductive Node : Type :=
| NoStat (err : string)
| Leaf (kind : LeafKind) (size : Z)
| Dir (size : Z) (listing : result (list (string * Node))).

(** The environment of one run: what [os.Open] and the three readers,
    [os.Stat], [os.Lstat] with the directory listings below a root,
    [os.Getenv] and [buildinfo.ReadFile] answer. *)
Record World : Type := {
  os_Open : string -> result BinaryFile;
  os_Stat : string -> result FileInfo;
  os_Lstat_tree : string -> Node;
  os_Getenv : string -> string;
  buildinfo_ReadFile : string -> result BuildInfo
}.

(** ** Effects *)

Inductive Event : Type :=
| EvOpen (path : string)
| EvStat (path : string)
| EvWalk (root : string)
| EvGetenv (key : string)
| EvReadBuildInfo (path : string)
| EvLog (msg : string)          (* [log.Printf] *)
| EvFatal (msg : string).       (* [log.Fatalf]: the process exits *)

(** A computation reads the world and yields a value, or [None] when
    [log.Fatalf] ended the process, together with the trace of what it
    did. *)
Definition IO (A : Type) : Type := World -> option A * list Event.

Definition ret {A} (a : A) : IO A := fun _ => (Some a, []).

Definition bind {A B} (m : IO A) (k : A -> IO B) : IO B :=
  fun w =>
    match m w with
    | (Some a, t) => let '(r, t') := k a w in (r, (t ++ t')%list)
    | (None, t) => (None, t)
    end.

Notation "x <- m ;; k" := (bind m (fun x => k))
  (at level 100, m at next level, right associativity).
Notation "m ;;; k" := (bind m (fun _ => k))
  (at level 100, right associativity).

Definition emit (e : Event) : IO unit := fun _ => (Some tt, [e]).
Definition ask {A} (e : Event) (f : World -> A) : IO A :=
  fun w => (Some (f w), [e]).

Definition log_Printf (msg : string) : IO unit := emit (EvLog msg).
Definition log_Fatalf {A} (msg : string) : IO A := fun _ => (None, [EvFatal msg]).

(** [os.Open], [os.Stat], [os.Getenv], [buildinfo.ReadFile]. *)
Definition Open (path : string) : IO (result BinaryFile) :=
  ask (EvOpen path) (fun w => os_Open w path).
Definition Stat (path : string) : IO (result FileInfo) :=
  ask (EvStat path) (fun w => os_Stat w path).
Definition Getenv (key : string) : IO string :=
  ask (EvGetenv key) (fun w => os_Getenv w key).
Definition ReadFile (path : string) : IO (result BuildInfo) :=
  ask (EvReadBuildInfo path) (fun w => buildinfo_ReadFile w path).

(** ** pkg/symbol_analyzer.go: the symbol reader *)

(** [estimateMachOSymbolSize]: a fixed default estimate. *)
Definition estimateMachOSymbolSize (file : MachoFile) (sym : MachoSymbol) : Z := 100.

(** One turn of the loop over the ELF symbols: a symbol is kept when its
    section index is inside the section list and its name resolves. *)
Definition elfSymbol (elfFile : ElfFile) (sym : ElfSymbol) : option Symbol :=
  if (0 <=? esym_Section sym)
     && (esym_Section sym <? Z.of_nat (List.length (elf_Sections elfFile)))
  then
    match elf_Sections elfFile !! Z.to_nat (esym_Section sym) with
    | Some section =>
        let name := esym_Name sym in
        let pkg := extractPackageFromSymbol name in
        if negb (String.eqb pkg "") then
          Some {| sym_Name := name; sym_Size := esym_Size sym;
                  sym_Address := esym_Value sym; sym_Package := pkg;
                  sym_Section := esec_Name section |}
        else None
    | None => None
    end
  else None.

(** One turn of the loop over the Mach-O symbol table. *)
Definition machoSymbol (machoFile : MachoFile) (sym : MachoSymbol) : option Symbol :=
  let name := msym_Name sym in
  let pkg := extractPackageFromSymbol name in
  if negb (String.eqb pkg "") then
    let estimatedSize := estimateMachOSymbolSize machoFile sym in
    Some {| sym_Name := name; sym_Size := estimatedSize; sym_Address := 0;
            sym_Package := pkg; sym_Section := "" |}
  else None.

(** The first part of [analyzeBinarySymbolTable]: try ELF, then Mach-O,
    then PE, and collect sections, symbols and the name of the format. *)
Definition readSymbols (f : BinaryFile) : list BinSection * list Symbol * string :=
  match asELF f with
  | Some elfFile =>
      let symbols :=
        match elf_Symbols elfFile with
        | Ok syms => omap (elfSymbol elfFile) syms
        | Err _ => []
        end in
      let sections :=
        List.map (fun sec => {| sec_Name := esec_Name sec; sec_Size := esec_Size sec;
                                sec_Type := esec_Type sec |}) (elf_Sections elfFile) in
      let symbols :=
        if (Z.of_nat (List.length symbols) =? 0) then
          match elf_DynamicSymbols elfFile with
          | Ok dynSyms => (symbols ++ omap (elfSymbol elfFile) dynSyms)%list
          | Err _ => symbols
          end
        else symbols in
      (sections, symbols, "ELF")
  | None =>
      match asMachO f with
      | Some machoFile =>
          let symbols :=
            match macho_Symtab machoFile with
            | Some syms => omap (machoSymbol machoFile) syms
            | None => []
            end in
          let sections :=
            List.map (fun seg => {| sec_Name := msec_Name seg; sec_Size := u64 (msec_Size seg);
                                    sec_Type := "section" |}) (macho_Sections machoFile) in
          (sections, symbols, "MachO")
      | None =>
          match asPE f with
          | Some peFile =>
              let sections :=
                match pe_Symbols peFile with
                | Some _ =>
                    List.map (fun sec => {| sec_Name := psec_Name sec;
                                            sec_Size := u64 (psec_Size sec);
                                            sec_Type := "section" |}) (pe_Sections peFile)
                | None => []
                end in
              (sections, [], "PE")
          | None => ([], [], "")
          end
      end
  end.

(** ** pkg/symbol_analyzer.go: the size reconciler *)

(** [sumMapValues]. *)
Definition sumMapValues (m : gmap string Z) : Z :=
  map_fold (fun _ v sum => u64add sum v) 0 m.

(** [for _, sym := range symbols { pkgSizes[sym.Package] += sym.Size }]. *)
Definition addSymbolSizes (symbols : list Symbol) : gmap string Z :=
  fold_left (fun pkgSizes sym =>
               <[sym_Package sym :=
                   u64add (default 0 (pkgSizes !! sym_Package sym)) (sym_Size sym)]> pkgSizes)
            symbols ∅.

(** [for _, sym := range symbols { pkgSymbolCounts[sym.Package]++ }]; the
    counts are [int]s and stay below the number of symbols. *)
Definition countSymbols (symbols : list Symbol) : gmap string Z :=
  fold_left (fun counts sym =>
               <[sym_Package sym := default 0 (counts !! sym_Package sym) + 1]> counts)
            symbols ∅.

(** [uint64(float64(totalBinarySize) * codeRatio / float64(totalSymbols))]. *)
Definition avgSymbolSize (totalBinarySize totalSymbols : Z) : Z :=
  float64.to_uint64
    (float64.div (float64.mul (float64.of_Z totalBinarySize) codeRatio)
                 (float64.of_Z totalSymbols)).

(** [for pkg, count := range pkgSymbolCounts { pkgSizes[pkg] = uint64(count) * avg }]. *)
Definition assignEstimates (avg : Z) (pkgSymbolCounts pkgSizes : gmap string Z)
  : gmap string Z :=
  map_fold (fun pkg count sizes => <[pkg := u64mul (u64 count) avg]> sizes)
           pkgSizes pkgSymbolCounts.

(** The second part of [analyzeBinarySymbolTable], from
    [if len(symbols) == 0] on. *)
Definition reconcile (binaryPath : string) (symbols : list Symbol) (archType : string)
  : IO (result (gmap string Z)) :=
  if (Z.of_nat (List.length symbols) =? 0) then
    ret (Err ("no symbols found in " +:+ archType +:+ " binary"))
  else
    let pkgSizes := addSymbolSizes symbols in
    let totalSymbols := Z.of_nat (List.length symbols) in
    if (0 <? totalSymbols) then
      let pkgSymbolCounts := countSymbols symbols in
      if (sumMapValues pkgSizes =? 0) then
        fileStat <- Stat binaryPath ;;
        match fileStat with
        | Ok info =>
            let totalBinarySize := u64 (fi_Size info) in
            let avg := avgSymbolSize totalBinarySize totalSymbols in
            ret (Ok (assignEstimates avg pkgSymbolCounts pkgSizes))
        | Err _ => ret (Ok pkgSizes)
        end
      else ret (Ok pkgSizes)
    else ret (Ok pkgSizes).

Definition analyzeBinarySymbolTable (binaryPath : string) : IO (result (gmap string Z)) :=
  f <- Open binaryPath ;;
  match f with
  | Err err => ret (Err err)
  | Ok f =>
      let '(sections, symbols, archType) := readSymbols f in
      reconcile binaryPath symbols archType
  end.

(** ** The [path/filepath] package *)

Module filepath.

(** The package is modelled for a system whose separator is the slash. *)

(** One element of a path met by [Clean]; [kept] holds the elements
    written so far, the last one first. *)
Definition cleanStep (rooted : bool) (kept : list string) (element : string) : list string :=
  if String.eqb element "" || String.eqb element "." then kept
  else if String.eqb element ".." then
    match kept with
    | top :: below =>
        if String.eqb top ".." then ".." :: kept else below
    | [] => if rooted then [] else [".."]
    end
  else element :: kept.

(** [filepath.Clean(path)]. *)
Definition Clean (path : string) : string :=
  match path with
  | EmptyString => "."
  | String c _ =>
      let rooted := Ascii.eqb c "/" in
      let kept := fold_left (cleanStep rooted) (strings.Split path "/") [] in
      let body := strings.Join (rev kept) "/" in
      if rooted then "/" +:+ body
      else if String.eqb body "" then "." else body
  end.

(** [filepath.Join(elem...)]: the elements from the first one that is
    not empty on, joined and cleaned. *)
Fixpoint Join (elem : list string) : string :=
  match elem with
  | [] => ""
  | e :: rest => if String.eqb e "" then Join rest else Clean (strings.Join elem "/")
  end.

(** The error a [WalkFunc] returns. *)
Inductive WalkError : Type := SkipDir | SkipAll | Failure (msg : string).

Definition is_SkipDir (e : WalkError) : bool :=
  match e with SkipDir => true | _ => false end.

Section Walk.
Context {State : Type}.
(** The callback, with the state of the variables it captures. *)
Variable fn : string -> option FileInfo -> option string -> State -> IO (State * option WalkError).

(** The loop of [walk] over the names of a directory; [visit] is what
    is done with one entry: the callback when [Lstat] fails on it, a
    recursive [walk] else. *)
Definition walkEntries (visit : string -> Node -> State -> IO (State * option WalkError))
  (path : string) : list (string * Node) -> State -> IO (State * option WalkError) :=
  fix each (entries : list (string * Node)) (s : State) : IO (State * option WalkError) :=
    match entries with
    | [] => ret (s, None)
    | (name, child) :: rest =>
        let filename := Join [path; name] in
        r <- visit filename child s ;;
        match r, child with
        | (s', None), _ => each rest s'
        | (s', Some err), NoStat _ =>
            if negb (is_SkipDir err) then ret (s', Some err) else each rest s'
        | (s', Some err), Leaf _ _ => ret (s', Some err)
        | (s', Some err), Dir _ _ =>
            if negb (is_SkipDir err) then ret (s', Some err) else each rest s'
        end
    end.

(** [walk], extended to a name on which [Lstat] fails (where its
    callers hand the error to the callback): [node] is what [Lstat]
    and the directory listing show at [path]. *)
Fixpoint walk (path : string) (node : Node) (s : State) {struct node}
  : IO (State * option WalkError) :=
  match node with
  | NoStat err => fn path None (Some err) s
  | Leaf kind size => fn path (Some {| fi_Kind := NotDir kind; fi_Size := size |}) None s
  | Dir size listing =>
      let info := {| fi_Kind := Directory; fi_Size := size |} in
      match listing with
      | Err err => fn path (Some info) (Some err) s
      | Ok entries =>
          r <- fn path (Some info) None s ;;
          match r with
          | (s1, Some err1) => ret (s1, Some err1)
          | (s1, None) => walkEntries walk path entries s1
          end
      end
  end.

(** [filepath.Walk(root, fn)]. *)
Definition Walk (root : string) (s : State) : IO (State * option WalkError) :=
  node <- ask (EvWalk root) (fun w => os_Lstat_tree w root) ;;
  r <- walk root node s ;;
  match r with
  | (s', Some SkipDir) | (s', Some SkipAll) => ret (s', None)
  | r => ret r
  end.
End Walk.

End filepath.

(** ** pkg/binary_analyzer.go *)

(** The callback of [calculateDirSize]; its state is the captured [size].
    ([Walk] passes file information whenever it passes no error.) *)
Definition addFileSize (path : string) (info : option FileInfo) (err : option string)
  (size : Z) : IO (Z * option filepath.WalkError) :=
  match err, info with
  | Some err, _ =>
      log_Printf ("Warning: could not access " +:+ path +:+ ": " +:+ err) ;;;
      ret (size, None)
  | None, Some info =>
      if negb (IsDir info) then ret (u64add size (u64 (fi_Size info)), None)
      else ret (size, None)
  | None, None => ret (size, None)
  end.

Definition calculateDirSize (dir : string) : IO Z :=
  r <- filepath.Walk addFileSize dir 0 ;;
  match r with
  | (size, Some err) =>
      log_Printf ("Error walking directory " +:+ dir +:+ ": "
                  +:+ match err with
                      | filepath.Failure msg => msg
                      | filepath.SkipDir => "skip this directory"
                      | filepath.SkipAll => "skip everything and stop the walk"
                      end) ;;;
      ret size
  | (size, None) => ret size
  end.

Definition estimateModuleSize (modulePath version : string) : IO Z :=
  if String.eqb version "" || String.eqb version "(devel)" then ret 0
  else
    goPath <- Getenv "GOPATH" ;;
    goPath <- (if String.eqb goPath "" then
                 home <- Getenv "HOME" ;; ret (filepath.Join [home; "go"])
               else ret goPath) ;;
    let cachePath := filepath.Join [goPath; "pkg"; "mod"; modulePath +:+ "@" +:+ version] in
    st <- Stat cachePath ;;
    match st with
    | Ok stat => if IsDir stat then calculateDirSize cachePath else ret 0
    | Err _ => ret 0
    end.

(** ** [sort.Slice] *)

(** [sift less x rprefix]: the inner loop of Go's insertion sort.  The
    sorted part is held last element first; [x] moves towards the front
    of the slice past every [y] with [less x y]. *)
Fixpoint sift {A} (less : A -> A -> bool) (x : A) (rprefix : list A) : list A :=
  match rprefix with
  | [] => [x]
  | y :: r => if less x y then y :: sift less x r else x :: y :: r
  end.

(** [sort.Slice(x, less)] as the insertion sort [insertionSort_func] that
    the library runs on slices of at most 12 elements.  On longer slices
    the library switches to pattern-defeating quicksort: the result is
    again ordered by [less], elements that [less] does not separate may
    come out in another order.  The properties therefore state of a
    sorted list of any length only that it is ordered and a permutation
    of what was sorted; the list itself is stated for samples of at most
    12 elements. *)
Definition sort_Slice {A} (less : A -> A -> bool) (x : list A) : list A :=
  rev (fold_left (fun rprefix e => sift less e rprefix) x []).

(** [func(i, j int) bool { return modules[i].Size > modules[j].Size }]. *)
Definition bySizeDesc (a b : ModuleEntry) : bool := Size b <? Size a.

Section Assembler.
Context `{Humanize}.

(** The size of one module of the build information: the symbol table's
    figure when it has a positive one, else the module cache's. *)
Definition moduleSize (pkgSizes : gmap string Z) (m : Module_) : IO Z :=
  match pkgSizes !! mod_Path m with
  | Some s => if 0 <? s then ret s else estimateModuleSize (mod_Path m) (mod_Version m)
  | None => estimateModuleSize (mod_Path m) (mod_Version m)
  end.

Definition moduleEntry (m : Module_) (size : Z) : ModuleEntry :=
  {| Path := mod_Path m; Name := mod_Path m; Version := mod_Version m;
     Size := size; SizeHuman := humanize_Bytes size |}.

(** [for _, dep := range info.Deps { if dep != nil { ... } }]. *)
Fixpoint depEntries (pkgSizes : gmap string Z) (deps : list (option Module_))
  : IO (list ModuleEntry) :=
  match deps with
  | [] => ret []
  | None :: rest => depEntries pkgSizes rest
  | Some dep :: rest =>
      size <- moduleSize pkgSizes dep ;;
      more <- depEntries pkgSizes rest ;;
      ret (moduleEntry dep size :: more)
  end.

(** [GoWeight.ProcessBinary]. *)
Definition ProcessBinary (binaryPath : string) : IO (list ModuleEntry) :=
  r <- ReadFile binaryPath ;;
  match r with
  | Err err =>
      log_Fatalf ("Error reading build info from binary " +:+ binaryPath +:+ ": " +:+ err)
  | Ok info =>
      r <- analyzeBinarySymbolTable binaryPath ;;
      pkgSizes <- match r with
                  | Ok pkgSizes => ret pkgSizes
                  | Err err =>
                      log_Printf ("Warning: Could not analyze symbol table: " +:+ err) ;;;
                      ret ∅
                  end ;;
      modules <- (if negb (String.eqb (mod_Path (bi_Main info)) "") then
                    size <- moduleSize pkgSizes (bi_Main info) ;;
                    ret [moduleEntry (bi_Main info) size]
                  else ret []) ;;
      deps <- depEntries pkgSizes (bi_Deps info) ;;
      ret (sort_Slice bySizeDesc (modules ++ deps)%list)
  end.

(** The end of [GoWeight.Process] (pkg/analyzer.go): the entries read
    from the import configurations and the project's own archives are
    appended and sorted. *)
Definition Process_assemble (modules projectModules : list ModuleEntry)
  : list ModuleEntry :=
  let allModules := (modules ++ projectModules)%list in
  sort_Slice bySizeDesc allModules.

(** ** main.go: the rollup *)

(** [getTopLevelPackage]. *)
Definition getTopLevelPackage (fullPackageName : string) : string :=
  if strings.HasPrefix fullPackageName "runtime" then "runtime"
  else if strings.HasPrefix fullPackageName "internal/" then "internal/*"
  else if strings.HasPrefix fullPackageName "vendor/" then "vendor/*"
  else if strings.Contains fullPackageName "." || strings.Contains fullPackageName "/"
  then
    let parts := strings.Split fullPackageName "/" in
    match parts with
    | [] => fullPackageName
    | part0 :: _ =>
        if strings.Contains part0 "." then
          if (2 <=? Z.of_nat (List.length parts))
          then strings.Join (take 2 parts) "/"
          else part0
        else if (2 <=? Z.of_nat (List.length parts))
        then strings.Join (take 2 parts) "/"
        else part0
    end
  else fullPackageName.

(** One turn of the first loop of [aggregateByTopLevelPackage]. *)
Definition addToGroup (aggregated : gmap string ModuleEntry) (module : ModuleEntry)
  : gmap string ModuleEntry :=
  let topLevel := getTopLevelPackage (Name module) in
  match aggregated !! topLevel with
  | Some existing =>
      let size := u64add (Size existing) (Size module) in
      <[topLevel := {| Path := Path existing; Name := Name existing;
                       Version := Version existing; Size := size;
                       SizeHuman := humanize_Bytes size |}]> aggregated
  | None =>
      <[topLevel := {| Path := topLevel; Name := topLevel; Version := "";
                       Size := Size module;
                       SizeHuman := humanize_Bytes (Size module) |}]> aggregated
  end.

Definition aggregated (modules : list ModuleEntry) : gmap string ModuleEntry :=
  fold_left addToGroup modules ∅.

(** [aggregateByTopLevelPackage].  Go ranges over the map in an order of
    its own choosing; [map_to_list] fixes one here, and the sort that
    follows orders the entries by size. *)
Definition aggregateByTopLevelPackage (modules : list ModuleEntry) : list ModuleEntry :=
  let result := List.map snd (map_to_list (aggregated modules)) in
  sort_Slice bySizeDesc result.

End Assembler.


(** ** main.go: the report of a binary, rolled up *)

(** What [main] computes for [--binary] without [--json] and
    [--verbose]: the entries it then prints, one line each. *)
Definition briefReport `{Humanize} (binaryFile : string) : IO (list ModuleEntry) :=
  modules <- ProcessBinary binaryFile ;;
  ret (aggregateByTopLevelPackage modules).

(** ** pkg/binary_analyzer.go and pkg/analyzer.go: the build commands *)

(** [NewGoWeight().BuildCmd]. *)
Definition defaultBuildCmd : list string := ["go"; "build"; "-work"; "-a"].

(** One turn of the loop of [BuildAndAnalyzeBinary] over the configured
    command; [i] is the index of [arg] and [n] the length of the command.
    (The [i++] of the source changes the loop variable of this turn only:
    the next turn takes the next index all the same.) *)
Definition binaryBuildArg (n i : Z) (arg : string) (binaryBuildCmd : list string)
  : list string :=
  if String.eqb arg "-o" && (i + 1 <? n) then
    (binaryBuildCmd ++ ["-o"; "goweight-temp-binary"])%list
  else if negb (String.eqb arg "go") && negb (String.eqb arg "build") then
    if negb (String.eqb arg "-work") && negb (String.eqb arg "-a")
    then (binaryBuildCmd ++ [arg])%list
    else binaryBuildCmd
  else binaryBuildCmd.

(** [for i, arg := range originalCmd { ... }], from index [i] on. *)
Fixpoint rangeFrom {A} (body : Z -> string -> A -> A) (i : Z) (originalCmd : list string)
  (acc : A) : A :=
  match originalCmd with
  | [] => acc
  | arg :: rest => rangeFrom body (i + 1) rest (body i arg acc)
  end.

(** The command that [BuildAndAnalyzeBinary] runs. *)
Definition binaryBuildCmd (originalCmd : list string) : list string :=
  rangeFrom (binaryBuildArg (Z.of_nat (List.length originalCmd))) 0 originalCmd
            ["go"; "build"; "-o"; "goweight-temp-binary"].

(** One turn of the loop of [AnalyzeBuildProcess]. *)
Definition analysisBuildArg (n i : Z) (arg : string) (buildCmd : list string)
  : list string :=
  if String.eqb arg "-o" && (i + 1 <? n) then buildCmd
  else if negb (String.eqb arg "go") && negb (String.eqb arg "build") then
    if negb (String.eqb arg "-work") && negb (String.eqb arg "-a")
       && negb (String.eqb arg "-x")
    then (buildCmd ++ [arg])%list
    else buildCmd
  else buildCmd.

(** The command that [AnalyzeBuildProcess] runs for [packages]. *)
Definition analysisBuildCmd (originalCmd packages : list string) : list string :=
  let buildCmd :=
    rangeFrom (analysisBuildArg (Z.of_nat (List.length originalCmd))) 0 originalCmd
              ["go"; "build"; "-work"; "-a"; "-x"] in
  let buildCmd := (buildCmd ++ ["-o"; "temp_output_for_analysis"])%list in
  if (0 <? Z.of_nat (List.length packages)) then (buildCmd ++ packages)%list
  else (buildCmd ++ ["."])%list.

(** The command line that [main] configures for [BuildAndAnalyzeBinary]
    from the flag [--tags] and the argument [packages]; an empty string
    stands for a flag or an argument that is not given. *)
Definition mainBuildCmd (buildTags packages : string) : list string :=
  let cmd := defaultBuildCmd in
  let cmd := if negb (String.eqb buildTags "") then (cmd ++ ["-tags"; buildTags])%list else cmd in
  if negb (String.eqb packages "") then (cmd ++ [packages])%list else cmd.

(** ** More of the [strings] and [path/filepath] packages *)

(** A string without its first [k] bytes. *)
Fixpoint sdrop (k : nat) (s : string) : string :=
  match k, s with
  | O, _ => s
  | S k', String _ s' => sdrop k' s'
  | S _, EmptyString => EmptyString
  end.

(** A string with its bytes in reverse order. *)
Fixpoint srev_onto (s acc : string) : string :=
  match s with
  | EmptyString => acc
  | String c s' => srev_onto s' (String c acc)
  end.

Definition srev (s : string) : string := srev_onto s EmptyString.

Module unicode.

(** The number of bytes of the white space character (in the sense of
    [unicode.IsSpace]) that [s] begins with in UTF-8, 0 when it begins
    with none: U+0009 to U+000D, U+0020, U+0085, U+00A0, U+1680, U+2000 to
    U+200A, U+2028, U+2029, U+202F, U+205F and U+3000. *)
Definition spaceWidth (s : string) : nat :=
  match s with
  | String c0 rest0 =>
      let b0 := Z.of_nat (nat_of_ascii c0) in
      if ((9 <=? b0) && (b0 <=? 13)) || (b0 =? 32) then 1%nat
      else
        match rest0 with
        | String c1 rest1 =>
            let b1 := Z.of_nat (nat_of_ascii c1) in
            if (b0 =? 194) && ((b1 =? 133) || (b1 =? 160)) then 2%nat
            else
              match rest1 with
              | String c2 _ =>
                  let b2 := Z.of_nat (nat_of_ascii c2) in
                  if (b0 =? 225) && (b1 =? 154) && (b2 =? 128) then 3%nat
                  else if (b0 =? 226) && (b1 =? 128)
                          && (((128 <=? b2) && (b2 <=? 138)) || (b2 =? 168)
                              || (b2 =? 169) || (b2 =? 175)) then 3%nat
                  else if (b0 =? 226) && (b1 =? 129) && (b2 =? 159) then 3%nat
                  else if (b0 =? 227) && (b1 =? 128) && (b2 =? 128) then 3%nat
                  else 0%nat
              | EmptyString => 0%nat
              end
        | EmptyString => 0%nat
        end
  | EmptyString => 0%nat
  end.

(** The same for the white space character that the reversed string [r]
    ends with, read backwards. *)
Definition spaceWidthBack (r : string) : nat :=
  match r with
  | String c0 rest0 =>
      let b0 := Z.of_nat (nat_of_ascii c0) in
      if ((9 <=? b0) && (b0 <=? 13)) || (b0 =? 32) then 1%nat
      else
        match rest0 with
        | String c1 rest1 =>
            let b1 := Z.of_nat (nat_of_ascii c1) in
            if (b1 =? 194) && ((b0 =? 133) || (b0 =? 160)) then 2%nat
            else
              match rest1 with
              | String c2 _ =>
                  let b2 := Z.of_nat (nat_of_ascii c2) in
                  if (b2 =? 225) && (b1 =? 154) && (b0 =? 128) then 3%nat
                  else if (b2 =? 226) && (b1 =? 128)
                          && (((128 <=? b0) && (b0 <=? 138)) || (b0 =? 168)
                              || (b0 =? 169) || (b0 =? 175)) then 3%nat
                  else if (b2 =? 226) && (b1 =? 129) && (b0 =? 159) then 3%nat
                  else if (b2 =? 227) && (b1 =? 128) && (b0 =? 128) then 3%nat
                  else 0%nat
              | EmptyString => 0%nat
              end
        | EmptyString => 0%nat
        end
  | EmptyString => 0%nat
  end.

End unicode.

Module morestrings.

(** Worker of [Fields]: [cur] is the field being read, [None] between
    fields; [skip] counts the bytes of a white space character still to
    be dropped. *)
Fixpoint fieldsFrom (skip : nat) (cur : option string) (s : string) : list string :=
  match s with
  | EmptyString => match cur with Some field => [field] | None => [] end
  | String c s' =>
      match skip with
      | S k => fieldsFrom k cur s'
      | O =>
          match unicode.spaceWidth s with
          | S k =>
              match cur with
              | Some field => field :: fieldsFrom k None s'
              | None => fieldsFrom k None s'
              end
          | O => fieldsFrom 0 (Some (default EmptyString cur +:+ String c EmptyString)) s'
          end
      end
  end.

(** [strings.Fields(s)]: the pieces of [s] between runs of white space. *)
Definition Fields (s : string) : list string := fieldsFrom 0 None s.

(** Dropping white space from the front, with the width function of the
    direction read. *)
Fixpoint trimFront (width : string -> nat) (skip : nat) (s : string) : string :=
  match s with
  | EmptyString => EmptyString
  | String c s' =>
      match skip with
      | S k => trimFront width k s'
      | O =>
          match width s with
          | S k => trimFront width k s'
          | O => s
          end
      end
  end.

(** [strings.TrimSpace(s)]. *)
Definition TrimSpace (s : string) : string :=
  srev (trimFront unicode.spaceWidthBack 0 (srev (trimFront unicode.spaceWidth 0 s))).

(** [strings.HasSuffix(s, suffix)], [strings.TrimPrefix(s, prefix)] and
    [strings.TrimSuffix(s, suffix)]. *)
Definition HasSuffix (s suffix : string) : bool := String.prefix (srev suffix) (srev s).

Definition TrimPrefix (s pre : string) : string :=
  if String.prefix pre s then sdrop (String.length pre) s else s.

Definition TrimSuffix (s suffix : string) : string :=
  if HasSuffix s suffix
  then String.substring 0 (String.length s - String.length suffix) s
  else s.

End morestrings.

(** More functions of [path/filepath] that work on the text of a path. *)
Module pathtext.

(** The text of a path before its last slash, the slash included, read
    off the reversed path. *)
Fixpoint uptoLastSlash (r : string) : string :=
  match r with
  | EmptyString => EmptyString
  | String c r' => if Ascii.eqb c "/" then srev r else uptoLastSlash r'
  end.

(** [filepath.Dir(path)]. *)
Definition Dir (path : string) : string := filepath.Clean (uptoLastSlash (srev path)).

(** A reversed path without the slashes it begins with. *)
Fixpoint dropSlashes (r : string) : string :=
  match r with
  | String c r' => if Ascii.eqb c "/" then dropSlashes r' else r
  | EmptyString => EmptyString
  end.

(** The last element of a path, read off the reversed path; [acc] holds
    what was read. *)
Fixpoint lastElement (r acc : string) : string :=
  match r with
  | EmptyString => acc
  | String c r' => if Ascii.eqb c "/" then acc else lastElement r' (String c acc)
  end.

(** [filepath.Base(path)]. *)
Definition Base (path : string) : string :=
  if String.eqb path "" then "."
  else
    let r := dropSlashes (srev path) in
    if String.eqb r "" then "/" else lastElement r EmptyString.

(** The extension, read off the reversed path. *)
Fixpoint extension (r acc : string) : string :=
  match r with
  | EmptyString => EmptyString
  | String c r' =>
      if Ascii.eqb c "/" then EmptyString
      else if Ascii.eqb c "." then String c acc
      else extension r' (String c acc)
  end.

(** [filepath.Ext(path)]. *)
Definition Ext (path : string) : string := extension (srev path) EmptyString.

End pathtext.

(** ** pkg/analyzer.go: the analysis of the build output *)

(** [extractPackageNameFromWorkDir]; [readFile] is what [os.ReadFile]
    returns for each path. *)
Fixpoint importcfgName (path : string) (lines : list string) : option string :=
  match lines with
  | [] => None
  | line :: rest =>
      if strings.HasPrefix line "packagefile " then
        let parts := strings.Split line "=" in
        match parts with
        | [part0; part1] =>
            let packagePath := morestrings.TrimSpace part0 in
            let packagePath := morestrings.TrimPrefix packagePath "packagefile " in
            let filePath := morestrings.TrimSpace part1 in
            if String.eqb filePath path then Some packagePath
            else importcfgName path rest
        | _ => importcfgName path rest
        end
      else importcfgName path rest
  end.

Definition extractPackageNameFromWorkDir (readFile : string -> result string)
  (path : string) : string :=
  let dir := pathtext.Dir path in
  let importCfgPath := filepath.Join [pathtext.Dir dir; "importcfg"] in
  let found :=
    match readFile importCfgPath with
    | Ok content => importcfgName path (strings.Split content (String "010" EmptyString))
    | Err _ => None
    end in
  match found with
  | Some packagePath => packagePath
  | None =>
      let base := pathtext.Base path in
      morestrings.TrimSuffix base (pathtext.Ext base)
  end.

(** [for i, part := range parts { if part == "-o" && i+1 < len(parts) {
    outputFile = parts[i+1]; break } }]. *)
Fixpoint findOutputFile (parts : list string) : string :=
  match parts with
  | [] => ""
  | part :: rest =>
      if String.eqb part "-o" then
        match rest with
        | next :: _ => next
        | [] => findOutputFile rest
        end
      else findOutputFile rest
  end.

(** The check for an entry of the same name, and the append that
    follows it. *)
Definition addModule (modules : list ModuleEntry) (file packageName : string)
  : list ModuleEntry :=
  if existsb (fun m => String.eqb (Name m) packageName) modules then modules
  else (modules ++ [ {| Path := file; Name := packageName; Version := "";
                        Size := 0; SizeHuman := "0 B" |} ])%list.

(** One turn of the loop of [parseBuildOutput] over the lines. *)
Definition parseBuildLine (readFile : string -> result string)
  (modules : list ModuleEntry) (line : string) : list ModuleEntry :=
  let modules :=
    if strings.Contains line "/compile" && strings.Contains line "-o"
       && strings.Contains line "_pkg_.a"
    then
      let parts := morestrings.Fields line in
      let outputFile := findOutputFile parts in
      if negb (String.eqb outputFile "") then
        addModule modules outputFile (extractPackageNameFromWorkDir readFile outputFile)
      else modules
    else modules in
  if strings.HasPrefix line "pack r " then
    let parts := morestrings.Fields line in
    if (3 <=? Z.of_nat (List.length parts)) then
      match parts !! 2%nat with
      | Some packFile =>
          if morestrings.HasSuffix packFile "_pkg_.a" then
            addModule modules packFile (extractPackageNameFromWorkDir readFile packFile)
          else modules
      | None => modules
      end
    else modules
  else modules.

(** [parseBuildOutput]. *)
Definition parseBuildOutput (readFile : string -> result string) (output : string)
  : list ModuleEntry :=
  let lines := strings.Split output (String "010" EmptyString) in
  let modules := fold_left (parseBuildLine readFile) lines [] in
  sort_Slice bySizeDesc modules.

(** [isProjectPackage]. *)
Definition isProjectPackage (archivePath : string) : bool :=
  negb (strings.Contains archivePath "pkg/mod").

(** ** pkg/symbol_analyzer.go: symbols from DWARF *)

(** A debugging information entry, as far as [parseDWARF] reads it: its
    tag, and its name attribute when that is a string. *)
Record DwarfEntry : Type := {
  dw_Tag : Z;
  dw_Name : option string
}.

(** [dwarf.TagSubprogram]. *)
Definition TagSubprogram : Z := 46.

(** [parseDWARF]; the reader is what its [Next] returns call after call:
    an entry or an error, and nil once the list is used up. *)
Fixpoint parseDWARF (reader : list (result DwarfEntry)) : list Symbol :=
  match reader with
  | [] => []
  | Err _ :: _ => []
  | Ok entry :: rest =>
      let found :=
        if dw_Tag entry =? TagSubprogram then
          match dw_Name entry with
          | Some name =>
              let pkg := extractPackageFromSymbol name in
              if negb (String.eqb pkg "") then
                [ {| sym_Name := name; sym_Size := 0; sym_Address := 0;
                     sym_Package := pkg; sym_Section := "" |} ]
              else []
          | None => []
          end
        else [] in
      (found ++ parseDWARF rest)%list
  end.

(** ** Vocabulary of the properties *)

(** The value of a computation run in a world. *)
Definition value {A} (m : IO A) (w : World) : option A := fst (m w).

Definition is_fatal (e : Event) : Prop :=
  match e with EvFatal _ => True | _ => False end.

(** A computation completes when it yields a value and logs nothing fatal. *)
Definition completes {A} (m : IO A) (w : World) : Prop :=
  exists a t, m w = (Some a, t) /\ Forall (fun e => ~ is_fatal e) t.

(** A report ordered by descending size. *)
Definition descending (report : list ModuleEntry) : Prop :=
  StronglySorted (fun a b => Size b <= Size a) report.

(** Entries of equal size stand in ascending lexical order of their names. *)
Definition ties_in_name_order (report : list ModuleEntry) : Prop :=
  forall (i j : nat) a b,
    report !! i = Some a -> report !! j = Some b -> (i < j)%nat ->
    Size a = Size b -> String.leb (Name a) (Name b) = true.

(** The sum of the sizes of a report, as a number. *)
Definition sumSizes (report : list ModuleEntry) : Z :=
  fold_right (fun m acc => Size m + acc) 0 report.

(** The sum of the sizes of the entries of a map. *)
Definition mapTotal (m : gmap string ModuleEntry) : Z :=
  sumSizes (List.map snd (map_to_list m)).

(** No entry of the map has a negative size. *)
Definition sizesNonNeg (m : gmap string ModuleEntry) : Prop :=
  forall key e, m !! key = Some e -> 0 <= Size e.

(** The module paths of the build information that get an entry. *)
Definition provenancePaths (info : BuildInfo) : list string :=
  ((if negb (String.eqb (mod_Path (bi_Main info)) "") then [mod_Path (bi_Main info)] else [])
   ++ List.map mod_Path (omap id (bi_Deps info)))%list.

(** The entries of the symbol tables of an ELF file: of the static table
    and of the dynamic one, as far as they can be read. *)
Definition elfTableEntries (elfFile : ElfFile) : list ElfSymbol :=
  (match elf_Symbols elfFile with Ok syms => syms | Err _ => [] end
   ++ match elf_DynamicSymbols elfFile with Ok dynSyms => dynSyms | Err _ => [] end)%list.

(** The number of symbols resolved to [pkg]. *)
Definition symbolCount (pkg : string) (symbols : list Symbol) : Z :=
  Z.of_nat (List.length (List.filter (fun s => String.eqb (sym_Package s) pkg) symbols)).

Definition sumOver {A} (f : A -> Z) : list A -> Z :=
  fix go (l : list A) : Z :=
    match l with
    | [] => 0
    | a :: l' => f a + go l'
    end.

(** The sizes of everything below a node that a walk can reach and that
    is not a directory. *)
Fixpoint nonDirTotal (n : Node) : Z :=
  match n with
  | NoStat _ => 0
  | Leaf _ size => size
  | Dir _ (Err _) => 0
  | Dir _ (Ok entries) => sumOver (fun e => nonDirTotal (snd e)) entries
  end.

(** The same for regular files only. *)
Fixpoint regularTotal (n : Node) : Z :=
  match n with
  | NoStat _ => 0
  | Leaf Regular size => size
  | Leaf _ _ => 0
  | Dir _ (Err _) => 0
  | Dir _ (Ok entries) => sumOver (fun e => regularTotal (snd e)) entries
  end.

(** No file below the node has a negative size. *)
Fixpoint sizesNonNegative (n : Node) : Prop :=
  match n with
  | NoStat _ => True
  | Leaf _ size => 0 <= size
  | Dir _ (Err _) => True
  | Dir _ (Ok entries) =>
      (fix all (l : list (string * Node)) : Prop :=
         match l with
         | [] => True
         | e :: l' => sizesNonNegative (snd e) /\ all l'
         end) entries
  end.

Definition accessWarning (path err : string) : Event :=
  EvLog ("Warning: could not access " +:+ path +:+ ": " +:+ err).

Definition concatOver {A B} (f : A -> list B) : list A -> list B :=
  fix go (l : list A) : list B :=
    match l with
    | [] => []
    | a :: l' => (f a ++ go l')%list
    end.

(** One warning for every name a walk cannot look at and every directory
    it cannot list, in the order of the walk. *)
Fixpoint accessWarnings (path : string) (n : Node) : list Event :=
  match n with
  | NoStat err => [accessWarning path err]
  | Leaf _ _ => []
  | Dir _ (Err err) => [accessWarning path err]
  | Dir _ (Ok entries) =>
      concatOver (fun e => accessWarnings (filepath.Join [path; fst e]) (snd e)) entries
  end.

(** The entries the build information alone gives, each with the size
    the module cache gives it in [w]. *)
Definition provenanceEntry `{Humanize} (w : World) (m : Module_) : ModuleEntry :=
  moduleEntry m (default 0 (value (estimateModuleSize (mod_Path m) (mod_Version m)) w)).

Definition provenanceEntries `{Humanize} (w : World) (info : BuildInfo) : list ModuleEntry :=
  ((if negb (String.eqb (mod_Path (bi_Main info)) "") then [provenanceEntry w (bi_Main info)]
    else [])
   ++ List.map (provenanceEntry w) (omap id (bi_Deps info)))%list.

(** ** Sample inputs *)

(** A rendering of sizes for the samples: none. *)
Definition noRendering : Humanize := fun _ => "".

(** A machine on which nothing can be opened or found. *)
Definition bareWorld : World :=
  {| os_Open := fun _ => Err "no such file or directory";
     os_Stat := fun _ => Err "no such file or directory";
     os_Lstat_tree := fun _ => NoStat "no such file or directory";
     os_Getenv := fun _ => "";
     buildinfo_ReadFile := fun _ => Err "not a Go executable" |}.

Definition withBinary (f : BinaryFile) (info : BuildInfo) (w : World) : World :=
  {| os_Open := fun _ => Ok f;
     os_Stat := os_Stat w;
     os_Lstat_tree := os_Lstat_tree w;
     os_Getenv := os_Getenv w;
     buildinfo_ReadFile := fun _ => Ok info |}.

Definition withTree (n : Node) (w : World) : World :=
  {| os_Open := os_Open w;
     os_Stat := os_Stat w;
     os_Lstat_tree := fun _ => n;
     os_Getenv := os_Getenv w;
     buildinfo_ReadFile := buildinfo_ReadFile w |}.

Definition withFileSize (size : Z) (w : World) : World :=
  {| os_Open := os_Open w;
     os_Stat := fun _ => Ok {| fi_Kind := NotDir Regular; fi_Size := size |};
     os_Lstat_tree := os_Lstat_tree w;
     os_Getenv := os_Getenv w;
     buildinfo_ReadFile := buildinfo_ReadFile w |}.

Definition elfOf (syms : list ElfSymbol) : BinaryFile :=
  {| asELF := Some {| elf_Sections := [ {| esec_Name := ".text"; esec_Size := 4096;
                                           esec_Type := "SHT_PROGBITS" |} ];
                      elf_Symbols := Ok syms;
                      elf_DynamicSymbols := Err "no symbol section" |};
     asMachO := None; asPE := None |}.

Definition machoOf (syms : list MachoSymbol) : BinaryFile :=
  {| asELF := None;
     asMachO := Some {| macho_Symtab := Some syms;
                        macho_Sections := [ {| msec_Name := "__text"; msec_Size := 4096 |} ] |};
     asPE := None |}.

Definition peOf (syms : option (list PESymbol)) : BinaryFile :=
  {| asELF := None; asMachO := None;
     asPE := Some {| pe_Symbols := syms;
                     pe_Sections := [ {| psec_Name := ".text"; psec_Size := 4096 |} ] |} |}.

Definition machoSym (name : string) : MachoSymbol :=
  {| msym_Name := name; msym_Type := 15; msym_Sect := 1; msym_Desc := 0; msym_Value := 4096 |}.

Definition unsized (pkg : string) : Symbol :=
  {| sym_Name := pkg +:+ ".f"; sym_Size := 0; sym_Address := 0;
     sym_Package := pkg; sym_Section := ".text" |}.

Definition entry (name : string) (size : Z) : ModuleEntry :=
  {| Path := name; Name := name; Version := ""; Size := size; SizeHuman := "" |}.

(** Build information with two dependencies that no cache holds. *)
Definition twoDeps (a b : string) (va vb : string) : BuildInfo :=
  {| bi_Main := {| mod_Path := "example.com/app"; mod_Version := "(devel)" |};
     bi_Deps := [ Some {| mod_Path := a; mod_Version := va |};
                  Some {| mod_Path := b; mod_Version := vb |} ] |}.

(** A module cache directory with a link, an unreadable directory and a
    file that vanished while the walk was under way. *)
Definition sampleTree : Node :=
  Dir 4096 (Ok [ ("LICENSE", Leaf Regular 300);
                 ("link", Leaf Symlink 7);
                 ("locked", Dir 4096 (Err "permission denied"));
                 ("sub", Dir 4096 (Ok [ ("a.go", Leaf Regular 1200);
                                        ("gone", NoStat "no such file or directory") ])) ]).

(** A directory that holds one symbolic link. *)
Definition linkOnly : Node := Dir 4096 (Ok [ ("current", Leaf Symlink 5) ]).

(** A machine whose module cache holds [sampleTree] for every module. *)
Definition cacheWorld : World :=
  {| os_Open := fun _ => Err "no such file or directory";
     os_Stat := fun _ => Ok {| fi_Kind := Directory; fi_Size := 4096 |};
     os_Lstat_tree := fun _ => sampleTree;
     os_Getenv := fun key => if String.eqb key "GOPATH" then "/go" else "";
     buildinfo_ReadFile := fun _ => Err "not a Go executable" |}.

(** Ten symbols without sizes: two of package "A", eight of package "B". *)
Definition twoAndEight : list Symbol :=
  List.map unsized ["A"; "B"; "B"; "B"; "A"; "B"; "B"; "B"; "B"; "B"].

(** ** Vocabulary of the further properties *)

(** The sizes of the modules that the rollup puts under [key], summed. *)
Definition groupSum `{Humanize} (key : string) (modules : list ModuleEntry) : Z :=
  sumSizes (List.filter (fun m => String.eqb (getTopLevelPackage (Name m)) key) modules).

(** What every entry of the rollup map looks like, and where it comes from. *)
Definition groupEntry `{Humanize} (modules : list ModuleEntry) (key : string)
  (e : ModuleEntry) : Prop :=
  Name e = key /\ Path e = key /\ Version e = "" /\
  SizeHuman e = humanize_Bytes (Size e) /\
  exists m, m ∈ modules /\ getTopLevelPackage (Name m) = key.


(** The sizes of the symbols resolved to [pkg], and of all symbols, summed. *)
Definition pkgSum (pkg : string) (symbols : list Symbol) : Z :=
  sumOver sym_Size (List.filter (fun s => String.eqb (sym_Package s) pkg) symbols).

Definition totalSize (symbols : list Symbol) : Z := sumOver sym_Size symbols.

(** The values of a map, summed. *)
Definition valuesTotal (m : gmap string Z) : Z := sumOver snd (map_to_list m).

(** The directory of the module cache that [estimateModuleSize] looks
    up, and the environment variables it reads to find it. *)
Definition cachePath (w : World) (modulePath version : string) : string :=
  let goPath := if String.eqb (os_Getenv w "GOPATH") ""
                then filepath.Join [os_Getenv w "HOME"; "go"]
                else os_Getenv w "GOPATH" in
  filepath.Join [goPath; "pkg"; "mod"; modulePath +:+ "@" +:+ version].

Definition cacheLookups (w : World) : list Event :=
  EvGetenv "GOPATH" :: (if String.eqb (os_Getenv w "GOPATH") "" then [EvGetenv "HOME"] else []).

(** The sizes per package that the symbol table of a binary gives, none
    when its analysis fails. *)
Definition symbolSizes (w : World) (binaryPath : string) : gmap string Z :=
  match value (analyzeBinarySymbolTable binaryPath) w with
  | Some (Ok pkgSizes) => pkgSizes
  | _ => ∅
  end.

(** The size to report for a module: the symbol table's when positive,
    else the module cache's. *)
Definition reportedSize (w : World) (pkgSizes : gmap string Z) (name version : string) : Z :=
  let cached := default 0 (value (estimateModuleSize name version) w) in
  match pkgSizes !! name with
  | Some s => if 0 <? s then s else cached
  | None => cached
  end.

(** What every entry of a report of a binary satisfies. *)
Definition reportEntry `{Humanize} (w : World) (pkgSizes : gmap string Z)
  (e : ModuleEntry) : Prop :=
  Size e = reportedSize w pkgSizes (Name e) (Version e) /\
  Path e = Name e /\
  SizeHuman e = humanize_Bytes (Size e).

(** What a loop over a command appends when each turn appends [g i arg]. *)
Fixpoint appended (g : Z -> string -> list string) (i : Z) (cmd : list string)
  : list string :=
  match cmd with
  | [] => []
  | arg :: rest => (g i arg ++ appended g (i + 1) rest)%list
  end.

(** The words that [BuildAndAnalyzeBinary] does not pass on, and those
    that [AnalyzeBuildProcess] does not pass on. *)
Definition passedToBuild (arg : string) : bool :=
  negb (String.eqb arg "go") && negb (String.eqb arg "build")
  && negb (String.eqb arg "-work") && negb (String.eqb arg "-a").

Definition passedToAnalysis (arg : string) : bool :=
  passedToBuild arg && negb (String.eqb arg "-x").

(** The import configuration that [extractPackageNameFromWorkDir] reads
    for an archive. *)
Definition importCfgPathOf (path : string) : string :=
  filepath.Join [pathtext.Dir (pathtext.Dir path); "importcfg"].

(** An entry as [parseBuildOutput] makes it. *)
Definition unsizedEntry (e : ModuleEntry) : Prop :=
  Size e = 0 /\ SizeHuman e = "0 B" /\ Version e = "".

(** A line of build output that [parseBuildOutput] looks into. *)
Definition buildLine (line : string) : bool :=
  (strings.Contains line "/compile" && strings.Contains line "-o"
   && strings.Contains line "_pkg_.a")
  || strings.HasPrefix line "pack r ".

(** The byte [c] does not occur in [s]. *)
Fixpoint charFree (c : ascii) (s : string) : Prop :=
  match s with
  | EmptyString => True
  | String x s' => x <> c /\ charFree c s'
  end.

(** A size is a [uint64]. *)
Definition isU64 (z : Z) : Prop := 0 <= z < 2 ^ 64.

(** * Properties *)

(** ** The package name resolver *)

Example split_dots :
  strings.Split "github.com/acme/foo.Bar" "." = ["github"; "com/acme/foo"; "Bar"].
Proof. reflexivity. Qed.

Example split_trailing : strings.Split "a..b." "." = ["a"; ""; "b"; ""].
Proof. reflexivity. Qed.

Example split_long_separator : strings.Split "a::b::c" "::" = ["a"; "b"; "c"].
Proof. reflexivity. Qed.

Example resolve_slash_first :
  extractPackageFromSymbol "internal/abi.Type.Kind" = "internal/abi.Type".
Proof. reflexivity. Qed.

Example resolve_module_path : extractPackageFromSymbol "mymod/app.Run" = "mymod/app".
Proof. reflexivity. Qed.

(** The text before the first dot of a name holds no dot. *)
Lemma first_segment_has_no_dot s : forall n,
  String.index 0 "." s = Some n ->
  String.index 0 "." (String.substring 0 n s) = None.
Proof.
  induction s as [|c s IH]; intros n Hidx.
  - cbn in Hidx. discriminate.
  - cbn [String.index String.prefix] in Hidx.
    destruct (ascii_dec "." c) as [<-|Hc].
    + assert (Hpre : String.prefix "" s = true) by (destruct s; reflexivity).
      rewrite Hpre in Hidx. injection Hidx as <-. reflexivity.
    + destruct (String.index 0 "." s) as [n'|] eqn:Hrest; [|discriminate].
      injection Hidx as <-. cbn [String.substring String.index String.prefix].
      destruct (ascii_dec "." c) as [Heq|_]; [contradiction|].
      rewrite (IH n' eq_refl). reflexivity.
Qed.

(** Hence the search over the prefixes of a name is entered only when a
    slash stands before its first dot: a name that starts with a domain,
    as in "github.com/user/repo/pkg.funcName", is never resolved. *)
Lemma unresolved_without_leading_slash symbolName :
  let prefix := str_take (strings.Index symbolName ".") symbolName in
  strings.Contains prefix "/" = false ->
  prefix <> "runtime" -> prefix <> "main" -> prefix <> "go" ->
  extractPackageFromSymbol symbolName = "".
Proof.
  intros prefix Hslash Hruntime Hmain Hgo. unfold extractPackageFromSymbol.
  destruct (0 <? strings.Index symbolName ".") eqn:Hpos; [|reflexivity].
  fold prefix.
  destruct (String.eqb_spec prefix "runtime") as [|_]; [contradiction|].
  destruct (String.eqb_spec prefix "main") as [|_]; [contradiction|].
  destruct (String.eqb_spec prefix "go") as [|_]; [contradiction|].
  rewrite Hslash. cbn [orb].
  assert (Hdot : strings.Contains prefix "." = false).
  { unfold strings.Contains, strings.Index at 1, prefix, str_take.
    unfold strings.Index in *.
    destruct (String.index 0 "." symbolName) as [k|] eqn:Hidx; [|discriminate].
    rewrite Nat2Z.id, (first_segment_has_no_dot _ _ Hidx). reflexivity. }
  rewrite Hdot. reflexivity.
Qed.

(** C1.  On the three sample names of the specification the resolver
    answers "runtime" for "runtime.newobject" and nothing for "tmp42", as
    stated; for "github.com/acme/foo.Bar" it answers nothing as well, not
    "github.com/acme/foo": the segment before the first dot, "github",
    holds no slash, so the search over the prefixes is never started. *)
Theorem extractPackageFromSymbol_samples :
  extractPackageFromSymbol "runtime.newobject" = "runtime" /\
  extractPackageFromSymbol "tmp42" = "" /\
  extractPackageFromSymbol "github.com/acme/foo.Bar" = "" /\
  extractPackageFromSymbol "github.com/acme/foo.Bar" <> "github.com/acme/foo".
Proof. repeat split; try reflexivity. discriminate. Qed.

(** ** Running computations *)

Lemma bind_run {A B} (m : IO A) (k : A -> IO B) w a t :
  m w = (Some a, t) ->
  bind m k w = (fst (k a w), (t ++ snd (k a w))%list).
Proof. intros Hm. unfold bind. rewrite Hm. destruct (k a w); reflexivity. Qed.

Lemma bind_step {A B} (m : IO A) (k : A -> IO B) w a t r t' :
  m w = (Some a, t) -> k a w = (r, t') -> bind m k w = (r, (t ++ t')%list).
Proof. intros Hm Hk. unfold bind. rewrite Hm, Hk. reflexivity. Qed.

Lemma bind_inv {A B} (m : IO A) (k : A -> IO B) w b t :
  bind m k w = (Some b, t) ->
  exists a t1 t2, m w = (Some a, t1) /\ k a w = (Some b, t2) /\ t = (t1 ++ t2)%list.
Proof.
  unfold bind. destruct (m w) as [[a|] t1]; [|discriminate].
  destruct (k a w) as [r t2] eqn:Hk. intros [= -> <-].
  exists a, t1, t2. auto.
Qed.

Lemma completes_ret {A} (a : A) w : completes (ret a) w.
Proof. exists a, []. split; [reflexivity | constructor]. Qed.

Lemma completes_ask {A} e (f : World -> A) w : ~ is_fatal e -> completes (ask e f) w.
Proof. intros He. exists (f w), [e]. split; [reflexivity | repeat constructor; exact He]. Qed.

Lemma completes_bind {A B} (m : IO A) (k : A -> IO B) w :
  completes m w -> (forall a, completes (k a) w) -> completes (bind m k) w.
Proof.
  intros (a & t & Hm & Ht) Hk. destruct (Hk a) as (b & t' & Hka & Ht').
  exists b, (t ++ t')%list. split.
  - rewrite (bind_run _ _ _ _ _ Hm), Hka. reflexivity.
  - apply Forall_app; auto.
Qed.

(** ** [sort.Slice] orders and permutes *)

Lemma sift_Permutation {A} (less : A -> A -> bool) x r :
  Permutation (sift less x r) (x :: r).
Proof.
  induction r as [|y r IH]; cbn; [reflexivity|].
  destruct (less x y); [|reflexivity].
  rewrite IH. apply perm_swap.
Qed.

Lemma sort_Slice_Permutation {A} (less : A -> A -> bool) l :
  Permutation (sort_Slice less l) l.
Proof.
  unfold sort_Slice.
  assert (Hgen : forall acc,
             Permutation (fold_left (fun rp e => sift less e rp) l acc) (rev l ++ acc)).
  { induction l as [|x l IH]; intros acc; cbn; [reflexivity|].
    rewrite IH, sift_Permutation, <- app_assoc. cbn.
    apply Permutation_app_head. reflexivity. }
  rewrite <- Permutation_rev, Hgen, app_nil_r. symmetry. apply Permutation_rev.
Qed.

Lemma sift_ascending x r :
  StronglySorted (fun a b => Size a <= Size b) r ->
  StronglySorted (fun a b => Size a <= Size b) (sift bySizeDesc x r).
Proof.
  induction r as [|y r IH]; cbn; intros Hs.
  - repeat constructor.
  - apply StronglySorted_inv in Hs as [Hr Hy].
    unfold bySizeDesc at 1. destruct (Z.ltb_spec (Size y) (Size x)) as [Hlt|Hge].
    + constructor; [auto|].
      eapply Permutation_Forall; [symmetry; apply sift_Permutation|].
      constructor; [lia | exact Hy].
    + constructor; [constructor; assumption|].
      constructor; [lia|]. eapply Forall_impl; [exact Hy|]. cbn. intros; lia.
Qed.

Lemma sort_Slice_descending l : descending (sort_Slice bySizeDesc l).
Proof.
  unfold descending, sort_Slice.
  assert (Hasc : forall acc,
             StronglySorted (fun a b => Size a <= Size b) acc ->
             StronglySorted (fun a b => Size a <= Size b)
               (fold_left (fun rp e => sift bySizeDesc e rp) l acc)).
  { induction l as [|x l IH]; intros acc Hacc; cbn; [exact Hacc|].
    apply IH, sift_ascending, Hacc. }
  specialize (Hasc [] (SSorted_nil _)).
  revert Hasc. generalize (fold_left (fun rp e => sift bySizeDesc e rp) l []).
  intros r. induction r as [|y r IH]; cbn; intros Hs; [constructor|].
  apply StronglySorted_inv in Hs as [Hr Hy].
  apply StronglySorted_app_2.
  - intros a b Ha Hb. apply list_elem_of_singleton in Hb as ->.
    rewrite Forall_forall in Hy. apply Hy.
    apply list_elem_of_In, in_rev, list_elem_of_In, Ha.
  - apply IH, Hr.
  - repeat constructor.
Qed.

Section Report_order.
Context `{Humanize}.

Lemma ProcessBinary_inv binaryPath w report t :
  ProcessBinary binaryPath w = (Some report, t) ->
  exists entries, report = sort_Slice bySizeDesc entries.
Proof.
  unfold ProcessBinary. intros Hrun.
  apply bind_inv in Hrun as ([info|err] & t1 & t2 & _ & Hrun & _); [|discriminate].
  apply bind_inv in Hrun as (r & ? & ? & _ & Hrun & _).
  apply bind_inv in Hrun as (pkgSizes & ? & ? & _ & Hrun & _).
  apply bind_inv in Hrun as (modules & ? & ? & _ & Hrun & _).
  apply bind_inv in Hrun as (deps & ? & ? & _ & Hrun & _).
  injection Hrun as <- _. eauto.
Qed.

(** C2, as amended.  A report that [ProcessBinary] returns, and the list
    that [Process] assembles, is ordered by descending size and holds
    exactly the entries that were assembled; nothing orders entries of
    equal size by name. *)
Theorem report_sorted_by_size :
  (forall binaryPath w report t,
      ProcessBinary binaryPath w = (Some report, t) -> descending report) /\
  (forall modules projectModules,
      descending (Process_assemble modules projectModules) /\
      Permutation (Process_assemble modules projectModules)
                  (modules ++ projectModules)).
Proof.
  split.
  - intros binaryPath w report t Hrun.
    apply ProcessBinary_inv in Hrun as [entries ->].
    apply sort_Slice_descending.
  - intros modules projectModules. unfold Process_assemble. split.
    + apply sort_Slice_descending.
    + apply sort_Slice_Permutation.
Qed.
End Report_order.

(** ** The directory walk *)

Lemma Node_nested_ind (P : Node -> Prop) :
  (forall err, P (NoStat err)) ->
  (forall kind size, P (Leaf kind size)) ->
  (forall size err, P (Dir size (Err err))) ->
  (forall size entries, Forall (fun e => P (snd e)) entries -> P (Dir size (Ok entries))) ->
  forall n, P n.
Proof.
  intros Hno Hleaf Herr Hdir. fix IH 1.
  intros [err|kind size|size [entries|err]].
  - apply Hno.
  - apply Hleaf.
  - apply Hdir. induction entries as [|[name child] rest IHrest]; constructor.
    + apply IH.
    + exact IHrest.
  - apply Herr.
Qed.

Lemma u64_range z : 0 <= u64 z < 2 ^ 64.
Proof. unfold u64. apply Z.mod_pos_bound. lia. Qed.

Lemma u64_small z : 0 <= z < 2 ^ 64 -> u64 z = z.
Proof. intros Hz. unfold u64. apply Z.mod_small, Hz. Qed.

Lemma u64add_u64 a b : u64add a (u64 b) = u64 (a + b).
Proof. unfold u64add, u64. apply Zplus_mod_idemp_r. Qed.

Lemma u64_add_l a b : u64 (u64 a + b) = u64 (a + b).
Proof. unfold u64. apply Zplus_mod_idemp_l. Qed.

(** Walking a tree with the callback of [calculateDirSize] adds the sizes
    of the reachable entries that are no directories, logs one warning for
    each entry it cannot look into, and never stops early. *)
Lemma walk_addFileSize n : forall path s w,
  0 <= s < 2 ^ 64 ->
  filepath.walk addFileSize path n s w
  = (Some (u64 (s + nonDirTotal n), None), accessWarnings path n).
Proof.
  induction n as [err|kind size|size err|size entries IH] using Node_nested_ind;
    intros path s w Hs; cbn.
  - rewrite Z.add_0_r, (u64_small s Hs). reflexivity.
  - rewrite u64add_u64. reflexivity.
  - rewrite Z.add_0_r, (u64_small s Hs). reflexivity.
  - revert s Hs. induction IH as [|[name child] rest Hchild _ IHrest]; intros s Hs.
    + cbn. rewrite Z.add_0_r, (u64_small s Hs). reflexivity.
    + cbn in Hchild. cbn.
      unfold bind at 1. rewrite (Hchild _ s w Hs).
      specialize (IHrest (u64 (s + nonDirTotal child)) (u64_range _)).
      cbn in IHrest.
      destruct (filepath.walkEntries _ path rest _ w) as [r t'].
      injection IHrest as -> ->.
      rewrite u64_add_l, Z.add_assoc. reflexivity.
Qed.

Lemma calculateDirSize_run dir w :
  calculateDirSize dir w
  = (Some (u64 (nonDirTotal (os_Lstat_tree w dir))),
     EvWalk dir :: accessWarnings dir (os_Lstat_tree w dir)).
Proof.
  unfold calculateDirSize, filepath.Walk, bind, ask.
  rewrite walk_addFileSize by lia. cbn.
  rewrite !app_nil_r. reflexivity.
Qed.

Lemma nonDirTotal_nonneg n : sizesNonNegative n -> 0 <= nonDirTotal n.
Proof.
  induction n as [err|kind size|size err|size entries IH] using Node_nested_ind;
    cbn; try lia.
  induction IH as [|[name child] rest Hchild _ IHrest]; cbn; [lia|].
  intros [Hc Hr]. specialize (Hchild Hc). specialize (IHrest Hr). cbn in *. lia.
Qed.

Lemma accessWarnings_not_fatal n : forall path,
  Forall (fun e => ~ is_fatal e) (accessWarnings path n).
Proof.
  induction n as [err|kind size|size err|size entries IH] using Node_nested_ind;
    intros path; cbn; try (repeat constructor; tauto).
  induction IH as [|[name child] rest Hchild _ IHrest]; cbn; [constructor|].
  apply Forall_app. split; [apply Hchild | apply IHrest].
Qed.

(** C8, as amended.  The directory-size fallback always returns: its value
    is the sum, in [uint64] arithmetic, of the sizes of all reachable
    entries that are not directories (regular files, and symbolic links
    and special files as well), and its log holds only the warnings for
    the entries it had to skip.  The sum is exact when it fits 64 bits; an
    empty directory gives 0 and logs nothing; a missing path gives 0 and
    logs one warning. *)
Theorem calculateDirSize_total dir w :
  calculateDirSize dir w
  = (Some (u64 (nonDirTotal (os_Lstat_tree w dir))),
     EvWalk dir :: accessWarnings dir (os_Lstat_tree w dir))
  /\ completes (calculateDirSize dir) w
  /\ (sizesNonNegative (os_Lstat_tree w dir) ->
      nonDirTotal (os_Lstat_tree w dir) < 2 ^ 64 ->
      value (calculateDirSize dir) w = Some (nonDirTotal (os_Lstat_tree w dir)))
  /\ (forall size, os_Lstat_tree w dir = Dir size (Ok []) ->
      calculateDirSize dir w = (Some 0, [EvWalk dir]))
  /\ (forall err, os_Lstat_tree w dir = NoStat err ->
      calculateDirSize dir w = (Some 0, [EvWalk dir; accessWarning dir err])).
Proof.
  pose proof (calculateDirSize_run dir w) as Hrun.
  split; [exact Hrun|]. split; [|split; [|split]].
  - eexists _, _. split; [exact Hrun|].
    constructor; [cbn; tauto | apply accessWarnings_not_fatal].
  - intros Hpos Hfit. unfold value. rewrite Hrun. cbn.
    rewrite u64_small; [reflexivity|].
    split; [apply nonDirTotal_nonneg, Hpos | exact Hfit].
  - intros size Htree. rewrite Hrun, Htree. reflexivity.
  - intros err Htree. rewrite Hrun, Htree. reflexivity.
Qed.

Lemma calculateDirSize_total_witness :
  sizesNonNegative sampleTree /\ nonDirTotal sampleTree < 2 ^ 64 /\
  value (calculateDirSize "/go/pkg/mod/x@v1") (withTree sampleTree bareWorld) = Some 1507.
Proof.
  assert (Hpos : sizesNonNegative sampleTree) by (cbn; repeat split; lia).
  assert (Hfit : nonDirTotal sampleTree < 2 ^ 64) by (cbn; lia).
  split; [exact Hpos|]. split; [exact Hfit|].
  exact (proj1 (proj2 (proj2
           (calculateDirSize_total "/go/pkg/mod/x@v1" (withTree sampleTree bareWorld))))
           Hpos Hfit).
Defined.

(** C8 as stated does not hold: a symbolic link is no regular file, and
    its size is counted. *)
Lemma calculateDirSize_counts_links :
  value (calculateDirSize "vendor") (withTree linkOnly bareWorld) = Some 5 /\
  regularTotal linkOnly = 0 /\
  value (calculateDirSize "vendor") (withTree linkOnly bareWorld)
  <> Some (regularTotal (os_Lstat_tree (withTree linkOnly bareWorld) "vendor")).
Proof. repeat split. vm_compute. discriminate. Qed.

(** ** Ties in a report *)

(** C2 as stated does not hold: two dependencies of equal size stay in
    the order of the build information, "zeta" before "alpha". *)
Lemma ProcessBinary_ties_keep_input_order :
  exists report,
    value (ProcessBinary (H := noRendering) "app")
          (withBinary (peOf None)
             (twoDeps "example.com/zeta" "example.com/alpha" "v1.0.0" "v1.0.0") bareWorld)
    = Some report /\
    List.map Name report = ["example.com/app"; "example.com/zeta"; "example.com/alpha"] /\
    List.map Size report = [0; 0; 0] /\
    ~ ties_in_name_order report.
Proof.
  eexists. split; [vm_compute; reflexivity|]. split; [reflexivity|]. split; [reflexivity|].
  intros Hties.
  specialize (Hties 1%nat 2%nat _ _ eq_refl eq_refl ltac:(lia) eq_refl).
  vm_compute in Hties. discriminate.
Qed.

Lemma report_sorted_by_size_witness :
  exists report t,
    ProcessBinary (H := noRendering) "app"
      (withBinary (peOf None) (twoDeps "example.com/lib" "example.com/util" "v1.2.3" "") cacheWorld)
    = (Some report, t) /\
    List.map Size report = [1507; 0; 0] /\
    descending report.
Proof.
  eexists _, _. split; [vm_compute; reflexivity|]. split; [reflexivity|].
  eapply (proj1 (report_sorted_by_size (H := noRendering)) "app"
            (withBinary (peOf None) (twoDeps "example.com/lib" "example.com/util" "v1.2.3" "")
               cacheWorld)).
  vm_compute. reflexivity.
Defined.

(** ** The module cache fallback *)

Lemma completes_calculateDirSize dir w : completes (calculateDirSize dir) w.
Proof.
  eexists _, _. split; [apply calculateDirSize_run|].
  constructor; [cbn; tauto | apply accessWarnings_not_fatal].
Qed.

Lemma completes_estimateModuleSize modulePath version w :
  completes (estimateModuleSize modulePath version) w.
Proof.
  unfold estimateModuleSize.
  destruct (_ || _); [apply completes_ret|].
  apply completes_bind; [apply completes_ask; cbn; tauto|]. intros goPath.
  apply completes_bind.
  { destruct (String.eqb goPath ""); [|apply completes_ret].
    apply completes_bind; [apply completes_ask; cbn; tauto|].
    intros home. apply completes_ret. }
  intros goPath'. apply completes_bind; [apply completes_ask; cbn; tauto|].
  intros [stat|err]; [|apply completes_ret].
  destruct (IsDir stat); [apply completes_calculateDirSize | apply completes_ret].
Qed.

(** C9.  For a module whose version is empty or "(devel)" the module
    cache fallback answers 0 at once: it reads no environment variable,
    looks up no directory and logs nothing; and unless the symbol table
    gave the module a positive size, 0 is the size reported for it. *)
Theorem estimateModuleSize_development_version modulePath version w :
  version = "" \/ version = "(devel)" ->
  estimateModuleSize modulePath version w = (Some 0, []) /\
  (forall pkgSizes,
      (forall s, pkgSizes !! modulePath = Some s -> s <= 0) ->
      moduleSize pkgSizes {| mod_Path := modulePath; mod_Version := version |} w
      = (Some 0, [])).
Proof.
  intros Hversion.
  assert (Hest : estimateModuleSize modulePath version w = (Some 0, [])).
  { destruct Hversion as [-> | ->]; reflexivity. }
  split; [exact Hest|].
  intros pkgSizes Hnone. unfold moduleSize. cbn.
  destruct (pkgSizes !! modulePath) as [s|] eqn:Hs; [|exact Hest].
  specialize (Hnone s eq_refl).
  destruct (Z.ltb_spec 0 s); [lia | exact Hest].
Qed.

Lemma estimateModuleSize_development_version_witness :
  estimateModuleSize "example.com/app" "(devel)" cacheWorld = (Some 0, []) /\
  moduleSize ∅ {| mod_Path := "example.com/app"; mod_Version := "(devel)" |} cacheWorld
  = (Some 0, []).
Proof.
  destruct (estimateModuleSize_development_version "example.com/app" "(devel)" cacheWorld
              (or_intror eq_refl)) as [Hest Hsize].
  split; [exact Hest|].
  apply Hsize. intros s Hs. rewrite lookup_empty in Hs. discriminate.
Defined.

(** ** The symbol reader *)

(** C10, as amended.  A binary that only the PE reader accepts yields no
    symbol record, whatever its symbol table holds, and the analysis of
    its symbol table ends with the error "no symbols found in PE binary".
    One section record is collected for each section of the file when the
    file has a symbol table, and none when it has not. *)
Theorem pe_never_yields_symbols binaryPath w f peFile :
  os_Open w binaryPath = Ok f ->
  asELF f = None -> asMachO f = None -> asPE f = Some peFile ->
  (readSymbols f).1.2 = [] /\
  (readSymbols f).2 = "PE" /\
  (forall syms,
      pe_Symbols peFile = Some syms ->
      Forall2 (fun sec record => sec_Name record = psec_Name sec /\
                                 sec_Size record = u64 (psec_Size sec) /\
                                 sec_Type record = "section")
              (pe_Sections peFile) (readSymbols f).1.1) /\
  (pe_Symbols peFile = None -> (readSymbols f).1.1 = []) /\
  analyzeBinarySymbolTable binaryPath w
  = (Some (Err "no symbols found in PE binary"), [EvOpen binaryPath]).
Proof.
  intros Hopen Helf Hmacho Hpe.
  assert (Hread : exists sections, readSymbols f = (sections, [], "PE")).
  { unfold readSymbols. rewrite Helf, Hmacho, Hpe. eauto. }
  split; [destruct Hread as [sections ->]; reflexivity|].
  split; [destruct Hread as [sections ->]; reflexivity|].
  split; [|split].
  - intros syms Hsyms. unfold readSymbols. rewrite Helf, Hmacho, Hpe, Hsyms.
    cbn [fst snd]. induction (pe_Sections peFile) as [|sec secs IH]; cbn [List.map];
      constructor; auto.
  - intros Hnone. unfold readSymbols. rewrite Helf, Hmacho, Hpe, Hnone. reflexivity.
  - destruct Hread as [sections Hread].
    unfold analyzeBinarySymbolTable, bind, Open, ask. rewrite Hopen, Hread.
    reflexivity.
Qed.

Lemma pe_never_yields_symbols_witness :
  analyzeBinarySymbolTable "app.exe"
    (withBinary (peOf (Some [ {| psym_Name := "main.main"; psym_Value := 4096 |} ]))
       (twoDeps "a" "b" "" "") bareWorld)
  = (Some (Err "no symbols found in PE binary"), [EvOpen "app.exe"]) /\
  List.map sec_Name
    (readSymbols (peOf (Some [ {| psym_Name := "main.main"; psym_Value := 4096 |} ]))).1.1
  = [".text"].
Proof.
  destruct (pe_never_yields_symbols "app.exe"
              (withBinary (peOf (Some [ {| psym_Name := "main.main"; psym_Value := 4096 |} ]))
                 (twoDeps "a" "b" "" "") bareWorld)
              _ _ eq_refl eq_refl eq_refl eq_refl)
    as (_ & _ & Hsections & _ & Hanalyze).
  split; [exact Hanalyze|].
  specialize (Hsections _ eq_refl).
  revert Hsections. generalize (readSymbols (peOf (Some [ {| psym_Name := "main.main";
                                                             psym_Value := 4096 |} ]))).1.1.
  intros records Hsections. cbn [peOf pe_Sections] in Hsections.
  destruct records as [|record [|record' records]];
    [exfalso; inversion Hsections | | exfalso; inversion Hsections as [|? ? ? ? _ Hrest];
                                       inversion Hrest].
  inversion Hsections as [|? ? ? ? (Hname & _) _]. cbn [List.map]. rewrite Hname. reflexivity.
Defined.

(** C10 as stated does not hold: for a PE file without a symbol table no
    section record is collected, although the file has sections. *)
Lemma pe_sections_need_symbol_table :
  (readSymbols (peOf None)).1.1 = [] /\
  exists peFile, asPE (peOf None) = Some peFile /\ pe_Sections peFile <> [].
Proof.
  split; [reflexivity|]. eexists. split; [reflexivity | discriminate].
Qed.

(** C5, as amended.  Every symbol record read from a Mach-O binary
    carries the size 100, the fixed estimate that the reader itself puts
    in; a record read from an ELF binary stands for an entry of the symbol
    tables of the file, whose name, size and value it carries. *)
Theorem reader_symbol_sizes f :
  (forall machoFile s,
      asELF f = None -> asMachO f = Some machoFile ->
      s ∈ (readSymbols f).1.2 ->
      sym_Size s = 100) /\
  (forall elfFile s,
      asELF f = Some elfFile ->
      s ∈ (readSymbols f).1.2 ->
      exists sym,
        sym ∈ elfTableEntries elfFile /\
        sym_Name s = esym_Name sym /\
        sym_Size s = esym_Size sym /\
        sym_Address s = esym_Value sym).
Proof.
  split.
  - intros machoFile s Helf Hmacho Hin.
    unfold readSymbols in Hin. rewrite Helf, Hmacho in Hin. cbn in Hin.
    destruct (macho_Symtab machoFile) as [syms|]; [|inversion Hin].
    apply list_elem_of_omap in Hin as (sym & _ & Hsym).
    unfold machoSymbol in Hsym.
    destruct (negb _); [|discriminate]. injection Hsym as <-. reflexivity.
  - intros elfFile s Helf Hin.
    unfold readSymbols in Hin. rewrite Helf in Hin. cbn in Hin.
    assert (Hfields : forall sym, elfSymbol elfFile sym = Some s ->
                                  sym_Name s = esym_Name sym /\
                                  sym_Size s = esym_Size sym /\
                                  sym_Address s = esym_Value sym).
    { intros sym Hsym. unfold elfSymbol in Hsym.
      destruct (_ && _); [|discriminate].
      destruct (elf_Sections elfFile !! _); [|discriminate].
      destruct (negb _); [|discriminate]. injection Hsym as <-. auto. }
    assert (Hfrom : forall syms : list ElfSymbol,
               (forall sym, sym ∈ syms -> sym ∈ elfTableEntries elfFile) ->
               s ∈ omap (elfSymbol elfFile) syms ->
               exists sym,
                 sym ∈ elfTableEntries elfFile /\
                 sym_Name s = esym_Name sym /\
                 sym_Size s = esym_Size sym /\
                 sym_Address s = esym_Value sym).
    { intros syms Hsub Hs. apply list_elem_of_omap in Hs as (sym & Hsym & Hrec).
      exists sym. split; [apply Hsub, Hsym | apply Hfields, Hrec]. }
    unfold elfTableEntries in *.
    destruct (elf_Symbols elfFile) as [syms|err];
      destruct (elf_DynamicSymbols elfFile) as [dyn|err'];
      cbn in Hin;
      repeat match type of Hin with
             | context [if ?c then _ else _] => destruct c
             end;
      try (apply elem_of_app in Hin as [Hin|Hin]);
      try (inversion Hin; fail);
      first [ apply (Hfrom syms); [intros sym Hsym; apply elem_of_app; left; exact Hsym
                                  | exact Hin]
            | apply (Hfrom dyn); [intros sym Hsym; apply elem_of_app; right; exact Hsym
                                 | exact Hin] ].
Qed.

Lemma reader_symbol_sizes_witness :
  Forall (fun s => sym_Size s = 100)
         (readSymbols (machoOf [machoSym "main.run"; machoSym "runtime.gcStart"])).1.2 /\
  Forall (fun s => sym_Size s = 24)
         (readSymbols (elfOf [ {| esym_Name := "main.run"; esym_Size := 24;
                                  esym_Value := 4096; esym_Section := 0 |} ])).1.2.
Proof.
  split; apply Forall_forall; intros s Hs.
  - exact (proj1 (reader_symbol_sizes
                    (machoOf [machoSym "main.run"; machoSym "runtime.gcStart"]))
                 _ s eq_refl eq_refl Hs).
  - destruct (proj2 (reader_symbol_sizes
                       (elfOf [ {| esym_Name := "main.run"; esym_Size := 24;
                                   esym_Value := 4096; esym_Section := 0 |} ]))
                    _ s eq_refl Hs) as (sym & Hsym & _ & Hsize & _).
    apply elem_of_app in Hsym as [Hsym|Hsym]; [|inversion Hsym].
    apply list_elem_of_singleton in Hsym. rewrite Hsize, Hsym. reflexivity.
Defined.

(** C5 as stated does not hold: the record of a Mach-O symbol has a size
    other than 0. *)
Lemma macho_symbol_size_is_estimated :
  (readSymbols (machoOf [machoSym "main.run"])).1.2
  = [ {| sym_Name := "main.run"; sym_Size := 100; sym_Address := 0;
         sym_Package := "main"; sym_Section := "" |} ] /\
  ~ Forall (fun s => sym_Size s = 0) (readSymbols (machoOf [machoSym "main.run"])).1.2.
Proof.
  split; [reflexivity|].
  intros Hall. vm_compute in Hall. inversion Hall as [|? ? Hsize _]. discriminate.
Qed.

(** ** An empty symbol table *)

Section Empty_symbol_table.
Context `{Humanize}.

Lemma moduleSize_no_symbols m w :
  moduleSize ∅ m w = estimateModuleSize (mod_Path m) (mod_Version m) w.
Proof. unfold moduleSize. rewrite lookup_empty. reflexivity. Qed.

Lemma moduleSize_provenance m w :
  exists t, moduleSize ∅ m w = (Some (Size (provenanceEntry w m)), t) /\
            Forall (fun e => ~ is_fatal e) t.
Proof.
  rewrite moduleSize_no_symbols.
  destruct (completes_estimateModuleSize (mod_Path m) (mod_Version m) w)
    as (size & t & Hrun & Ht).
  exists t. split; [|exact Ht].
  unfold provenanceEntry, value. rewrite Hrun. reflexivity.
Qed.

Lemma moduleEntry_provenance m w :
  moduleEntry m (Size (provenanceEntry w m)) = provenanceEntry w m.
Proof. reflexivity. Qed.

Lemma depEntries_provenance deps w :
  exists t, depEntries ∅ deps w
            = (Some (List.map (provenanceEntry w) (omap id deps)), t) /\
            Forall (fun e => ~ is_fatal e) t.
Proof.
  induction deps as [|[dep|] rest (t & IH & Ht)]; cbn.
  - exists []. split; [reflexivity | constructor].
  - destruct (moduleSize_provenance dep w) as (t1 & Hsize & Ht1).
    exists (t1 ++ (t ++ []))%list. split.
    + rewrite (bind_run _ _ _ _ _ Hsize). rewrite (bind_run _ _ _ _ _ IH).
      reflexivity.
    + rewrite app_nil_r. apply Forall_app; auto.
  - exists t. auto.
Qed.

(** C3, as amended.  When a binary opens and the reader finds no symbol
    record in it, the analysis of the symbol table returns the error
    "no symbols found in <format> binary" and no map (for an unrecognised
    binary the error is the same with an empty format name).
    [ProcessBinary] logs that error as a warning, logs nothing fatal, and
    returns the entries of the build information, each with the size the
    module cache gives it, in an order of descending size. *)
Theorem empty_symbol_table_is_warning binaryPath w f sections archType :
  os_Open w binaryPath = Ok f ->
  readSymbols f = (sections, [], archType) ->
  analyzeBinarySymbolTable binaryPath w
  = (Some (Err ("no symbols found in " +:+ archType +:+ " binary")), [EvOpen binaryPath])
  /\ (forall info,
         buildinfo_ReadFile w binaryPath = Ok info ->
         exists report t,
           ProcessBinary binaryPath w = (Some report, t) /\
           Permutation report (provenanceEntries w info) /\
           descending report /\
           In (EvLog ("Warning: Could not analyze symbol table: no symbols found in "
                      +:+ archType +:+ " binary")) t /\
           Forall (fun e => ~ is_fatal e) t).
Proof.
  intros Hopen Hread.
  assert (Hanalyze : analyzeBinarySymbolTable binaryPath w
                     = (Some (Err ("no symbols found in " +:+ archType +:+ " binary")),
                        [EvOpen binaryPath])).
  { unfold analyzeBinarySymbolTable, bind, Open, ask. rewrite Hopen, Hread. reflexivity. }
  split; [exact Hanalyze|].
  intros info Hinfo.
  exists (sort_Slice bySizeDesc (provenanceEntries w info)).
  cut (exists t,
          ProcessBinary binaryPath w
          = (Some (sort_Slice bySizeDesc (provenanceEntries w info)), t) /\
          In (EvLog ("Warning: Could not analyze symbol table: no symbols found in "
                     +:+ archType +:+ " binary")) t /\
          Forall (fun e => ~ is_fatal e) t).
  { intros (t & Hrun & Hwarn & Ht). exists t.
    split; [exact Hrun|]. split; [apply sort_Slice_Permutation|].
    split; [apply sort_Slice_descending|]. split; assumption. }
  destruct (depEntries_provenance (bi_Deps info) w) as (td & Hdeps & Htd).
  destruct (moduleSize_provenance (bi_Main info) w) as (tm & Hmain & Htm).
  unfold ProcessBinary, provenanceEntries.
  destruct (negb (String.eqb (mod_Path (bi_Main info)) "")) eqn:Hmainpath.
  - eexists. split; [|split].
    + eapply bind_step; [unfold ReadFile, ask; rewrite Hinfo; reflexivity|].
      eapply bind_step; [exact Hanalyze|].
      eapply bind_step; [reflexivity|].
      cbn beta iota. rewrite Hmainpath.
      eapply bind_step; [eapply bind_step; [exact Hmain | reflexivity]|].
      eapply bind_step; [exact Hdeps | reflexivity].
    + cbn. right. right. left. reflexivity.
    + repeat (constructor; [cbn; tauto|]).
      rewrite !app_nil_r. apply Forall_app; split; [exact Htm | exact Htd].
  - eexists. split; [|split].
    + eapply bind_step; [unfold ReadFile, ask; rewrite Hinfo; reflexivity|].
      eapply bind_step; [exact Hanalyze|].
      eapply bind_step; [reflexivity|].
      cbn beta iota. rewrite Hmainpath.
      eapply bind_step; [reflexivity|].
      eapply bind_step; [exact Hdeps | reflexivity].
    + cbn. right. right. left. reflexivity.
    + repeat (constructor; [cbn; tauto|]).
      rewrite !app_nil_r. exact Htd.
Qed.
End Empty_symbol_table.

Lemma empty_symbol_table_is_warning_witness :
  analyzeBinarySymbolTable "app"
    (withBinary (elfOf []) (twoDeps "example.com/lib" "example.com/util" "v1.2.3" "") cacheWorld)
  = (Some (Err "no symbols found in ELF binary"), [EvOpen "app"]) /\
  exists report,
    value (ProcessBinary (H := noRendering) "app")
      (withBinary (elfOf []) (twoDeps "example.com/lib" "example.com/util" "v1.2.3" "")
         cacheWorld)
    = Some report /\
    Permutation (List.map Size report) [0; 1507; 0] /\
    descending report.
Proof.
  destruct (empty_symbol_table_is_warning (H := noRendering) "app"
              (withBinary (elfOf []) (twoDeps "example.com/lib" "example.com/util" "v1.2.3" "")
                 cacheWorld)
              (elfOf []) _ "ELF" eq_refl eq_refl) as [Hanalyze Hreport].
  split; [exact Hanalyze|].
  destruct (Hreport _ eq_refl) as (report & t & Hrun & Hperm & Hdesc & _).
  exists report. unfold value. rewrite Hrun.
  split; [reflexivity|]. split; [|exact Hdesc].
  apply (Permutation_map Size) in Hperm. exact Hperm.
Defined.

(** C3 as stated does not hold: for an ELF binary without symbol records
    the analysis returns an error, not an empty map. *)
Lemma empty_symbol_table_is_error :
  analyzeBinarySymbolTable "app" (withBinary (elfOf []) (twoDeps "a" "b" "" "") bareWorld)
  = (Some (Err "no symbols found in ELF binary"), [EvOpen "app"]) /\
  ~ (exists pkgSizes,
        value (analyzeBinarySymbolTable "app")
              (withBinary (elfOf []) (twoDeps "a" "b" "" "") bareWorld)
        = Some (Ok pkgSizes)).
Proof.
  split; [reflexivity|]. intros [pkgSizes Hok]. vm_compute in Hok. discriminate.
Qed.

(** ** Names in a report *)

Section Report_names.
Context `{Humanize}.

Lemma depEntries_names pkgSizes deps w : forall entries t,
  depEntries pkgSizes deps w = (Some entries, t) ->
  List.map Name entries = List.map mod_Path (omap id deps).
Proof.
  induction deps as [|[dep|] rest IH]; intros entries t Hrun; cbn in Hrun.
  - injection Hrun as <- _. reflexivity.
  - apply bind_inv in Hrun as (size & t1 & t2 & _ & Hrun & _).
    apply bind_inv in Hrun as (more & t3 & t4 & Hmore & Hrun & _).
    injection Hrun as <- _. cbn. f_equal. exact (IH _ _ Hmore).
  - exact (IH _ _ Hrun).
Qed.

(** The names of a report are the module paths of the build information,
    one entry for each record: nothing merges two records of one path. *)
Lemma ProcessBinary_names binaryPath w report t :
  ProcessBinary binaryPath w = (Some report, t) ->
  exists info,
    buildinfo_ReadFile w binaryPath = Ok info /\
    Permutation (List.map Name report) (provenancePaths info).
Proof.
  unfold ProcessBinary. intros Hrun.
  apply bind_inv in Hrun as ([info|err] & t1 & t2 & Hinfo & Hrun & _); [|discriminate].
  exists info. split; [injection Hinfo as <- _; reflexivity|].
  apply bind_inv in Hrun as (r & ? & ? & _ & Hrun & _).
  apply bind_inv in Hrun as (pkgSizes & ? & ? & _ & Hrun & _).
  apply bind_inv in Hrun as (modules & ? & ? & Hmodules & Hrun & _).
  apply bind_inv in Hrun as (deps & ? & ? & Hdeps & Hrun & _).
  injection Hrun as <- _.
  rewrite sort_Slice_Permutation, map_app. unfold provenancePaths.
  rewrite (depEntries_names _ _ _ _ _ Hdeps).
  apply Permutation_app_tail.
  destruct (negb (String.eqb (mod_Path (bi_Main info)) "")).
  - apply bind_inv in Hmodules as (size & ? & ? & _ & Hmodules & _).
    injection Hmodules as <- _. reflexivity.
  - injection Hmodules as <- _. reflexivity.
Qed.

End Report_names.

(** C4 fails on the code.  Build information that lists one module path
    twice gives a report with two entries of that name, and [Process]
    keeps an entry of each of its two sources under the same name. *)
Theorem ProcessBinary_repeats_names :
  (exists report,
      value (ProcessBinary (H := noRendering) "app")
            (withBinary (elfOf [])
               (twoDeps "example.com/lib" "example.com/lib" "v1.0.0" "v1.1.0") bareWorld)
      = Some report /\
      List.map Name report = ["example.com/app"; "example.com/lib"; "example.com/lib"] /\
      ~ NoDup (List.map Name report)) /\
  List.map Name (Process_assemble [entry "fmt" 10] [entry "fmt" 20]) = ["fmt"; "fmt"].
Proof.
  split; [|reflexivity].
  eexists. split; [vm_compute; reflexivity|]. split; [reflexivity|].
  intros Hnodup. apply NoDup_cons in Hnodup as [_ Hnodup].
  apply NoDup_cons in Hnodup as [Hnotin _].
  apply Hnotin. left.
Qed.

(** ** Rounding in [float64] *)

(** The arithmetic of [float64.of_Z], [float64.mul] and [float64.div]
    on positive numbers of moderate size, as far as the average of the
    proportional estimate needs it. *)

(** [digits2_pos p] is the number of bits of [p]. *)
Lemma digits2_pos_bounds p :
  2 ^ (Z.pos (digits2_pos p) - 1) <= Z.pos p < 2 ^ Z.pos (digits2_pos p).
Proof.
  induction p as [p IH|p IH|]; cbn [digits2_pos].
  - rewrite Pos2Z.inj_succ.
    replace (Z.succ (Z.pos (digits2_pos p)) - 1) with (Z.succ (Z.pos (digits2_pos p) - 1)) by lia.
    rewrite !Z.pow_succ_r by lia. rewrite (Pos2Z.inj_xI p). lia.
  - rewrite Pos2Z.inj_succ.
    replace (Z.succ (Z.pos (digits2_pos p)) - 1) with (Z.succ (Z.pos (digits2_pos p) - 1)) by lia.
    rewrite !Z.pow_succ_r by lia. rewrite (Pos2Z.inj_xO p). lia.
  - cbn. lia.
Qed.

Lemma digits2_pos_le p d : Z.pos p < 2 ^ d -> Z.pos (digits2_pos p) <= d.
Proof.
  intros Hlt. pose proof (digits2_pos_bounds p) as [Hlow _].
  destruct (Z_le_gt_dec (Z.pos (digits2_pos p)) d) as [|Hgt]; [assumption|].
  assert (0 <= d) by (destruct d as [|q|q]; [lia | lia | rewrite Z.pow_neg_r in Hlt; lia]).
  pose proof (Z.pow_le_mono_r 2 d (Z.pos (digits2_pos p) - 1) ltac:(lia) ltac:(lia)). lia.
Qed.

Lemma digits2_pos_ge p d : 2 ^ (d - 1) <= Z.pos p -> d <= Z.pos (digits2_pos p).
Proof.
  intros Hle. pose proof (digits2_pos_bounds p) as [_ Hup].
  destruct (Z_le_gt_dec d (Z.pos (digits2_pos p))) as [|Hgt]; [assumption|].
  pose proof (Z.pow_le_mono_r 2 (Z.pos (digits2_pos p)) (d - 1) ltac:(lia) ltac:(lia)). lia.
Qed.

(** Shifting right divides the mantissa by two, whatever is recorded of
    the bits that fall out. *)
Lemma shr_1_m mrs : 0 <= shr_m mrs -> shr_m (shr_1 mrs) = shr_m mrs / 2.
Proof.
  destruct mrs as [m r s]. cbn [shr_m]. intros Hm.
  destruct m as [|[p|p|]|p]; cbn [shr_1 shr_m]; try reflexivity; try lia.
  - apply Z.div_unique with (r := 1); lia.
  - apply Z.div_unique with (r := 0); lia.
Qed.

Lemma iter_pos_shr_m p : forall mrs,
  0 <= shr_m mrs -> shr_m (SpecFloat.iter_pos shr_1 p mrs) = shr_m mrs / 2 ^ Z.pos p.
Proof.
  induction p as [p IH|p IH|]; intros mrs Hm; cbn [SpecFloat.iter_pos].
  - assert (H1 : 0 <= shr_m (shr_1 mrs)) by (rewrite shr_1_m by lia; apply Z.div_pos; lia).
    assert (H2 : 0 <= shr_m (SpecFloat.iter_pos shr_1 p (shr_1 mrs)))
      by (rewrite IH by lia; apply Z.div_pos; lia).
    rewrite IH by lia. rewrite IH by lia. rewrite shr_1_m by lia.
    rewrite !Z.div_div by lia. f_equal.
    rewrite (Pos2Z.inj_xI p).
    replace (2 * Z.pos p + 1) with (1 + Z.pos p + Z.pos p) by lia.
    rewrite !Z.pow_add_r by lia. lia.
  - assert (H2 : 0 <= shr_m (SpecFloat.iter_pos shr_1 p mrs))
      by (rewrite IH by lia; apply Z.div_pos; lia).
    rewrite IH by lia. rewrite IH by lia.
    rewrite !Z.div_div by lia. f_equal.
    rewrite (Pos2Z.inj_xO p).
    replace (2 * Z.pos p) with (Z.pos p + Z.pos p) by lia.
    rewrite !Z.pow_add_r by lia. lia.
  - rewrite shr_1_m by lia. reflexivity.
Qed.

Lemma shr_record_of_loc_m m l : shr_m (shr_record_of_loc m l) = m.
Proof. destruct l as [|[]]; reflexivity. Qed.

Lemma round_nearest_even_cases m l :
  round_nearest_even m l = m \/ round_nearest_even m l = m + 1.
Proof. destruct l as [|[]]; cbn; auto. destruct (Z.even m); auto. Qed.

(** One shift to the precision of [float64], away from the subnormal
    range. *)
Lemma shr_fexp_m m e l :
  0 < m -> -1074 <= e ->
  exists mrs,
    shr_fexp float64.prec float64.emax m e l = (mrs, e + Z.max (Zdigits2 m - 53) 0) /\
    shr_m mrs = m / 2 ^ Z.max (Zdigits2 m - 53) 0 /\
    (Zdigits2 m <= 53 -> mrs = shr_record_of_loc m l).
Proof.
  intros Hm He. unfold shr_fexp, fexp, emin, float64.prec, float64.emax, shr.
  destruct (Z_le_gt_dec (Zdigits2 m) 53) as [Hd|Hd].
  - replace (Z.max (Zdigits2 m - 53) 0) with 0 by lia.
    exists (shr_record_of_loc m l).
    destruct (Z.max (Zdigits2 m + e - 53) (3 - 1024 - 53) - e) eqn:Hs; try lia.
    + rewrite Z.add_0_r, shr_record_of_loc_m, Z.div_1_r. auto.
    + rewrite Z.add_0_r, shr_record_of_loc_m, Z.div_1_r. auto.
  - replace (Z.max (Zdigits2 m - 53) 0) with (Zdigits2 m - 53) by lia.
    replace (Z.max (Zdigits2 m + e - 53) (3 - 1024 - 53) - e) with (Zdigits2 m - 53) by lia.
    destruct (Zdigits2 m - 53) as [|p|p] eqn:Hs; try lia.
    eexists. split; [reflexivity|]. split; [|lia].
    rewrite iter_pos_shr_m by (rewrite shr_record_of_loc_m; lia).
    rewrite shr_record_of_loc_m. reflexivity.
Qed.

Lemma Zdigits2_pos m : 0 < m -> 2 ^ (Zdigits2 m - 1) <= m < 2 ^ Zdigits2 m.
Proof. destruct m as [|p|p]; try lia. intros _. apply digits2_pos_bounds. Qed.

Lemma Zdigits2_le m d : 0 < m -> m < 2 ^ d -> Zdigits2 m <= d.
Proof. destruct m as [|p|p]; try lia. intros _. apply digits2_pos_le. Qed.

Lemma Zdigits2_ge m d : 0 < m -> 2 ^ (d - 1) <= m -> d <= Zdigits2 m.
Proof. destruct m as [|p|p]; try lia. intros _. apply digits2_pos_ge. Qed.

(** What the shift leaves of a number of more than 53 bits has 53 bits. *)
Lemma shifted_53_bits m :
  0 < m ->
  0 < m / 2 ^ Z.max (Zdigits2 m - 53) 0 < 2 ^ 53 /\
  (2 ^ 52 <= m -> 2 ^ 52 <= m / 2 ^ Z.max (Zdigits2 m - 53) 0).
Proof.
  intros Hm. pose proof (Zdigits2_pos m Hm) as [Hlow Hup].
  destruct (Z_le_gt_dec (Zdigits2 m) 53) as [Hd|Hd].
  - replace (Z.max (Zdigits2 m - 53) 0) with 0 by lia.
    rewrite Z.pow_0_r, Z.div_1_r.
    pose proof (Z.pow_le_mono_r 2 (Zdigits2 m) 53 ltac:(lia) Hd). lia.
  - replace (Z.max (Zdigits2 m - 53) 0) with (Zdigits2 m - 53) by lia.
    assert (Hpos : 0 < 2 ^ (Zdigits2 m - 53)) by (apply Z.pow_pos_nonneg; lia).
    assert (Hlow' : 2 ^ (Zdigits2 m - 53) * 2 ^ 52 <= m).
    { rewrite <- Z.pow_add_r by lia.
      replace (Zdigits2 m - 53 + 52) with (Zdigits2 m - 1) by lia. exact Hlow. }
    assert (Hup' : m < 2 ^ (Zdigits2 m - 53) * 2 ^ 53).
    { rewrite <- Z.pow_add_r by lia.
      replace (Zdigits2 m - 53 + 53) with (Zdigits2 m) by lia. exact Hup. }
    assert (H52 : 2 ^ 52 <= m / 2 ^ (Zdigits2 m - 53))
      by (apply Z.div_le_lower_bound; [exact Hpos | exact Hlow']).
    split; [split|].
    + lia.
    + apply Z.div_lt_upper_bound; [exact Hpos | exact Hup'].
    + intros _. exact H52.
Qed.

(** Rounding a positive number [m * 2^e] and its location to a
    [float64], away from the subnormal range and from overflow: the
    result is [mR * 2^(e+k)] with [mR] the number shifted by [k] bits, or
    the next one. *)
Lemma binary_round_aux_pos m e l :
  0 < m -> -1074 <= e -> e + Z.max (Zdigits2 m - 53) 0 + 1 <= 971 ->
  exists mR k,
    binary_round_aux float64.prec float64.emax false m e l = S754_finite false mR (e + k) /\
    0 <= k <= Z.max (Zdigits2 m - 53) 0 + 1 /\
    (Z.pos mR = m / 2 ^ k \/ Z.pos mR = m / 2 ^ k + 1) /\
    (2 ^ 52 <= m -> 2 ^ 52 <= Z.pos mR) /\
    Z.pos mR < 2 ^ 53 /\
    (l = loc_Exact -> m < 2 ^ 53 -> Z.pos mR = m /\ k = 0).
Proof.
  intros Hm He Hmax. unfold binary_round_aux.
  destruct (shr_fexp_m m e l Hm He) as (mrs1 & Hs1 & Hm1 & Hrec1). rewrite Hs1.
  destruct (shifted_53_bits m Hm) as [[Hpos1 Hlt1] Hge1].
  set (n := Z.max (Zdigits2 m - 53) 0) in *.
  set (m1 := round_nearest_even (shr_m mrs1) (loc_of_shr_record mrs1)).
  assert (Hm1' : m1 = m / 2 ^ n \/ m1 = m / 2 ^ n + 1)
    by (unfold m1; rewrite <- Hm1; apply round_nearest_even_cases).
  assert (Hm1pos : 0 < m1) by lia.
  assert (Hexact : l = loc_Exact -> m < 2 ^ 53 -> m1 = m /\ n = 0).
  { intros -> Hm53. pose proof (Zdigits2_le m 53 Hm Hm53) as Hd.
    unfold m1. rewrite (Hrec1 Hd). cbn. lia. }
  clearbody m1.
  destruct (shr_fexp_m m1 (e + n) loc_Exact Hm1pos ltac:(lia)) as (mrs2 & Hs2 & Hm2 & Hrec2).
  rewrite Hs2.
  destruct (Z_lt_ge_dec m1 (2 ^ 53)) as [Hsmall|Hbig].
  - pose proof (Zdigits2_le m1 53 Hm1pos Hsmall) as Hd1.
    replace (Z.max (Zdigits2 m1 - 53) 0) with 0 in * by lia.
    rewrite Z.pow_0_r, Z.div_1_r in Hm2. rewrite Hm2.
    destruct m1 as [|p1|p1]; try lia.
    replace (e + n + 0 <=? float64.emax - float64.prec) with true
      by (symmetry; apply Z.leb_le; unfold float64.emax, float64.prec; lia).
    exists p1, n. rewrite Z.add_0_r. split; [reflexivity|].
    split; [lia|]. split; [exact Hm1'|]. split; [lia|]. split; [lia|].
    intros Hl Hm53. destruct (Hexact Hl Hm53) as [Heq Hn]. split; [lia | exact Hn].
  - assert (Hm1eq : m1 = 2 ^ 53) by lia.
    assert (Hd1 : Zdigits2 m1 = 54).
    { apply Z.le_antisymm.
      - apply Zdigits2_le; [exact Hm1pos|]. rewrite Hm1eq. reflexivity.
      - apply Zdigits2_ge; [exact Hm1pos|]. rewrite Hm1eq. reflexivity. }
    rewrite Hd1 in *. change (Z.max (54 - 53) 0) with 1 in *.
    rewrite Hm1eq in Hm2. change (2 ^ 53 / 2 ^ 1) with (Z.pos (2 ^ 52)) in Hm2. rewrite Hm2.
    replace (e + n + 1 <=? float64.emax - float64.prec) with true
      by (symmetry; apply Z.leb_le; unfold float64.emax, float64.prec; lia).
    exists (2 ^ 52)%positive, (n + 1). rewrite Z.add_assoc. split; [reflexivity|].
    assert (Hdiv : m / 2 ^ (n + 1) = 2 ^ 52 - 1).
    { rewrite Z.pow_add_r by lia. rewrite <- Z.div_div by lia.
      replace (m / 2 ^ n) with (2 ^ 53 - 1) by lia. reflexivity. }
    split; [lia|]. split; [right; rewrite Hdiv; reflexivity|].
    split; [intros _; reflexivity|]. split; [reflexivity|].
    intros Hl Hm53. destruct (Hexact Hl Hm53) as [Heq Hn]. lia.
Qed.

Lemma iter_xO p j : Z.pos (Pos.iter xO p j) = Z.pos p * 2 ^ Z.pos j.
Proof.
  induction j as [|j IH] using Pos.peano_ind.
  - cbn [Pos.iter]. rewrite (Pos2Z.inj_xO p). change (2 ^ 1) with 2. lia.
  - rewrite Pos.iter_succ, Pos2Z.inj_xO, IH, Pos2Z.inj_succ, Z.pow_succ_r by lia. lia.
Qed.

(** [float64(z)] is exact for [0 < z < 2^53]: the mantissa is [z] moved
    up to 53 bits. *)
Lemma of_Z_exact z :
  0 < z < 2 ^ 53 ->
  exists mz j,
    float64.of_Z z = S754_finite false mz (- j) /\
    0 <= j <= 52 /\ Z.pos mz = z * 2 ^ j /\ 2 ^ 52 <= Z.pos mz < 2 ^ 53.
Proof.
  intros [Hpos Hlt]. destruct z as [|p|p]; try lia.
  pose proof (digits2_pos_bounds p) as [Hlow Hup].
  pose proof (digits2_pos_le p 53 Hlt) as Hd.
  unfold float64.of_Z, binary_normalize, binary_round, shl_align, fexp, emin,
    float64.prec, float64.emax.
  set (d := Z.pos (digits2_pos p)) in *.
  replace (Z.max (d + 0 - 53) (3 - 1024 - 53)) with (d - 53) by lia.
  assert (Hshape : forall mz j,
             0 <= j <= 52 -> Z.pos mz = Z.pos p * 2 ^ j -> j = 53 - d ->
             exists mz' j',
               binary_round_aux 53 1024 false (Z.pos mz) (- j) loc_Exact
               = S754_finite false mz' (- j') /\
               0 <= j' <= 52 /\ Z.pos mz' = Z.pos p * 2 ^ j' /\
               2 ^ 52 <= Z.pos mz' < 2 ^ 53).
  { intros mz j Hj Hmz Hjd.
    assert (Hmzlow : 2 ^ 52 <= Z.pos mz).
    { rewrite Hmz. replace 52 with ((d - 1) + j) by lia.
      rewrite Z.pow_add_r by lia.
      apply Z.mul_le_mono_nonneg_r; [apply Z.pow_nonneg; lia | exact Hlow]. }
    assert (Hmzup : Z.pos mz < 2 ^ 53).
    { rewrite Hmz. replace 53 with (d + j) by lia.
      rewrite Z.pow_add_r by lia.
      apply Z.mul_lt_mono_pos_r; [apply Z.pow_pos_nonneg; lia | exact Hup]. }
    pose proof (Zdigits2_le (Z.pos mz) 53 ltac:(lia) Hmzup) as Hdz.
    destruct (binary_round_aux_pos (Z.pos mz) (- j) loc_Exact ltac:(lia) ltac:(lia) ltac:(lia))
      as (mR & k & Hround & _ & _ & _ & _ & Hexact).
    destruct (Hexact eq_refl Hmzup) as [HmR ->].
    exists mR, j. rewrite Z.add_0_r in Hround. split; [exact Hround|].
    split; [exact Hj|]. rewrite HmR. split; [exact Hmz | lia]. }
  destruct (d - 53 - 0) as [|q|q] eqn:Hs; try lia.
  - destruct (Hshape p 0 ltac:(lia) ltac:(rewrite Z.pow_0_r; lia) ltac:(lia))
      as (mz' & j' & Hr & Hrest).
    exists mz', j'. split; [exact Hr | exact Hrest].
  - destruct (Hshape (Pos.iter xO p q) (Z.pos q) ltac:(lia) (iter_xO p q) ltac:(lia))
      as (mz' & j' & Hr & Hrest).
    exists mz', j'. replace (d - 53) with (- Z.pos q) by lia.
    split; [exact Hr | exact Hrest].
Qed.
(** A mantissa [mR] that is [m] shifted by [t = 2^k], or the next one,
    and has 53 bits, is within one part in [2^52] of [m]. *)
Lemma rounded_rel m t mR :
  0 < t -> (mR = m / t \/ mR = m / t + 1) -> 2 ^ 52 <= mR ->
  2 ^ 52 * t <= mR * t /\
  (2 ^ 52 - 1) * (mR * t) <= 2 ^ 52 * m /\ 2 ^ 52 * m < (2 ^ 52 + 1) * (mR * t).
Proof.
  intros Ht HmR Hbig.
  pose proof (Z.mul_div_le m t Ht) as Hlow.
  pose proof (Z.mul_succ_div_gt m t Ht) as Hup.
  pose proof (Z.mul_le_mono_nonneg_r _ _ t ltac:(lia) Hbig) as Ht52.
  destruct HmR as [-> | ->]; lia.
Qed.

(** The two roundings of the product and of the quotient, put together:
    [V] is the rounded product [s * 0.7] and [W] the rounded quotient
    [V / n], both scaled to whole numbers. *)
Lemma avg_arith s n a b t1 V q W :
  0 < s < 2 ^ 48 -> 0 < n -> 0 < a -> 0 < b -> 0 < t1 ->
  (2 ^ 52 - 1) * V <= 2 ^ 52 * (s * a * 6305039478318694) ->
  2 ^ 52 * (s * a * 6305039478318694) < (2 ^ 52 + 1) * V ->
  q * (n * b) * t1 <= V * 2 ^ 53 ->
  V * 2 ^ 53 < (q + 1) * (n * b) * t1 ->
  (2 ^ 52 - 1) * W <= 2 ^ 52 * q ->
  2 ^ 52 * q < (2 ^ 52 + 1) * W ->
  2 ^ 52 <= W ->
  7 * s / (10 * n) - 1 <= (W * (t1 * b)) / (2 ^ 106 * a) <= 7 * s / (10 * n).
Proof.
  intros Hs Hn Ha Hb Ht1 HV1 HV2 Hq1 Hq2 HW1 HW2 HW3.
  pose proof (Z.mul_div_le (7 * s) (10 * n) ltac:(lia)) as HK1.
  pose proof (Z.mul_succ_div_gt (7 * s) (10 * n) ltac:(lia)) as HK2.
  set (K := 7 * s / (10 * n)) in *.
  assert (HK0 : 0 <= K) by (apply Z.div_pos; lia).
  assert (HG : 0 < n * b * t1) by (repeat apply Z.mul_pos_pos; lia).
  pose proof (Z.mul_le_mono_nonneg_r _ _ (n * b * t1) ltac:(lia) HW1) as P1.
  assert (HW4 : 2 ^ 52 * (q + 1) <= (2 ^ 52 + 2) * W) by lia.
  pose proof (Z.mul_le_mono_nonneg_r _ _ (n * b * t1) ltac:(lia) HW4) as P2.
  pose proof (Z.mul_lt_mono_pos_r a s (2 ^ 48) Ha) as [Hsa _].
  specialize (Hsa ltac:(lia)).
  pose proof (Z.mul_le_mono_nonneg_r 1 n a ltac:(lia) ltac:(lia)) as Hna.
  assert (HX0 : 0 <= W * (t1 * b)) by (apply Z.mul_nonneg_nonneg; [lia|apply Z.mul_nonneg_nonneg; lia]).
  split.
  - destruct (Z_lt_ge_dec K 2) as [HKs|HKb].
    + pose proof (Z.div_pos (W * (t1 * b)) (2 ^ 106 * a) HX0 ltac:(lia)). lia.
    + apply Z.div_le_lower_bound; [lia|].
      destruct (Z_le_gt_dec (2 ^ 106 * a * (K - 1)) (W * (t1 * b))) as [|Hgt]; [assumption|exfalso].
      assert (Hgt' : W * (t1 * b) * n < 2 ^ 106 * a * (K - 1) * n)
        by (apply Z.mul_lt_mono_pos_r; lia).
      pose proof (Z.mul_le_mono_nonneg_r _ _ (2 ^ 106 * a) ltac:(lia) HK1) as HK1'.
      lia.
  - assert (Hlt : W * (t1 * b) / (2 ^ 106 * a) < K + 1); [|lia].
    apply Z.div_lt_upper_bound; [lia|].
    destruct (Z_lt_ge_dec (W * (t1 * b)) (2 ^ 106 * a * (K + 1))) as [|Hge]; [assumption|exfalso].
    pose proof (Z.mul_le_mono_nonneg_r _ _ n ltac:(lia) (proj1 (Z.ge_le_iff _ _) Hge)) as Hge'.
    assert (HK2' : (7 * s + 1) * (2 ^ 106 * a) <= 10 * n * Z.succ K * (2 ^ 106 * a))
      by (apply Z.mul_le_mono_nonneg_r; lia).
    lia.
Qed.

(** The quotient that [float64.div] rounds, for two mantissas of 53 bits. *)
Lemma SFdiv_core_53 m1 e1 m2 e2 :
  2 ^ 52 <= Z.pos m1 < 2 ^ 53 -> 2 ^ 52 <= Z.pos m2 < 2 ^ 53 -> -1074 <= e1 - e2 - 53 ->
  exists l,
    SFdiv_core_binary float64.prec float64.emax (Z.pos m1) e1 (Z.pos m2) e2
    = (Z.pos m1 * 2 ^ 53 / Z.pos m2, e1 - e2 - 53, l).
Proof.
  intros H1 H2 He.
  assert (Hd1 : Z.pos (digits2_pos m1) = 53)
    by (apply Z.le_antisymm; [apply digits2_pos_le | apply digits2_pos_ge]; lia).
  assert (Hd2 : Z.pos (digits2_pos m2) = 53)
    by (apply Z.le_antisymm; [apply digits2_pos_le | apply digits2_pos_ge]; lia).
  unfold SFdiv_core_binary, fexp, emin, float64.prec, float64.emax. cbn [Zdigits2].
  rewrite Hd1, Hd2.
  replace (Z.min (Z.max (53 + e1 - (53 + e2) - 53) (3 - 1024 - 53)) (e1 - e2))
    with (e1 - e2 - 53) by lia.
  replace (e1 - e2 - (e1 - e2 - 53)) with 53 by lia. cbv iota beta.
  rewrite Z.shiftl_mul_pow2 by lia.
  unfold Z.div.
  destruct (Z.div_eucl (Z.pos m1 * 2 ^ 53) (Z.pos m2)) as [q r].
  eexists. reflexivity.
Qed.

(** What [float64.to_uint64] keeps of [m * 2^(E-F)]. *)
Lemma shiftl_fraction m E F :
  0 <= E -> 0 <= F -> Z.shiftl m (E - F) = m * 2 ^ E / 2 ^ F.
Proof.
  intros HE HF.
  assert (HpE : 0 < 2 ^ E) by (apply Z.pow_pos_nonneg; lia).
  assert (HpF : 0 < 2 ^ F) by (apply Z.pow_pos_nonneg; lia).
  destruct (Z_le_gt_dec F E) as [Hle|Hgt].
  - rewrite Z.shiftl_mul_pow2 by lia.
    replace E with ((E - F) + F) at 2 by lia.
    rewrite Z.pow_add_r, Z.mul_assoc, Z.div_mul by lia. reflexivity.
  - rewrite Z.shiftl_div_pow2 by lia.
    replace F with ((- (E - F)) + E) at 2 by lia.
    rewrite Z.pow_add_r by lia.
    rewrite Z.div_mul_cancel_r by lia. reflexivity.
Qed.

(** The average of the proportional estimate against the quotient
    [0.7 * size / n] of the reals: the whole part of it, or one less. *)
Lemma avgSymbolSize_bounds size n :
  0 <= size < 2 ^ 48 -> 0 < n < 2 ^ 53 ->
  7 * size / (10 * n) - 1 <= avgSymbolSize size n <= 7 * size / (10 * n).
Proof.
  intros Hsize Hn.
  destruct (of_Z_exact n Hn) as (mN & jN & HN & HjN & HmN & HmNr).
  unfold avgSymbolSize. rewrite HN.
  destruct (Z.eq_dec size 0) as [->|Hnz].
  - replace (7 * 0 / (10 * n)) with 0 by reflexivity. cbn. lia.
  - destruct (of_Z_exact size ltac:(lia)) as (mA & jA & HA & HjA & HmA & HmAr).
    rewrite HA. unfold float64.mul, codeRatio, SFmul. cbn [xorb].
    assert (Hprod : Z.pos (mA * 6305039478318694) = size * 2 ^ jA * 6305039478318694)
      by (rewrite Pos2Z.inj_mul, HmA; reflexivity).
    assert (Hprodlow : 2 ^ 52 <= Z.pos (mA * 6305039478318694))
      by (rewrite Pos2Z.inj_mul; lia).
    assert (Hprodup : Z.pos (mA * 6305039478318694) < 2 ^ 106)
      by (rewrite Pos2Z.inj_mul; lia).
    pose proof (Zdigits2_le (Z.pos (mA * 6305039478318694)) 106 ltac:(lia) Hprodup) as Hdprod.
    destruct (binary_round_aux_pos (Z.pos (mA * 6305039478318694)) (- jA + -53) loc_Exact
                ltac:(lia) ltac:(lia) ltac:(lia))
      as (mP & k1 & HP & Hk1 & HmP & HmPlow & HmPup & _).
    specialize (HmPlow Hprodlow).
    rewrite HP. unfold float64.div, SFdiv. cbn [xorb].
    destruct (SFdiv_core_53 mP (- jA + -53 + k1) mN (- jN) ltac:(lia) HmNr ltac:(lia))
      as (l & Hcore).
    rewrite Hcore.
    set (q := Z.pos mP * 2 ^ 53 / Z.pos mN) in *.
    assert (Hqlow : 2 ^ 52 <= q) by (apply Z.div_le_lower_bound; lia).
    assert (Hqup : q < 2 ^ 54) by (apply Z.div_lt_upper_bound; lia).
    pose proof (Zdigits2_le q 54 ltac:(lia) Hqup) as Hdq.
    destruct (binary_round_aux_pos q (- jA + -53 + k1 - - jN - 53) l
                ltac:(lia) ltac:(lia) ltac:(lia))
      as (mD & k2 & HD & Hk2 & HmD & HmDlow & HmDup & _).
    specialize (HmDlow Hqlow).
    rewrite HD. unfold float64.to_uint64.
    replace (- jA + -53 + k1 - - jN - 53 + k2) with ((k1 + k2 + jN) - (jA + 106)) by lia.
    rewrite shiftl_fraction by lia.
    assert (Ha : 0 < 2 ^ jA) by (apply Z.pow_pos_nonneg; lia).
    assert (Hb : 0 < 2 ^ jN) by (apply Z.pow_pos_nonneg; lia).
    assert (Ht1 : 0 < 2 ^ k1) by (apply Z.pow_pos_nonneg; lia).
    assert (Ht2 : 0 < 2 ^ k2) by (apply Z.pow_pos_nonneg; lia).
    destruct (rounded_rel _ _ _ Ht1 HmP HmPlow) as (_ & HV1 & HV2).
    destruct (rounded_rel _ _ _ Ht2 HmD HmDlow) as (HW3 & HW1 & HW2).
    rewrite Hprod in HV1, HV2.
    pose proof (Z.mul_div_le (Z.pos mP * 2 ^ 53) (Z.pos mN) ltac:(lia)) as Hq1.
    pose proof (Z.mul_succ_div_gt (Z.pos mP * 2 ^ 53) (Z.pos mN) ltac:(lia)) as Hq2.
    fold q in Hq1, Hq2. rewrite HmN in Hq1, Hq2.
    pose proof (Z.mul_le_mono_nonneg_r _ _ (2 ^ k1) ltac:(lia) Hq1) as Hq1'.
    assert (Hq2' : Z.pos mP * 2 ^ 53 * 2 ^ k1 < n * 2 ^ jN * Z.succ q * 2 ^ k1)
      by (apply Z.mul_lt_mono_pos_r; lia).
    pose proof (avg_arith size n (2 ^ jA) (2 ^ jN) (2 ^ k1) (Z.pos mP * 2 ^ k1) q
                  (Z.pos mD * 2 ^ k2)
                  ltac:(lia) ltac:(lia) Ha Hb Ht1 HV1 HV2 ltac:(lia) ltac:(lia) HW1 HW2
                  ltac:(lia)) as Hbounds.
    replace (Z.pos mD * 2 ^ (k1 + k2 + jN) / 2 ^ (jA + 106))
      with (Z.pos mD * 2 ^ k2 * (2 ^ k1 * 2 ^ jN) / (2 ^ 106 * 2 ^ jA)).
    2:{ rewrite !Z.pow_add_r by lia. f_equal; ring. }
    assert (HK : 7 * size / (10 * n) < 2 ^ 64).
    { apply Z.div_lt_upper_bound; lia. }
    unfold u64. rewrite Z.mod_small; [exact Hbounds|].
    split; [|lia].
    apply Z.div_pos; [|lia].
    apply Z.mul_nonneg_nonneg; [lia|]. lia.
Qed.

(** ** The proportional estimate *)

Lemma sumMapValues_zero (m : gmap string Z) :
  (forall pkg size, m !! pkg = Some size -> size = 0) -> sumMapValues m = 0.
Proof.
  unfold sumMapValues.
  apply (map_fold_weak_ind
           (fun sum m => (forall pkg size, m !! pkg = Some size -> size = 0) -> sum = 0)).
  - reflexivity.
  - intros pkg size m' sum Hfresh IH Hall.
    rewrite (Hall pkg size) by apply lookup_insert_eq.
    rewrite IH; [reflexivity|].
    intros pkg' size' Hlook. apply (Hall pkg').
    rewrite lookup_insert_ne; [exact Hlook|]. intros ->. congruence.
Qed.

Lemma symbolCount_cons pkg sym symbols :
  symbolCount pkg (sym :: symbols)
  = (if String.eqb (sym_Package sym) pkg then 1 else 0) + symbolCount pkg symbols.
Proof.
  unfold symbolCount. cbn. destruct (String.eqb (sym_Package sym) pkg); cbn; lia.
Qed.

Lemma symbolCount_nonneg pkg symbols : 0 <= symbolCount pkg symbols.
Proof. unfold symbolCount. lia. Qed.

Lemma countSymbols_from symbols : forall (counts : gmap string Z) pkg,
  fold_left (fun counts sym =>
               <[sym_Package sym := default 0 (counts !! sym_Package sym) + 1]> counts)
            symbols counts !! pkg
  = match counts !! pkg with
    | Some n => Some (n + symbolCount pkg symbols)
    | None => if symbolCount pkg symbols =? 0 then None else Some (symbolCount pkg symbols)
    end.
Proof.
  induction symbols as [|sym symbols IH]; intros counts pkg.
  - cbn. destruct (counts !! pkg); [f_equal; unfold symbolCount; cbn; lia | reflexivity].
  - cbn [fold_left]. rewrite IH, symbolCount_cons.
    pose proof (symbolCount_nonneg pkg symbols) as Hnn.
    destruct (String.eqb_spec (sym_Package sym) pkg) as [->|Hne].
    + rewrite lookup_insert_eq. destruct (counts !! pkg); cbn.
      * f_equal. lia.
      * destruct (Z.eqb_spec (1 + symbolCount pkg symbols) 0); [lia | f_equal; lia].
    + rewrite lookup_insert_ne by exact Hne. rewrite Z.add_0_l. reflexivity.
Qed.

Lemma countSymbols_lookup symbols pkg :
  countSymbols symbols !! pkg
  = if symbolCount pkg symbols =? 0 then None else Some (symbolCount pkg symbols).
Proof. unfold countSymbols. rewrite countSymbols_from, lookup_empty. reflexivity. Qed.

Lemma addSymbolSizes_from symbols : forall (sizes : gmap string Z) pkg,
  symbolCount pkg symbols = 0 ->
  fold_left (fun pkgSizes sym =>
               <[sym_Package sym :=
                   u64add (default 0 (pkgSizes !! sym_Package sym)) (sym_Size sym)]> pkgSizes)
            symbols sizes !! pkg
  = sizes !! pkg.
Proof.
  induction symbols as [|sym symbols IH]; intros sizes pkg Hcount; [reflexivity|].
  rewrite symbolCount_cons in Hcount.
  pose proof (symbolCount_nonneg pkg symbols) as Hnn.
  cbn [fold_left]. destruct (String.eqb_spec (sym_Package sym) pkg) as [->|Hne]; [lia|].
  rewrite IH by lia. apply lookup_insert_ne, Hne.
Qed.

Lemma assignEstimates_lookup avg (counts sizes : gmap string Z) pkg :
  assignEstimates avg counts sizes !! pkg
  = match counts !! pkg with
    | Some count => Some (u64mul (u64 count) avg)
    | None => sizes !! pkg
    end.
Proof.
  unfold assignEstimates.
  apply (map_fold_weak_ind
           (fun (r : gmap string Z) (m : gmap string Z) =>
              r !! pkg = match m !! pkg with
                         | Some count => Some (u64mul (u64 count) avg)
                         | None => sizes !! pkg
                         end)).
  - rewrite lookup_empty. reflexivity.
  - intros pkg' count m r Hfresh IH.
    destruct (decide (pkg' = pkg)) as [->|Hne].
    + rewrite !lookup_insert_eq. reflexivity.
    + rewrite !lookup_insert_ne by exact Hne. exact IH.
Qed.

Lemma u64mul_u64 a b : u64mul (u64 a) b = u64 (a * b).
Proof. unfold u64mul, u64. apply Zmult_mod_idemp_l. Qed.

(** C6, as amended.  When the sizes summed per package are all zero and
    the size of the file can be read, every package with a symbol is given
    its number of symbols times the average
    [uint64(float64(fileSize) * 0.7 / float64(numberOfSymbols))], in
    [uint64] arithmetic, and no other package is given anything.  The
    average is cut to a whole number before it is multiplied: for a file of
    less than [2^48] bytes it is the whole part of
    [0.7 * fileSize / numberOfSymbols], or one less.  For two symbols of
    "A", eight of "B" and a file of 1000 bytes the average is 70 and the
    estimates are 140 and 560, 700 together. *)
Theorem proportional_estimate :
  (forall size n,
      0 <= size < 2 ^ 48 -> 0 < n < 2 ^ 53 ->
      7 * size / (10 * n) - 1 <= avgSymbolSize size n <= 7 * size / (10 * n)) /\
  (forall binaryPath symbols archType info w,
      symbols <> [] ->
      (forall pkg size, addSymbolSizes symbols !! pkg = Some size -> size = 0) ->
      os_Stat w binaryPath = Ok info ->
      exists estimates,
        reconcile binaryPath symbols archType w
        = (Some (Ok estimates), [EvStat binaryPath]) /\
        (forall pkg,
            0 < symbolCount pkg symbols ->
            estimates !! pkg
            = Some (u64 (symbolCount pkg symbols
                         * avgSymbolSize (u64 (fi_Size info))
                                         (Z.of_nat (List.length symbols))))) /\
        (forall pkg, symbolCount pkg symbols = 0 -> estimates !! pkg = None)) /\
  (avgSymbolSize 1000 10 = 70 /\
   exists estimates,
     reconcile "app" twoAndEight "ELF" (withFileSize 1000 bareWorld)
     = (Some (Ok estimates), [EvStat "app"]) /\
     estimates !! "A" = Some 140 /\ estimates !! "B" = Some 560 /\
     sumMapValues estimates = 700).
Proof.
  split; [exact avgSymbolSize_bounds | split].
  - intros binaryPath symbols archType info w Hne Hzero Hstat.
    eexists. split; [|split].
    + unfold reconcile.
      destruct symbols as [|sym symbols]; [congruence|].
      replace (Z.of_nat (List.length (sym :: symbols)) =? 0) with false
        by (symmetry; apply Z.eqb_neq; cbn [List.length]; lia).
      replace (0 <? Z.of_nat (List.length (sym :: symbols))) with true
        by (symmetry; apply Z.ltb_lt; cbn [List.length]; lia).
      rewrite (sumMapValues_zero _ Hzero). cbn [Z.eqb].
      unfold bind, Stat, ask. rewrite Hstat. reflexivity.
    + intros pkg Hpos. rewrite assignEstimates_lookup, countSymbols_lookup.
      destruct (Z.eqb_spec (symbolCount pkg symbols) 0); [lia|].
      rewrite u64mul_u64. reflexivity.
    + intros pkg Hnone. rewrite assignEstimates_lookup, countSymbols_lookup, Hnone.
      cbn [Z.eqb]. unfold addSymbolSizes. rewrite addSymbolSizes_from by exact Hnone.
      apply lookup_empty.
  - split; [vm_compute; reflexivity|].
    eexists. split; [vm_compute; reflexivity|].
    repeat split; vm_compute; reflexivity.
Qed.

Lemma proportional_estimate_witness :
  (90 <= avgSymbolSize 1300 10 <= 91) /\
  exists estimates,
    reconcile "app" twoAndEight "ELF" (withFileSize 1000 bareWorld)
    = (Some (Ok estimates), [EvStat "app"]) /\
    estimates !! "A" = Some 140 /\ estimates !! "B" = Some 560 /\
    estimates !! "C" = None.
Proof.
  split.
  - replace 90 with (7 * 1300 / (10 * 10) - 1) by reflexivity.
    replace 91 with (7 * 1300 / (10 * 10)) at 2 by reflexivity.
    apply (proj1 proportional_estimate 1300 10); lia.
  - assert (Hzero : forall pkg size, addSymbolSizes twoAndEight !! pkg = Some size -> size = 0).
    { assert (Hmap : addSymbolSizes twoAndEight = <["A" := 0]> (<["B" := 0]> ∅))
        by (vm_compute; reflexivity).
      intros pkg size. rewrite Hmap. intros Hlook.
      apply lookup_insert_Some in Hlook as [[_ <-]|[_ Hlook]]; [reflexivity|].
      apply lookup_insert_Some in Hlook as [[_ <-]|[_ Hlook]]; [reflexivity|].
      rewrite lookup_empty in Hlook. discriminate. }
    destruct (proj1 (proj2 proportional_estimate) "app" twoAndEight "ELF"
                {| fi_Kind := NotDir Regular; fi_Size := 1000 |}
                (withFileSize 1000 bareWorld) ltac:(discriminate) Hzero eq_refl)
      as (estimates & Hrun & Hsome & Hnone).
    exists estimates. split; [exact Hrun|].
    split; [exact (Hsome "A" eq_refl)|].
    split; [exact (Hsome "B" eq_refl) | exact (Hnone "C" eq_refl)].
Defined.

(** C6 as stated does not hold: for two symbols of "A", eight of "B" and
    a file of 1300 bytes the average is 90, not 91, and the estimates are
    180 and 720, where [count * (1300 * 0.7 / 10)] is 182 and 728. *)
Lemma proportional_estimate_truncates :
  avgSymbolSize 1300 10 = 90 /\
  exists estimates,
    reconcile "app" twoAndEight "ELF" (withFileSize 1300 bareWorld)
    = (Some (Ok estimates), [EvStat "app"]) /\
    estimates !! "A" = Some 180 /\ estimates !! "B" = Some 720 /\
    ~ (exists estimate, estimates !! "A" = Some estimate /\
                        10 * (10 * estimate) = 2 * (1300 * 7)) /\
    ~ (exists estimate, estimates !! "B" = Some estimate /\
                        10 * (10 * estimate) = 8 * (1300 * 7)).
Proof.
  split; [vm_compute; reflexivity|].
  exists (assignEstimates (avgSymbolSize (u64 1300) 10) (countSymbols twoAndEight)
            (addSymbolSizes twoAndEight)).
  split; [vm_compute; reflexivity|].
  assert (HA : (assignEstimates (avgSymbolSize (u64 1300) 10) (countSymbols twoAndEight)
                  (addSymbolSizes twoAndEight)) !! "A" = Some 180) by (vm_compute; reflexivity).
  assert (HB : (assignEstimates (avgSymbolSize (u64 1300) 10) (countSymbols twoAndEight)
                  (addSymbolSizes twoAndEight)) !! "B" = Some 720) by (vm_compute; reflexivity).
  split; [exact HA|]. split; [exact HB|]. split.
  - intros (estimate & Hlook & Hformula). rewrite HA in Hlook. injection Hlook as <-.
    discriminate.
  - intros (estimate & Hlook & Hformula). rewrite HB in Hlook. injection Hlook as <-.
    discriminate.
Qed.

(** ** The rollup *)

Lemma sumSizes_cons e l : sumSizes (e :: l) = Size e + sumSizes l.
Proof. reflexivity. Qed.

Lemma sumSizes_Permutation l l' : Permutation l l' -> sumSizes l = sumSizes l'.
Proof. induction 1; unfold sumSizes in *; cbn; lia. Qed.

Lemma mapTotal_insert_fresh (m : gmap string ModuleEntry) key e :
  m !! key = None -> mapTotal (<[key := e]> m) = Size e + mapTotal m.
Proof.
  intros Hfresh. unfold mapTotal.
  rewrite (sumSizes_Permutation _ (List.map snd ((key, e) :: map_to_list m))).
  - reflexivity.
  - apply Permutation_map, map_to_list_insert, Hfresh.
Qed.

Lemma mapTotal_lookup (m : gmap string ModuleEntry) key old :
  m !! key = Some old -> mapTotal m = Size old + mapTotal (delete key m).
Proof.
  intros Hold. rewrite <- (insert_delete_id m key old Hold) at 1.
  apply mapTotal_insert_fresh, lookup_delete_eq.
Qed.

Lemma mapTotal_insert_existing (m : gmap string ModuleEntry) key old e :
  m !! key = Some old -> mapTotal (<[key := e]> m) = mapTotal m - Size old + Size e.
Proof.
  intros Hold. rewrite (mapTotal_lookup m key old Hold).
  rewrite <- insert_delete_eq, mapTotal_insert_fresh by apply lookup_delete_eq. lia.
Qed.

Lemma mapTotal_nonneg (m : gmap string ModuleEntry) : sizesNonNeg m -> 0 <= mapTotal m.
Proof.
  intros Hnn. unfold mapTotal.
  assert (Hall : Forall (fun kv => 0 <= Size kv.2) (map_to_list m)).
  { apply Forall_forall. intros [key e] Hin. apply elem_of_map_to_list in Hin.
    exact (Hnn key e Hin). }
  induction Hall as [|kv l Hkv _ IH]; unfold sumSizes in *; cbn in *; lia.
Qed.

Lemma sizesNonNeg_delete (m : gmap string ModuleEntry) key :
  sizesNonNeg m -> sizesNonNeg (delete key m).
Proof.
  intros Hnn key' e Hlook. apply lookup_delete_Some in Hlook as [_ Hlook]. eauto.
Qed.

Section Rollup.
Context `{Humanize}.

(** One step of the rollup adds the size of the module to the total of
    the map, in [uint64] arithmetic. *)
Lemma addToGroup_total m e : u64 (mapTotal (addToGroup m e)) = u64 (mapTotal m + Size e).
Proof.
  unfold addToGroup.
  destruct (m !! getTopLevelPackage (Name e)) as [old|] eqn:Hold.
  - rewrite (mapTotal_insert_existing _ _ old) by exact Hold. cbn [Size].
    unfold u64add, u64.
    rewrite Zplus_mod_idemp_r. f_equal. lia.
  - rewrite mapTotal_insert_fresh by exact Hold. cbn [Size]. f_equal. lia.
Qed.

(** Without overflow the step is exact. *)
Lemma addToGroup_exact m e :
  sizesNonNeg m -> 0 <= Size e -> mapTotal m + Size e < 2 ^ 64 ->
  mapTotal (addToGroup m e) = mapTotal m + Size e /\ sizesNonNeg (addToGroup m e).
Proof.
  intros Hnn He Hfit. unfold addToGroup.
  destruct (m !! getTopLevelPackage (Name e)) as [old|] eqn:Hold.
  - pose proof (Hnn _ _ Hold) as Hold_nn.
    pose proof (mapTotal_lookup m _ old Hold) as Hsplit.
    pose proof (mapTotal_nonneg _ (sizesNonNeg_delete m (getTopLevelPackage (Name e)) Hnn))
      as Hrest.
    assert (Hsum : u64add (Size old) (Size e) = Size old + Size e).
    { unfold u64add. apply Z.mod_small. lia. }
    split.
    + rewrite (mapTotal_insert_existing _ _ old) by exact Hold. cbn [Size].
      rewrite Hsum. lia.
    + intros key e' Hlook. apply lookup_insert_Some in Hlook as [[_ <-]|[_ Hlook]].
      * cbn [Size]. rewrite Hsum. lia.
      * eauto.
  - split.
    + rewrite mapTotal_insert_fresh by exact Hold. cbn [Size]. lia.
    + intros key e' Hlook. apply lookup_insert_Some in Hlook as [[_ <-]|[_ Hlook]].
      * exact He.
      * eauto.
Qed.

Lemma aggregated_total modules : forall m,
  u64 (mapTotal (fold_left addToGroup modules m)) = u64 (mapTotal m + sumSizes modules).
Proof.
  induction modules as [|e modules IH]; intros m; cbn [fold_left].
  - f_equal. cbn. lia.
  - rewrite IH, sumSizes_cons.
    rewrite <- u64_add_l, addToGroup_total, u64_add_l. f_equal. lia.
Qed.

Lemma aggregated_exact modules : forall m,
  sizesNonNeg m -> Forall (fun e => 0 <= Size e) modules ->
  mapTotal m + sumSizes modules < 2 ^ 64 ->
  mapTotal (fold_left addToGroup modules m) = mapTotal m + sumSizes modules.
Proof.
  induction modules as [|e modules IH]; intros m Hnn Hall Hfit; cbn [fold_left].
  - cbn. lia.
  - rewrite sumSizes_cons in *.
    apply Forall_cons in Hall as [He Hall].
    assert (Hrest : 0 <= sumSizes modules).
    { clear -Hall. induction Hall as [|e' l He' _ IHl]; unfold sumSizes in *; cbn; lia. }
    destruct (addToGroup_exact m e Hnn He) as [Hstep Hnn']; [lia|].
    rewrite IH; [lia | exact Hnn' | exact Hall | lia].
Qed.

Lemma rollup_total_is_map_total modules :
  sumSizes (aggregateByTopLevelPackage modules) = mapTotal (aggregated modules).
Proof.
  unfold aggregateByTopLevelPackage, mapTotal.
  apply sumSizes_Permutation, sort_Slice_Permutation.
Qed.

(** C7.  The rollup keeps the total: the sizes of the rolled-up entries
    and the sizes of the entries before the rollup have the same sum in
    [uint64] arithmetic, and the same sum as numbers whenever the total
    fits 64 bits. *)
Theorem rollup_preserves_total modules :
  u64 (sumSizes (aggregateByTopLevelPackage modules)) = u64 (sumSizes modules) /\
  (Forall (fun e => 0 <= Size e) modules -> sumSizes modules < 2 ^ 64 ->
   sumSizes (aggregateByTopLevelPackage modules) = sumSizes modules).
Proof.
  rewrite rollup_total_is_map_total. unfold aggregated. split.
  - rewrite aggregated_total. reflexivity.
  - intros Hall Hfit. rewrite aggregated_exact; try assumption.
    + reflexivity.
    + intros key e Hlook. rewrite lookup_empty in Hlook. discriminate.
Qed.
End Rollup.

Lemma rollup_preserves_total_witness :
  List.map (fun e => (Name e, Size e))
    (aggregateByTopLevelPackage (H := noRendering)
       [ entry "github.com/acme/foo" 300; entry "runtime" 500;
         entry "github.com/acme/bar" 400; entry "runtime/internal/sys" 10 ])
  = [("github.com/acme", 700); ("runtime", 510)] /\
  sumSizes (aggregateByTopLevelPackage (H := noRendering)
              [ entry "github.com/acme/foo" 300; entry "runtime" 500;
                entry "github.com/acme/bar" 400; entry "runtime/internal/sys" 10 ])
  = 1210.
Proof.
  split; [vm_compute; reflexivity|].
  rewrite (proj2 (rollup_preserves_total (H := noRendering)
                    [ entry "github.com/acme/foo" 300; entry "runtime" 500;
                      entry "github.com/acme/bar" 400; entry "runtime/internal/sys" 10 ])).
  - reflexivity.
  - repeat constructor; cbn; lia.
  - cbn. lia.
Defined.

(** * Further properties of the code *)

(** ** The rollup, group by group *)

Section Rollup_groups.
Context `{Humanize}.

Lemma addToGroup_lookup m e key :
  addToGroup m e !! key
  = if decide (getTopLevelPackage (Name e) = key) then
      Some match m !! key with
           | Some old =>
               {| Path := Path old; Name := Name old; Version := Version old;
                  Size := u64add (Size old) (Size e);
                  SizeHuman := humanize_Bytes (u64add (Size old) (Size e)) |}
           | None =>
               {| Path := key; Name := key; Version := "";
                  Size := Size e; SizeHuman := humanize_Bytes (Size e) |}
           end
    else m !! key.
Proof.
  unfold addToGroup. destruct (decide (getTopLevelPackage (Name e) = key)) as [<-|Hne].
  - destruct (m !! getTopLevelPackage (Name e)); apply lookup_insert_eq.
  - destruct (m !! getTopLevelPackage (Name e)); apply lookup_insert_ne, Hne.
Qed.

Lemma aggregated_entries modules : forall acc seen,
  (forall key e, acc !! key = Some e -> groupEntry seen key e) ->
  forall key e, fold_left addToGroup modules acc !! key = Some e ->
                groupEntry (seen ++ modules) key e.
Proof.
  induction modules as [|m modules IH]; intros acc seen Hacc key e Hlook.
  - rewrite app_nil_r. exact (Hacc key e Hlook).
  - cbn [fold_left] in Hlook.
    replace (seen ++ m :: modules)%list with ((seen ++ [m]) ++ modules)%list
      by (rewrite <- app_assoc; reflexivity).
    apply (IH (addToGroup acc m) (seen ++ [m])%list); [|exact Hlook].
    clear key e Hlook. intros key e Hlook.
    rewrite addToGroup_lookup in Hlook.
    destruct (decide (getTopLevelPackage (Name m) = key)) as [Hkey|Hne].
    + assert (Hm : exists m', m' ∈ (seen ++ [m])%list /\ getTopLevelPackage (Name m') = key).
      { exists m. split; [|exact Hkey]. apply elem_of_app. right. apply list_elem_of_singleton.
        reflexivity. }
      destruct (acc !! key) as [old|] eqn:Hold; injection Hlook as <-.
      * destruct (Hacc key old Hold) as (Hn & Hp & Hv & _ & _).
        repeat split; cbn; auto.
      * repeat split; cbn; auto.
    + destruct (Hacc key e Hlook) as (Hn & Hp & Hv & Hh & m' & Hin & Hkey).
      repeat split; auto. exists m'. split; [|exact Hkey].
      apply elem_of_app. left. exact Hin.
Qed.

Lemma aggregated_covers modules : forall acc key,
  (is_Some (acc !! key) \/ exists m, m ∈ modules /\ getTopLevelPackage (Name m) = key) ->
  is_Some (fold_left addToGroup modules acc !! key).
Proof.
  induction modules as [|m modules IH]; intros acc key Hsrc; cbn [fold_left].
  - destruct Hsrc as [Hacc|(m & Hin & _)]; [exact Hacc | inversion Hin].
  - apply IH. rewrite addToGroup_lookup.
    destruct (decide (getTopLevelPackage (Name m) = key)) as [Hkey|Hne].
    + left. eauto.
    + destruct Hsrc as [Hacc|(m' & Hin & Hkey)]; [left; exact Hacc|].
      apply elem_of_cons in Hin as [->|Hin]; [contradiction|]. right. eauto.
Qed.

Lemma aggregated_groupEntry modules key e :
  aggregated modules !! key = Some e -> groupEntry modules key e.
Proof.
  intros Hlook.
  apply (aggregated_entries modules ∅ [] (fun k e' Hk => ltac:(rewrite lookup_empty in Hk; discriminate))
           key e Hlook).
Qed.

Lemma rollup_elem modules e :
  e ∈ aggregateByTopLevelPackage modules <->
  exists key, aggregated modules !! key = Some e.
Proof.
  unfold aggregateByTopLevelPackage.
  rewrite (sort_Slice_Permutation bySizeDesc), list_elem_of_fmap. split.
  - intros ([key e'] & -> & Hin). exists key. apply elem_of_map_to_list, Hin.
  - intros [key Hlook]. exists (key, e). split; [reflexivity|].
    apply elem_of_map_to_list, Hlook.
Qed.

Lemma rollup_names modules :
  Permutation (List.map Name (aggregateByTopLevelPackage modules))
              (List.map fst (map_to_list (aggregated modules))).
Proof.
  unfold aggregateByTopLevelPackage.
  rewrite (sort_Slice_Permutation bySizeDesc), List.map_map.
  apply Permutation_refl'.
  apply List.map_ext_in. intros [key e] Hin. cbn.
  apply list_elem_of_In, elem_of_map_to_list in Hin.
  exact (proj1 (aggregated_groupEntry modules key e Hin)).
Qed.

(** X1.  The rollup names no group twice and is ordered by descending
    size. *)
Theorem rollup_unique_and_sorted modules :
  NoDup (List.map Name (aggregateByTopLevelPackage modules)) /\
  descending (aggregateByTopLevelPackage modules).
Proof.
  split.
  - rewrite rollup_names. apply NoDup_fst_map_to_list.
  - apply sort_Slice_descending.
Qed.

Lemma rollup_name_iff modules name :
  name ∈ List.map Name (aggregateByTopLevelPackage modules) <->
  exists m, m ∈ modules /\ getTopLevelPackage (Name m) = name.
Proof.
  rewrite list_elem_of_fmap. split.
  - intros (e & -> & Hin). apply rollup_elem in Hin as [key Hlook].
    destruct (aggregated_groupEntry modules key e Hlook) as (-> & _ & _ & _ & Hsrc).
    exact Hsrc.
  - intros Hsrc.
    destruct (aggregated_covers modules ∅ name (or_intror Hsrc)) as [e Hlook].
    exists e. split.
    + symmetry. exact (proj1 (aggregated_groupEntry modules name e Hlook)).
    + apply rollup_elem. eauto.
Qed.

Lemma rollup_NoDup modules : NoDup (List.map Name (aggregateByTopLevelPackage modules)).
Proof. rewrite rollup_names. apply NoDup_fst_map_to_list. Qed.

(** X2.  The groups of the rollup are exactly the top-level packages of
    the modules given: a name is in the rollup if and only if it is the
    top-level package of one of them (so no module is dropped and no
    group is made up); the rollup of no module is empty. *)
Theorem rollup_groups modules :
  (forall name,
      name ∈ List.map Name (aggregateByTopLevelPackage modules) <->
      exists m, m ∈ modules /\ getTopLevelPackage (Name m) = name) /\
  aggregateByTopLevelPackage [] = [].
Proof.
  split; [|reflexivity]. apply rollup_name_iff.
Qed.

Lemma groupSum_cons key m modules :
  groupSum key (m :: modules)
  = (if String.eqb (getTopLevelPackage (Name m)) key then Size m else 0)
    + groupSum key modules.
Proof.
  unfold groupSum. cbn [List.filter].
  destruct (String.eqb (getTopLevelPackage (Name m)) key); [apply sumSizes_cons | lia].
Qed.

Lemma aggregated_size modules : forall acc key,
  Forall (fun m => isU64 (Size m)) modules ->
  (forall e, acc !! key = Some e -> isU64 (Size e)) ->
  Size <$> (fold_left addToGroup modules acc !! key)
  = match acc !! key with
    | Some e => Some (u64 (Size e + groupSum key modules))
    | None =>
        match List.filter (fun m => String.eqb (getTopLevelPackage (Name m)) key) modules with
        | [] => None
        | _ => Some (u64 (groupSum key modules))
        end
    end.
Proof.
  induction modules as [|m modules IH]; intros acc key Hall Hacc.
  - cbn. destruct (acc !! key) as [e|] eqn:He; [|reflexivity].
    cbn. f_equal. unfold groupSum. cbn. rewrite Z.add_0_r.
    symmetry. apply u64_small, Hacc. reflexivity.
  - apply Forall_cons in Hall as [Hm Hall]. cbn [fold_left].
    rewrite groupSum_cons. cbn [List.filter].
    pose proof (addToGroup_lookup acc m key) as Hstep.
    destruct (String.eqb_spec (getTopLevelPackage (Name m)) key) as [Hkey|Hne].
    + rewrite decide_True in Hstep by exact Hkey.
      rewrite IH; [|exact Hall|].
      * rewrite Hstep. destruct (acc !! key) as [old|]; cbn [Size]; [|reflexivity].
        f_equal. unfold u64add. fold (u64 (Size old + Size m)).
        rewrite u64_add_l. f_equal. lia.
      * intros e He. rewrite Hstep in He. injection He as <-.
        destruct (acc !! key) as [old|]; cbn [Size]; [|exact Hm].
        unfold isU64, u64add. apply Z.mod_pos_bound. lia.
    + rewrite decide_False in Hstep by exact Hne.
      rewrite IH; [|exact Hall|].
      * rewrite Hstep, Z.add_0_l. reflexivity.
      * intros e He. rewrite Hstep in He. exact (Hacc e He).
Qed.

(** X3.  When the sizes given are [uint64] values, every entry of the
    rollup carries the sum, in [uint64] arithmetic, of the sizes of the
    modules whose top-level package is its name; its path is its name and
    its rendering is that of its size. *)
Theorem rollup_group_sizes modules :
  Forall (fun m => isU64 (Size m)) modules ->
  forall e, e ∈ aggregateByTopLevelPackage modules ->
            Size e = u64 (groupSum (Name e) modules) /\
            Path e = Name e /\
            SizeHuman e = humanize_Bytes (Size e).
Proof.
  intros Hall e Hin. apply rollup_elem in Hin as [key Hlook].
  destruct (aggregated_groupEntry modules key e Hlook) as (Hname & Hpath & _ & Hhuman & _).
  split; [|split; [congruence | exact Hhuman]].
  pose proof (aggregated_size modules ∅ key Hall
                (fun e' He' => ltac:(rewrite lookup_empty in He'; discriminate))) as Hsize.
  fold (aggregated modules) in Hsize. rewrite Hlook, lookup_empty in Hsize. cbn in Hsize.
  rewrite Hname.
  destruct (List.filter _ modules); [discriminate|]. injection Hsize as ->. reflexivity.
Qed.

End Rollup_groups.

Lemma rollup_group_sizes_witness :
  Forall (fun e => Size e = u64 (groupSum (H := noRendering) (Name e)
                                   [ entry "github.com/acme/foo" 300; entry "runtime" 500;
                                     entry "github.com/acme/bar" 400 ]))
         (aggregateByTopLevelPackage (H := noRendering)
            [ entry "github.com/acme/foo" 300; entry "runtime" 500;
              entry "github.com/acme/bar" 400 ]).
Proof.
  apply Forall_forall. intros e He.
  apply (rollup_group_sizes (H := noRendering)
           [ entry "github.com/acme/foo" 300; entry "runtime" 500;
             entry "github.com/acme/bar" 400 ]); [|exact He].
  repeat constructor; cbn; lia.
Defined.

(** ** Splitting and joining *)

Lemma prefix_empty s : String.prefix "" s = true.
Proof. destruct s; reflexivity. Qed.

Lemma prefix_refl s : String.prefix s s = true.
Proof.
  induction s as [|c s IH]; [reflexivity|].
  cbn [String.prefix]. destruct (ascii_dec c c); [exact IH | contradiction].
Qed.

Lemma append_String x a b : String x a +:+ b = String x (a +:+ b).
Proof. reflexivity. Qed.

Lemma prefix_append a b c :
  String.prefix (a +:+ b) (a +:+ c) = String.prefix b c.
Proof.
  induction a as [|x a IH]; [reflexivity|].
  rewrite !append_String. cbn [String.prefix].
  destruct (ascii_dec x x); [exact IH | contradiction].
Qed.

Lemma append_nil_r s : s +:+ "" = s.
Proof.
  induction s as [|c s IH]; [reflexivity|]. rewrite append_String, IH. reflexivity.
Qed.

Lemma append_assoc a b c : (a +:+ b) +:+ c = a +:+ (b +:+ c).
Proof.
  induction a as [|x a IH]; [reflexivity|]. rewrite !append_String, IH. reflexivity.
Qed.

Lemma prefix_append_r a b : String.prefix a (a +:+ b) = true.
Proof.
  rewrite <- (append_nil_r a) at 1. rewrite prefix_append. apply prefix_empty.
Qed.

Lemma prefix_substring n s : String.prefix (String.substring 0 n s) s = true.
Proof.
  revert n. induction s as [|c s IH]; intros [|n]; try reflexivity.
  cbn [String.substring String.prefix].
  destruct (ascii_dec c c); [apply IH | contradiction].
Qed.

Lemma sdrop_length k s : (String.length (sdrop k s) <= String.length s)%nat.
Proof.
  revert s. induction k as [|k IH]; intros [|c s]; cbn; try lia.
  specialize (IH s). lia.
Qed.

Lemma prefix_sdrop p s :
  String.prefix p s = true -> s = p +:+ sdrop (String.length p) s.
Proof.
  revert s. induction p as [|x p IH]; intros s Hpre; [reflexivity|].
  destruct s as [|c s]; [discriminate|].
  cbn [String.prefix] in Hpre. destruct (ascii_dec x c) as [->|]; [|discriminate].
  cbn [String.length sdrop]. rewrite append_String. f_equal. apply IH, Hpre.
Qed.

(** A separator that is being skipped is dropped from the input. *)
Lemma genSplit_skip sep cur s : forall k,
  strings.genSplit sep k cur s = strings.genSplit sep 0 cur (sdrop k s).
Proof.
  induction s as [|c s IH]; intros [|k]; try reflexivity.
  cbn [strings.genSplit sdrop]. apply IH.
Qed.

Lemma genSplit_nonempty sep s : forall k cur,
  exists piece pieces, strings.genSplit sep k cur s = piece :: pieces.
Proof.
  induction s as [|c s IH]; intros k cur; cbn [strings.genSplit]; [eauto|].
  destruct k as [|k]; [|apply IH].
  destruct (String.prefix sep (String c s)); [eauto | apply IH].
Qed.

(** Joining what [Split] gives restores the string. *)
Lemma genSplit_Join x sep' : forall n s cur,
  (String.length s <= n)%nat ->
  strings.Join (strings.genSplit (String x sep') 0 cur s) (String x sep') = cur +:+ s.
Proof.
  set (sep := String x sep').
  induction n as [|n IH]; intros s cur Hlen.
  - destruct s; [|cbn in Hlen; lia]. cbn. symmetry. apply append_nil_r.
  - destruct s as [|c s]; [cbn; symmetry; apply append_nil_r|].
    cbn [strings.genSplit]. destruct (String.prefix sep (String c s)) eqn:Hpre.
    + rewrite genSplit_skip.
      destruct (genSplit_nonempty sep (sdrop (String.length sep - 1) s) 0 "")
        as (piece & pieces & Hsplit).
      unfold strings.Join in *. rewrite Hsplit.
      change (String.concat sep (cur :: piece :: pieces))
        with (cur +:+ sep +:+ String.concat sep (piece :: pieces)).
      rewrite <- Hsplit, IH.
      * f_equal. etransitivity; [|symmetry; apply (prefix_sdrop _ _ Hpre)]. f_equal.
        subst sep. cbn [String.length sdrop].
        replace (S (String.length sep') - 1)%nat with (String.length sep') by lia.
        reflexivity.
      * pose proof (sdrop_length (String.length sep - 1) s). cbn in Hlen. lia.
    + rewrite IH by (cbn in Hlen; lia).
      rewrite append_assoc. reflexivity.
Qed.

Lemma Split_Join s sep : sep <> "" -> strings.Join (strings.Split s sep) sep = s.
Proof.
  destruct sep as [|x sep']; [congruence|]. intros _.
  unfold strings.Split. exact (genSplit_Join x sep' _ s "" (le_n _)).
Qed.

Lemma Join_take_prefix sep parts : forall i,
  String.prefix (strings.Join (take i parts) sep) (strings.Join parts sep) = true.
Proof.
  unfold strings.Join.
  induction parts as [|p parts IH]; intros i.
  - rewrite take_nil. reflexivity.
  - destruct i as [|i]; [apply prefix_empty|]. cbn [take].
    destruct parts as [|q parts].
    + rewrite take_nil. apply prefix_refl.
    + destruct i as [|i].
      * cbn [take String.concat]. apply prefix_append_r.
      * specialize (IH (S i)). cbn [take] in *.
        change (String.concat sep (p :: q :: take i parts))
          with (p +:+ sep +:+ String.concat sep (q :: take i parts)).
        change (String.concat sep (p :: q :: parts))
          with (p +:+ sep +:+ String.concat sep (q :: parts)).
        rewrite !prefix_append. exact IH.
Qed.

(** ** More on the package name resolver *)

Lemma findPackagePath_shape parts : forall k,
  findPackagePath parts k = "" \/
  findPackagePath parts k = "main" \/
  findPackagePath parts k = "runtime" \/
  strings.Contains (findPackagePath parts k) "/" = true.
Proof.
  induction k as [|i IH]; [left; reflexivity|].
  cbn [findPackagePath].
  destruct (strings.Contains (strings.Join (take i parts) ".") "/") eqn:Hslash.
  - cbn [orb]. right. right. right. exact Hslash.
  - cbn [orb].
    destruct (String.eqb_spec (strings.Join (take i parts) ".") "main") as [->|_].
    + right. left. reflexivity.
    + cbn [orb].
      destruct (String.eqb_spec (strings.Join (take i parts) ".") "runtime") as [->|_].
      * right. right. left. reflexivity.
      * exact IH.
Qed.

Lemma findPackagePath_prefix s : forall k,
  String.prefix (findPackagePath (strings.Split s ".") k) s = true.
Proof.
  induction k as [|i IH]; [apply prefix_empty|].
  cbn [findPackagePath]. destruct (_ || _); [|exact IH].
  rewrite <- (Split_Join s ".") at 2 by discriminate.
  apply Join_take_prefix.
Qed.

(** X4.  What the resolver answers is the empty string, one of "runtime",
    "main" and "go", or a string with a slash in it; it is always the
    beginning of the symbol name; and a name without a dot, or with its
    first dot in front, is never resolved. *)
Theorem resolved_package_shape symbolName :
  (extractPackageFromSymbol symbolName = "" \/
   extractPackageFromSymbol symbolName = "runtime" \/
   extractPackageFromSymbol symbolName = "main" \/
   extractPackageFromSymbol symbolName = "go" \/
   strings.Contains (extractPackageFromSymbol symbolName) "/" = true) /\
  String.prefix (extractPackageFromSymbol symbolName) symbolName = true /\
  (strings.Index symbolName "." <= 0 -> extractPackageFromSymbol symbolName = "").
Proof.
  unfold extractPackageFromSymbol.
  destruct (Z.ltb_spec 0 (strings.Index symbolName ".")) as [Hpos|Hnpos].
  2:{ split; [left; reflexivity|]. split; [apply prefix_empty | reflexivity]. }
  set (prefix := str_take (strings.Index symbolName ".") symbolName).
  assert (Hprefix : String.prefix prefix symbolName = true) by apply prefix_substring.
  destruct (String.eqb_spec prefix "runtime") as [Hr|_].
  { cbn [orb]. split; [right; left; exact Hr|]. split; [exact Hprefix | lia]. }
  destruct (String.eqb_spec prefix "main") as [Hm|_].
  { cbn [orb]. split; [right; right; left; exact Hm|]. split; [exact Hprefix | lia]. }
  destruct (String.eqb_spec prefix "go") as [Hg|_].
  { cbn [orb]. split; [right; right; right; left; exact Hg|]. split; [exact Hprefix | lia]. }
  cbn [orb].
  destruct (_ || _).
  2:{ split; [left; reflexivity|]. split; [apply prefix_empty | lia]. }
  destruct (1 <? _).
  2:{ split; [left; reflexivity|]. split; [apply prefix_empty | lia]. }
  split; [|split; [apply findPackagePath_prefix | lia]].
  destruct (findPackagePath_shape (strings.Split symbolName ".")
              (List.length (strings.Split symbolName "."))) as [He|[He|[He|He]]];
    rewrite ?He; auto.
Qed.

Lemma resolved_package_shape_witness :
  extractPackageFromSymbol ".hidden" = "" /\
  String.prefix (extractPackageFromSymbol "vendor/golang.org/x/net.Dial")
                "vendor/golang.org/x/net.Dial" = true.
Proof.
  split.
  - apply (resolved_package_shape ".hidden"). vm_compute. discriminate.
  - apply (resolved_package_shape "vendor/golang.org/x/net.Dial").
Defined.

(** ** More on the symbol reader *)


Lemma machoSymbol_record machoFile sym s :
  machoSymbol machoFile sym = Some s ->
  sym_Package s = extractPackageFromSymbol (sym_Name s) /\ sym_Package s <> "" /\
  sym_Size s = 100.
Proof.
  unfold machoSymbol. intros Hsym.
  destruct (String.eqb_spec (extractPackageFromSymbol (msym_Name sym)) "") as [|Hne];
    [discriminate|].
  injection Hsym as <-. cbn. repeat split; assumption.
Qed.




(** ** More on the size reconciler *)

Lemma sumOver_Permutation {A} (f : A -> Z) l l' :
  Permutation l l' -> sumOver f l = sumOver f l'.
Proof. induction 1; cbn; lia. Qed.

Lemma valuesTotal_insert_fresh (m : gmap string Z) key v :
  m !! key = None -> valuesTotal (<[key := v]> m) = v + valuesTotal m.
Proof.
  intros Hfresh. unfold valuesTotal.
  rewrite (sumOver_Permutation snd _ ((key, v) :: map_to_list m)); [reflexivity|].
  apply map_to_list_insert, Hfresh.
Qed.

Lemma valuesTotal_insert_existing (m : gmap string Z) key old v :
  m !! key = Some old -> valuesTotal (<[key := v]> m) = valuesTotal m - old + v.
Proof.
  intros Hold.
  rewrite <- (insert_delete_id m key old Hold) at 2.
  rewrite <- (insert_delete_eq m key v).
  rewrite !valuesTotal_insert_fresh by apply lookup_delete_eq. lia.
Qed.

Lemma sumMapValues_total (m : gmap string Z) : sumMapValues m = u64 (valuesTotal m).
Proof.
  unfold sumMapValues, valuesTotal. rewrite map_fold_foldr.
  induction (map_to_list m) as [|[key v] l IH]; [reflexivity|].
  cbn [foldr uncurry sumOver snd]. rewrite IH.
  unfold u64add. fold (u64 (u64 (sumOver snd l) + v)).
  rewrite u64_add_l. f_equal. lia.
Qed.

Lemma totalSize_cons sym symbols : totalSize (sym :: symbols) = sym_Size sym + totalSize symbols.
Proof. reflexivity. Qed.

Lemma pkgSum_cons pkg sym symbols :
  pkgSum pkg (sym :: symbols)
  = (if String.eqb (sym_Package sym) pkg then sym_Size sym else 0) + pkgSum pkg symbols.
Proof.
  unfold pkgSum. cbn [List.filter].
  destruct (String.eqb (sym_Package sym) pkg); [reflexivity | lia].
Qed.

(** The sum of the sizes added up per package is the sum of all sizes. *)
Lemma addSymbolSizes_total symbols : forall (sizes : gmap string Z),
  u64 (valuesTotal
         (fold_left (fun pkgSizes sym =>
                       <[sym_Package sym :=
                           u64add (default 0 (pkgSizes !! sym_Package sym)) (sym_Size sym)]>
                         pkgSizes)
                    symbols sizes))
  = u64 (valuesTotal sizes + totalSize symbols).
Proof.
  induction symbols as [|sym symbols IH]; intros sizes; cbn [fold_left].
  - f_equal. unfold totalSize. cbn. lia.
  - rewrite IH, totalSize_cons.
    destruct (sizes !! sym_Package sym) as [old|] eqn:Hold; cbn [default from_option id].
    + rewrite (valuesTotal_insert_existing _ _ old) by exact Hold.
      unfold u64add. fold (u64 (old + sym_Size sym)).
      replace (valuesTotal sizes - old + u64 (old + sym_Size sym) + totalSize symbols)
        with (u64 (old + sym_Size sym) + (valuesTotal sizes - old + totalSize symbols)) by lia.
      rewrite u64_add_l. f_equal. lia.
    + rewrite valuesTotal_insert_fresh by exact Hold.
      unfold u64add. fold (u64 (0 + sym_Size sym)).
      rewrite <- Z.add_assoc, u64_add_l. f_equal. lia.
Qed.

Lemma sumMapValues_addSymbolSizes symbols :
  sumMapValues (addSymbolSizes symbols) = u64 (totalSize symbols).
Proof.
  rewrite sumMapValues_total. unfold addSymbolSizes. rewrite addSymbolSizes_total.
  f_equal.
Qed.

(** What is added up for one package. *)
Lemma addSymbolSizes_lookup_from symbols : forall (sizes : gmap string Z) pkg,
  (forall v, sizes !! pkg = Some v -> isU64 v) ->
  fold_left (fun pkgSizes sym =>
               <[sym_Package sym :=
                   u64add (default 0 (pkgSizes !! sym_Package sym)) (sym_Size sym)]> pkgSizes)
            symbols sizes !! pkg
  = match sizes !! pkg with
    | Some v => Some (u64 (v + pkgSum pkg symbols))
    | None => if symbolCount pkg symbols =? 0 then None
              else Some (u64 (pkgSum pkg symbols))
    end.
Proof.
  induction symbols as [|sym symbols IH]; intros sizes pkg Hrange.
  - cbn [fold_left]. destruct (sizes !! pkg) as [v|] eqn:Hv; [|reflexivity].
    unfold pkgSum. cbn. rewrite Z.add_0_r, u64_small; [reflexivity | apply Hrange, eq_refl].
  - cbn [fold_left]. rewrite pkgSum_cons, symbolCount_cons.
    pose proof (symbolCount_nonneg pkg symbols) as Hnn.
    destruct (String.eqb_spec (sym_Package sym) pkg) as [->|Hne].
    + rewrite IH.
      * rewrite lookup_insert_eq. unfold u64add.
        fold (u64 (default 0 (sizes !! pkg) + sym_Size sym)).
        rewrite u64_add_l.
        destruct (sizes !! pkg) as [v|]; cbn [default from_option id].
        -- f_equal. f_equal. lia.
        -- destruct (Z.eqb_spec (1 + symbolCount pkg symbols) 0); [lia|]. reflexivity.
      * intros v Hv. rewrite lookup_insert_eq in Hv. injection Hv as <-.
        unfold isU64, u64add. apply Z.mod_pos_bound. lia.
    + rewrite IH.
      * rewrite lookup_insert_ne by exact Hne. rewrite !Z.add_0_l. reflexivity.
      * intros v Hv. rewrite lookup_insert_ne in Hv by exact Hne. exact (Hrange v Hv).
Qed.

Lemma addSymbolSizes_lookup symbols pkg :
  addSymbolSizes symbols !! pkg
  = if symbolCount pkg symbols =? 0 then None else Some (u64 (pkgSum pkg symbols)).
Proof.
  unfold addSymbolSizes. rewrite addSymbolSizes_lookup_from.
  - rewrite lookup_empty. reflexivity.
  - intros v Hv. rewrite lookup_empty in Hv. discriminate.
Qed.

Lemma filter_Permutation {A} (f : A -> bool) l l' :
  Permutation l l' -> Permutation (List.filter f l) (List.filter f l').
Proof.
  induction 1 as [|x l l' _ IH|x y l|l l' l'' _ IH1 _ IH2]; cbn [List.filter].
  - reflexivity.
  - destruct (f x); [apply perm_skip|]; exact IH.
  - destruct (f x), (f y); try reflexivity. apply perm_swap.
  - etransitivity; eassumption.
Qed.

Lemma symbolCount_Permutation pkg symbols symbols' :
  Permutation symbols symbols' -> symbolCount pkg symbols = symbolCount pkg symbols'.
Proof.
  intros Hperm. unfold symbolCount. f_equal.
  apply Permutation_length. apply filter_Permutation, Hperm.
Qed.

Lemma pkgSum_Permutation pkg symbols symbols' :
  Permutation symbols symbols' -> pkgSum pkg symbols = pkgSum pkg symbols'.
Proof.
  intros Hperm. unfold pkgSum. apply sumOver_Permutation, filter_Permutation, Hperm.
Qed.

Lemma addSymbolSizes_Permutation symbols symbols' :
  Permutation symbols symbols' -> addSymbolSizes symbols = addSymbolSizes symbols'.
Proof.
  intros Hperm. apply map_eq. intros pkg. rewrite !addSymbolSizes_lookup.
  rewrite (symbolCount_Permutation pkg _ _ Hperm), (pkgSum_Permutation pkg _ _ Hperm).
  reflexivity.
Qed.

Lemma countSymbols_Permutation symbols symbols' :
  Permutation symbols symbols' -> countSymbols symbols = countSymbols symbols'.
Proof.
  intros Hperm. apply map_eq. intros pkg. rewrite !countSymbols_lookup.
  rewrite (symbolCount_Permutation pkg _ _ Hperm). reflexivity.
Qed.

Lemma direct_sum_run binaryPath symbols archType w :
  u64 (totalSize symbols) <> 0 ->
  reconcile binaryPath symbols archType w = (Some (Ok (addSymbolSizes symbols)), []) /\
  forall pkg, addSymbolSizes symbols !! pkg
              = if symbolCount pkg symbols =? 0 then None
                else Some (u64 (pkgSum pkg symbols)).
Proof.
  intros Hsum. split; [|intros pkg; apply addSymbolSizes_lookup].
  unfold reconcile.
  destruct symbols as [|sym symbols]; [exfalso; apply Hsum; reflexivity|].
  replace (Z.of_nat (List.length (sym :: symbols)) =? 0) with false
    by (symmetry; apply Z.eqb_neq; cbn [List.length]; lia).
  replace (0 <? Z.of_nat (List.length (sym :: symbols))) with true
    by (symmetry; apply Z.ltb_lt; cbn [List.length]; lia).
  rewrite sumMapValues_addSymbolSizes.
  destruct (Z.eqb_spec (u64 (totalSize (sym :: symbols))) 0); [contradiction|].
  reflexivity.
Qed.

(** X6.  When the sizes of the symbols do not add up to zero (in [uint64]
    arithmetic), the reconciler returns, without looking at the file, the
    map that gives every package with a symbol the sum of the sizes of its
    symbols, and gives nothing to any other package. *)
Theorem direct_aggregation binaryPath symbols archType w :
  u64 (totalSize symbols) <> 0 ->
  exists pkgSizes,
    reconcile binaryPath symbols archType w = (Some (Ok pkgSizes), []) /\
    (forall pkg, 0 < symbolCount pkg symbols ->
                 pkgSizes !! pkg = Some (u64 (pkgSum pkg symbols))) /\
    (forall pkg, symbolCount pkg symbols = 0 -> pkgSizes !! pkg = None).
Proof.
  intros Hsum. destruct (direct_sum_run binaryPath symbols archType w Hsum) as [Hrun Hlook].
  exists (addSymbolSizes symbols). split; [exact Hrun|]. split.
  - intros pkg Hpos. rewrite Hlook.
    destruct (Z.eqb_spec (symbolCount pkg symbols) 0); [lia | reflexivity].
  - intros pkg Hnone. rewrite Hlook, Hnone. reflexivity.
Qed.

Lemma direct_aggregation_witness :
  exists pkgSizes,
    reconcile "app"
      [ {| sym_Name := "main.run"; sym_Size := 10; sym_Address := 0;
           sym_Package := "main"; sym_Section := ".text" |};
        {| sym_Name := "runtime.gcStart"; sym_Size := 5; sym_Address := 16;
           sym_Package := "runtime"; sym_Section := ".text" |};
        {| sym_Name := "main.init"; sym_Size := 7; sym_Address := 32;
           sym_Package := "main"; sym_Section := ".text" |} ]
      "ELF" bareWorld
    = (Some (Ok pkgSizes), []) /\
    pkgSizes !! "main" = Some 17 /\ pkgSizes !! "runtime" = Some 5 /\
    pkgSizes !! "fmt" = None.
Proof.
  destruct (direct_aggregation "app"
              [ {| sym_Name := "main.run"; sym_Size := 10; sym_Address := 0;
                   sym_Package := "main"; sym_Section := ".text" |};
                {| sym_Name := "runtime.gcStart"; sym_Size := 5; sym_Address := 16;
                   sym_Package := "runtime"; sym_Section := ".text" |};
                {| sym_Name := "main.init"; sym_Size := 7; sym_Address := 32;
                   sym_Package := "main"; sym_Section := ".text" |} ]
              "ELF" bareWorld ltac:(vm_compute; discriminate))
    as (pkgSizes & Hrun & Hsome & Hnone).
  exists pkgSizes. split; [exact Hrun|].
  split; [exact (Hsome "main" eq_refl)|].
  split; [exact (Hsome "runtime" eq_refl) | exact (Hnone "fmt" eq_refl)].
Defined.

(** X7.  The reconciler does not depend on the order of the symbols. *)
Theorem reconcile_order_independent binaryPath symbols symbols' archType :
  Permutation symbols symbols' ->
  reconcile binaryPath symbols archType = reconcile binaryPath symbols' archType.
Proof.
  intros Hperm. unfold reconcile.
  rewrite (Permutation_length Hperm), (addSymbolSizes_Permutation _ _ Hperm),
    (countSymbols_Permutation _ _ Hperm).
  reflexivity.
Qed.

Lemma reconcile_order_independent_witness :
  reconcile "app" (List.rev twoAndEight) "ELF" = reconcile "app" twoAndEight "ELF".
Proof.
  apply reconcile_order_independent. symmetry. apply Permutation_rev.
Defined.

Lemma sumOver_const {A} (f : A -> Z) c l :
  Forall (fun a => f a = c) l -> sumOver f l = c * Z.of_nat (List.length l).
Proof.
  induction 1 as [|a l Ha _ IH]; cbn [sumOver List.length]; [lia|].
  rewrite Ha, IH. lia.
Qed.

Lemma Forall_List_filter {A} (P : A -> Prop) (f : A -> bool) l :
  Forall P l -> Forall P (List.filter f l).
Proof.
  induction 1 as [|a l Ha _ IH]; cbn [List.filter]; [constructor|].
  destruct (f a); [constructor; assumption | assumption].
Qed.

Lemma symbolCount_le_length pkg symbols :
  symbolCount pkg symbols <= Z.of_nat (List.length symbols).
Proof.
  unfold symbolCount. apply inj_le.
  induction symbols as [|sym symbols IH]; cbn [List.filter List.length]; [lia|].
  destruct (String.eqb (sym_Package sym) pkg); cbn [List.length]; lia.
Qed.

Lemma macho_sizes f machoFile :
  asELF f = None -> asMachO f = Some machoFile ->
  Forall (fun s => sym_Size s = 100) (readSymbols f).1.2.
Proof.
  intros Helf Hmacho. unfold readSymbols. rewrite Helf, Hmacho. cbn [fst snd].
  destruct (macho_Symtab machoFile) as [syms|]; [|constructor].
  apply Forall_forall. intros s Hs.
  apply list_elem_of_omap in Hs as (sym & _ & Hsym).
  exact (proj2 (proj2 (machoSymbol_record _ _ _ Hsym))).
Qed.

(** X8.  For a binary that the Mach-O reader accepts (and the ELF reader
    does not) and that yields at least one symbol record, the analysis
    succeeds without asking for the size of the file and gives every
    package 100 bytes for each of its symbols: the proportional estimate
    is never used.  (The number of records is taken to be such that 100
    times it fits 64 bits.) *)
Theorem macho_hundred_per_symbol binaryPath w f machoFile :
  os_Open w binaryPath = Ok f ->
  asELF f = None -> asMachO f = Some machoFile ->
  (readSymbols f).1.2 <> [] ->
  100 * Z.of_nat (List.length (readSymbols f).1.2) < 2 ^ 64 ->
  exists pkgSizes,
    analyzeBinarySymbolTable binaryPath w = (Some (Ok pkgSizes), [EvOpen binaryPath]) /\
    forall pkg,
      pkgSizes !! pkg
      = if symbolCount pkg (readSymbols f).1.2 =? 0 then None
        else Some (100 * symbolCount pkg (readSymbols f).1.2).
Proof.
  intros Hopen Helf Hmacho Hne Hfit.
  pose proof (macho_sizes f machoFile Helf Hmacho) as Hsizes.
  destruct (readSymbols f) as [[sections symbols] archType] eqn:Hread.
  cbn [fst snd] in *.
  assert (Hlen : 0 < Z.of_nat (List.length symbols))
    by (destruct symbols; [congruence | cbn [List.length]; lia]).
  assert (Htotal : totalSize symbols = 100 * Z.of_nat (List.length symbols))
    by (apply sumOver_const, Hsizes).
  destruct (direct_sum_run binaryPath symbols archType w) as (Hrun & Hlook).
  { rewrite Htotal, u64_small; lia. }
  exists (addSymbolSizes symbols). split.
  - unfold analyzeBinarySymbolTable, bind, Open, ask. rewrite Hopen, Hread, Hrun.
    reflexivity.
  - intros pkg. rewrite Hlook.
    destruct (Z.eqb_spec (symbolCount pkg symbols) 0); [reflexivity|].
    f_equal. unfold pkgSum.
    rewrite (sumOver_const sym_Size 100) by (apply Forall_List_filter, Hsizes).
    fold (symbolCount pkg symbols).
    pose proof (symbolCount_le_length pkg symbols).
    pose proof (symbolCount_nonneg pkg symbols).
    apply u64_small. lia.
Qed.

Lemma macho_hundred_per_symbol_witness :
  exists pkgSizes,
    analyzeBinarySymbolTable "app"
      (withBinary (machoOf [ machoSym "main.run"; machoSym "runtime.gcStart";
                             machoSym "main.init"; machoSym "noise" ])
         (twoDeps "a" "b" "" "") bareWorld)
    = (Some (Ok pkgSizes), [EvOpen "app"]) /\
    pkgSizes !! "main" = Some 200 /\ pkgSizes !! "runtime" = Some 100 /\
    pkgSizes !! "noise" = None.
Proof.
  destruct (macho_hundred_per_symbol "app"
              (withBinary (machoOf [ machoSym "main.run"; machoSym "runtime.gcStart";
                                     machoSym "main.init"; machoSym "noise" ])
                 (twoDeps "a" "b" "" "") bareWorld)
              _ _ eq_refl eq_refl eq_refl
              ltac:(vm_compute; discriminate) ltac:(vm_compute; reflexivity))
    as (pkgSizes & Hrun & Hlook).
  exists pkgSizes. split; [exact Hrun|].
  split; [exact (Hlook "main")|]. split; [exact (Hlook "runtime") | exact (Hlook "noise")].
Defined.

(** X9.  When the sizes add up to zero and the size of the file cannot be
    read, the reconciler still succeeds: it returns the sums as they are
    (so 0 for every package when no symbol has a size) and reports
    nothing. *)
Theorem estimate_skipped_without_file_size binaryPath symbols archType w err :
  symbols <> [] ->
  u64 (totalSize symbols) = 0 ->
  os_Stat w binaryPath = Err err ->
  reconcile binaryPath symbols archType w
  = (Some (Ok (addSymbolSizes symbols)), [EvStat binaryPath]) /\
  (Forall (fun s => sym_Size s = 0) symbols ->
   forall pkg, 0 < symbolCount pkg symbols -> addSymbolSizes symbols !! pkg = Some 0).
Proof.
  intros Hne Hzero Hstat. split.
  - unfold reconcile.
    destruct symbols as [|sym symbols]; [congruence|].
    replace (Z.of_nat (List.length (sym :: symbols)) =? 0) with false
      by (symmetry; apply Z.eqb_neq; cbn [List.length]; lia).
    replace (0 <? Z.of_nat (List.length (sym :: symbols))) with true
      by (symmetry; apply Z.ltb_lt; cbn [List.length]; lia).
    rewrite sumMapValues_addSymbolSizes, Hzero. cbn [Z.eqb].
    unfold bind, Stat, ask. rewrite Hstat. reflexivity.
  - intros Hall pkg Hpos. rewrite addSymbolSizes_lookup.
    destruct (Z.eqb_spec (symbolCount pkg symbols) 0); [lia|].
    f_equal. unfold pkgSum.
    rewrite (sumOver_const sym_Size 0) by (apply Forall_List_filter, Hall).
    reflexivity.
Qed.

Lemma estimate_skipped_without_file_size_witness :
  reconcile "app" twoAndEight "ELF" bareWorld
  = (Some (Ok (addSymbolSizes twoAndEight)), [EvStat "app"]) /\
  addSymbolSizes twoAndEight !! "A" = Some 0 /\
  addSymbolSizes twoAndEight !! "B" = Some 0.
Proof.
  destruct (estimate_skipped_without_file_size "app" twoAndEight "ELF" bareWorld
              "no such file or directory" ltac:(discriminate) eq_refl eq_refl)
    as [Hrun Hzero].
  assert (Hall : Forall (fun s => sym_Size s = 0) twoAndEight)
    by (repeat constructor).
  split; [exact Hrun|].
  split; [exact (Hzero Hall "A" eq_refl) | exact (Hzero Hall "B" eq_refl)].
Defined.

(** ** More on the module cache fallback *)

(** X10.  For a module with a real version the module cache directory is
    [$GOPATH/pkg/mod/<path>@<version>], with [$HOME/go] for an empty
    [$GOPATH].  When [os.Stat] shows a directory there, the estimate is
    the size of its tree; when it shows something else or fails, the
    estimate is 0, nothing is walked and nothing is logged. *)
Theorem estimateModuleSize_cache modulePath version w :
  version <> "" -> version <> "(devel)" ->
  (forall info,
      os_Stat w (cachePath w modulePath version) = Ok info -> IsDir info = true ->
      estimateModuleSize modulePath version w
      = (Some (u64 (nonDirTotal (os_Lstat_tree w (cachePath w modulePath version)))),
         cacheLookups w
         ++ EvStat (cachePath w modulePath version)
            :: EvWalk (cachePath w modulePath version)
            :: accessWarnings (cachePath w modulePath version)
                 (os_Lstat_tree w (cachePath w modulePath version)))%list) /\
  ((forall info, os_Stat w (cachePath w modulePath version) = Ok info -> IsDir info = false) ->
   estimateModuleSize modulePath version w
   = (Some 0, cacheLookups w ++ [EvStat (cachePath w modulePath version)])%list).
Proof.
  intros Hv Hd.
  assert (Hrun : estimateModuleSize modulePath version w
                 = match os_Stat w (cachePath w modulePath version) with
                   | Ok stat =>
                       if IsDir stat then
                         (fst (calculateDirSize (cachePath w modulePath version) w),
                          (cacheLookups w
                           ++ EvStat (cachePath w modulePath version)
                              :: snd (calculateDirSize (cachePath w modulePath version) w))%list)
                       else (Some 0, cacheLookups w ++ [EvStat (cachePath w modulePath version)])%list
                   | Err _ => (Some 0, cacheLookups w ++ [EvStat (cachePath w modulePath version)])%list
                   end).
  { unfold estimateModuleSize, cachePath, cacheLookups.
    destruct (String.eqb_spec version "") as [|_]; [contradiction|].
    destruct (String.eqb_spec version "(devel)") as [|_]; [contradiction|].
    cbn [orb]. unfold bind, Getenv, Stat, ask.
    destruct (String.eqb (os_Getenv w "GOPATH") "");
      cbn [ret fst snd app];
      match goal with
      | |- context [os_Stat w ?p] => destruct (os_Stat w p) as [stat|err]
      end; try reflexivity;
      destruct (IsDir stat); try reflexivity;
      match goal with
      | |- context [calculateDirSize ?p w] => destruct (calculateDirSize p w) as [size t]
      end; reflexivity. }
  split.
  - intros info Hstat Hdir. rewrite Hrun, Hstat, Hdir, calculateDirSize_run. reflexivity.
  - intros Hnodir. rewrite Hrun.
    destruct (os_Stat w (cachePath w modulePath version)) as [stat|err]; [|reflexivity].
    rewrite (Hnodir stat eq_refl). reflexivity.
Qed.

Lemma estimateModuleSize_cache_witness :
  estimateModuleSize "example.com/lib" "v1.2.3" cacheWorld
  = (Some 1507,
     [ EvGetenv "GOPATH"; EvStat "/go/pkg/mod/example.com/lib@v1.2.3";
       EvWalk "/go/pkg/mod/example.com/lib@v1.2.3";
       EvLog "Warning: could not access /go/pkg/mod/example.com/lib@v1.2.3/locked: permission denied";
       EvLog "Warning: could not access /go/pkg/mod/example.com/lib@v1.2.3/sub/gone: no such file or directory" ]) /\
  estimateModuleSize "example.com/lib" "v1.2.3" bareWorld
  = (Some 0, [EvGetenv "GOPATH"; EvGetenv "HOME"; EvStat "go/pkg/mod/example.com/lib@v1.2.3"]).
Proof.
  split.
  - exact (proj1 (estimateModuleSize_cache "example.com/lib" "v1.2.3" cacheWorld
                    ltac:(discriminate) ltac:(discriminate)) _ eq_refl eq_refl).
  - apply (proj2 (estimateModuleSize_cache "example.com/lib" "v1.2.3" bareWorld
                    ltac:(discriminate) ltac:(discriminate))).
    intros info Hstat. discriminate.
Defined.

(** ** More on the report of a binary *)

Lemma completes_reconcile binaryPath symbols archType w :
  completes (reconcile binaryPath symbols archType) w.
Proof.
  unfold reconcile.
  destruct (_ =? 0); [apply completes_ret|].
  destruct (0 <? _); [|apply completes_ret].
  destruct (_ =? 0); [|apply completes_ret].
  apply completes_bind; [apply completes_ask; cbn; tauto|].
  intros [info|err]; apply completes_ret.
Qed.

Lemma completes_analyzeBinarySymbolTable binaryPath w :
  completes (analyzeBinarySymbolTable binaryPath) w.
Proof.
  unfold analyzeBinarySymbolTable.
  apply completes_bind; [apply completes_ask; cbn; tauto|].
  intros [f|err]; [|apply completes_ret].
  destruct (readSymbols f) as [[sections symbols] archType]. apply completes_reconcile.
Qed.

Lemma completes_moduleSize pkgSizes m w : completes (moduleSize pkgSizes m) w.
Proof.
  unfold moduleSize. destruct (pkgSizes !! mod_Path m) as [s|].
  - destruct (0 <? s); [apply completes_ret | apply completes_estimateModuleSize].
  - apply completes_estimateModuleSize.
Qed.

Lemma moduleSize_value pkgSizes m w size t :
  moduleSize pkgSizes m w = (Some size, t) ->
  size = reportedSize w pkgSizes (mod_Path m) (mod_Version m).
Proof.
  unfold moduleSize, reportedSize, value. intros Hrun.
  destruct (pkgSizes !! mod_Path m) as [s|].
  - destruct (0 <? s); [injection Hrun as <- _; reflexivity|].
    rewrite Hrun. reflexivity.
  - rewrite Hrun. reflexivity.
Qed.

Section Report_entries.
Context `{Humanize}.

Lemma completes_depEntries pkgSizes deps w : completes (depEntries pkgSizes deps) w.
Proof.
  induction deps as [|[dep|] rest IH]; cbn [depEntries].
  - apply completes_ret.
  - apply completes_bind; [apply completes_moduleSize|]. intros size.
    apply completes_bind; [exact IH|]. intros more. apply completes_ret.
  - exact IH.
Qed.

Lemma depEntries_reportEntry pkgSizes deps w : forall entries t,
  depEntries pkgSizes deps w = (Some entries, t) ->
  Forall (reportEntry w pkgSizes) entries.
Proof.
  induction deps as [|[dep|] rest IH]; intros entries t Hrun; cbn [depEntries] in Hrun.
  - injection Hrun as <- _. constructor.
  - apply bind_inv in Hrun as (size & t1 & t2 & Hsize & Hrun & _).
    apply bind_inv in Hrun as (more & t3 & t4 & Hmore & Hrun & _).
    injection Hrun as <- _. constructor; [|exact (IH _ _ Hmore)].
    apply moduleSize_value in Hsize. subst size. repeat split.
  - exact (IH _ _ Hrun).
Qed.

Lemma ProcessBinary_completes binaryPath w info :
  buildinfo_ReadFile w binaryPath = Ok info ->
  exists report t,
    ProcessBinary binaryPath w = (Some report, t) /\
    Forall (fun e => ~ is_fatal e) t /\
    Permutation (List.map Name report) (provenancePaths info).
Proof.
  intros Hinfo.
  destruct (completes_analyzeBinarySymbolTable binaryPath w) as (r & t1 & Hr & Ht1).
  assert (Hsizes : completes
                     (match r with
                      | Ok pkgSizes => ret pkgSizes
                      | Err err =>
                          log_Printf ("Warning: Could not analyze symbol table: " +:+ err) ;;;
                          ret ∅
                      end) w).
  { destruct r as [pkgSizes|err]; [apply completes_ret|].
    apply completes_bind; [apply completes_ask; cbn; tauto|].
    intros _. apply completes_ret. }
  destruct Hsizes as (pkgSizes & t2 & Hsizes & Ht2).
  assert (Hmain : completes
                    (if negb (String.eqb (mod_Path (bi_Main info)) "") then
                       size <- moduleSize pkgSizes (bi_Main info) ;;
                       ret [moduleEntry (bi_Main info) size]
                     else ret []) w).
  { destruct (negb _); [|apply completes_ret].
    apply completes_bind; [apply completes_moduleSize|]. intros size. apply completes_ret. }
  destruct Hmain as (modules & t3 & Hmain & Ht3).
  destruct (completes_depEntries pkgSizes (bi_Deps info) w) as (deps & t4 & Hdeps & Ht4).
  assert (Hrun : ProcessBinary binaryPath w
                 = (Some (sort_Slice bySizeDesc (modules ++ deps)%list),
                    ([EvReadBuildInfo binaryPath] ++ t1 ++ t2 ++ t3 ++ t4 ++ [])%list)).
  { unfold ProcessBinary.
    eapply bind_step; [unfold ReadFile, ask; rewrite Hinfo; reflexivity|].
    eapply bind_step; [exact Hr|].
    eapply bind_step; [exact Hsizes|].
    eapply bind_step; [exact Hmain|].
    eapply bind_step; [exact Hdeps | reflexivity]. }
  eexists _, _. split; [exact Hrun|]. split.
  + repeat (apply Forall_app; split); try assumption; repeat constructor; cbn; tauto.
  + destruct (ProcessBinary_names _ _ _ _ Hrun) as (info' & Hinfo' & Hnames).
    rewrite Hinfo in Hinfo'. injection Hinfo' as <-. exact Hnames.
Qed.

(** X11.  [ProcessBinary] returns a report exactly when the build
    information of the binary can be read.  When it cannot, the run ends
    with a fatal log line before the binary is opened; when it can, the
    run logs nothing fatal, whatever becomes of the symbol table and of
    the module cache, and the report has one entry for the main module
    (if its path is not empty) and one for each dependency that is not
    nil, under their module paths. *)
Theorem ProcessBinary_needs_build_info binaryPath w :
  (forall err,
      buildinfo_ReadFile w binaryPath = Err err ->
      ProcessBinary binaryPath w
      = (None, [ EvReadBuildInfo binaryPath;
                 EvFatal ("Error reading build info from binary " +:+ binaryPath
                          +:+ ": " +:+ err) ])) /\
  (forall info,
      buildinfo_ReadFile w binaryPath = Ok info ->
      exists report t,
        ProcessBinary binaryPath w = (Some report, t) /\
        Forall (fun e => ~ is_fatal e) t /\
        Permutation (List.map Name report) (provenancePaths info)).
Proof.
  split.
  - intros err Herr. unfold ProcessBinary, bind, ReadFile, ask. rewrite Herr. reflexivity.
  - intros info Hinfo. exact (ProcessBinary_completes binaryPath w info Hinfo).
Qed.

(** X12.  In a report of a binary every entry's size is the size the
    symbol table gives its module path when that is positive, and the
    estimate from the module cache otherwise; its path is its name and
    its rendering is that of its size. *)
Theorem ProcessBinary_entry_sizes binaryPath w report t :
  ProcessBinary binaryPath w = (Some report, t) ->
  Forall (reportEntry w (symbolSizes w binaryPath)) report.
Proof.
  unfold ProcessBinary. intros Hrun.
  apply bind_inv in Hrun as ([info|err] & t1 & t2 & _ & Hrun & _); [|discriminate].
  apply bind_inv in Hrun as (r & ? & ? & Hr & Hrun & _).
  apply bind_inv in Hrun as (pkgSizes & ? & ? & Hsizes & Hrun & _).
  apply bind_inv in Hrun as (modules & ? & ? & Hmain & Hrun & _).
  apply bind_inv in Hrun as (deps & ? & ? & Hdeps & Hrun & _).
  injection Hrun as <- _.
  assert (Hsym : symbolSizes w binaryPath = pkgSizes).
  { unfold symbolSizes, value. rewrite Hr. cbn [fst].
    destruct r as [m|err].
    - injection Hsizes as <- _. reflexivity.
    - apply bind_inv in Hsizes as (? & ? & ? & _ & Hsizes & _).
      injection Hsizes as <- _. reflexivity. }
  rewrite Hsym.
  eapply Permutation_Forall; [symmetry; apply sort_Slice_Permutation|].
  apply Forall_app. split; [|exact (depEntries_reportEntry _ _ _ _ _ Hdeps)].
  destruct (negb _).
  - apply bind_inv in Hmain as (size & ? & ? & Hsize & Hmain & _).
    injection Hmain as <- _. constructor; [|constructor].
    apply moduleSize_value in Hsize. subst size. repeat split.
  - injection Hmain as <- _. constructor.
Qed.

End Report_entries.

Lemma ProcessBinary_needs_build_info_witness :
  ProcessBinary (H := noRendering) "app" bareWorld
  = (None, [ EvReadBuildInfo "app";
             EvFatal "Error reading build info from binary app: not a Go executable" ]) /\
  exists report t,
    ProcessBinary (H := noRendering) "app"
      (withBinary (elfOf []) (twoDeps "example.com/lib" "example.com/util" "v1.2.3" "")
         cacheWorld)
    = (Some report, t) /\
    Permutation (List.map Name report)
                ["example.com/app"; "example.com/lib"; "example.com/util"].
Proof.
  split.
  - exact (proj1 (ProcessBinary_needs_build_info (H := noRendering) "app" bareWorld)
                 _ eq_refl).
  - destruct (proj2 (ProcessBinary_needs_build_info (H := noRendering) "app"
                       (withBinary (elfOf [])
                          (twoDeps "example.com/lib" "example.com/util" "v1.2.3" "")
                          cacheWorld))
                    _ eq_refl) as (report & t & Hrun & _ & Hnames).
    exists report, t. split; [exact Hrun | exact Hnames].
Defined.

Lemma ProcessBinary_entry_sizes_witness :
  exists report t,
    ProcessBinary (H := noRendering) "app"
      (withBinary
         (elfOf [ {| esym_Name := "mymod/app.Run"; esym_Size := 10;
                     esym_Value := 4096; esym_Section := 0 |} ])
         (twoDeps "mymod/app" "example.com/lib" "" "v1.2.3") cacheWorld)
    = (Some report, t) /\
    List.map (fun e => (Name e, Size e)) report
    = [("example.com/lib", 1507); ("mymod/app", 10); ("example.com/app", 0)] /\
    Forall (reportEntry (H := noRendering)
              (withBinary
                 (elfOf [ {| esym_Name := "mymod/app.Run"; esym_Size := 10;
                             esym_Value := 4096; esym_Section := 0 |} ])
                 (twoDeps "mymod/app" "example.com/lib" "" "v1.2.3") cacheWorld)
              (symbolSizes
                 (withBinary
                    (elfOf [ {| esym_Name := "mymod/app.Run"; esym_Size := 10;
                                esym_Value := 4096; esym_Section := 0 |} ])
                    (twoDeps "mymod/app" "example.com/lib" "" "v1.2.3") cacheWorld)
                 "app"))
           report.
Proof.
  eexists _, _. split; [vm_compute; reflexivity|]. split; [reflexivity|].
  eapply (ProcessBinary_entry_sizes (H := noRendering) "app").
  vm_compute. reflexivity.
Defined.

(** ** The build commands *)

Lemma rangeFrom_appended (body : Z -> string -> list string -> list string) g :
  (forall i arg acc, body i arg acc = (acc ++ g i arg)%list) ->
  forall cmd i acc, rangeFrom body i cmd acc = (acc ++ appended g i cmd)%list.
Proof.
  intros Hbody. induction cmd as [|arg rest IH]; intros i acc; cbn [rangeFrom appended].
  - rewrite app_nil_r. reflexivity.
  - rewrite IH, Hbody, <- app_assoc. reflexivity.
Qed.

(** What one turn of each loop appends. *)
Lemma binaryBuildArg_appends n i arg acc :
  binaryBuildArg n i arg acc
  = (acc ++ (if String.eqb arg "-o" && (i + 1 <? n) then ["-o"; "goweight-temp-binary"]
             else if passedToBuild arg then [arg] else []))%list.
Proof.
  unfold binaryBuildArg, passedToBuild.
  destruct (String.eqb arg "-o" && (i + 1 <? n)); [reflexivity|].
  destruct (String.eqb arg "go"), (String.eqb arg "build"),
    (String.eqb arg "-work"), (String.eqb arg "-a"); cbn; rewrite ?app_nil_r; reflexivity.
Qed.

Lemma analysisBuildArg_appends n i arg acc :
  analysisBuildArg n i arg acc
  = (acc ++ (if String.eqb arg "-o" && (i + 1 <? n) then []
             else if passedToAnalysis arg then [arg] else []))%list.
Proof.
  unfold analysisBuildArg, passedToAnalysis, passedToBuild.
  destruct (String.eqb arg "-o" && (i + 1 <? n)); [rewrite app_nil_r; reflexivity|].
  destruct (String.eqb arg "go"), (String.eqb arg "build"),
    (String.eqb arg "-work"), (String.eqb arg "-a"), (String.eqb arg "-x");
    cbn; rewrite ?app_nil_r; reflexivity.
Qed.

Lemma appended_without (g : Z -> string -> list string) (keep : string -> bool) cmd :
  (forall i arg, arg ∈ cmd -> g i arg = if keep arg then [arg] else []) ->
  forall i, appended g i cmd = List.filter keep cmd.
Proof.
  induction cmd as [|arg rest IH]; intros Hg i; cbn [appended List.filter]; [reflexivity|].
  rewrite Hg by (left). rewrite IH by (intros j a Ha; apply Hg; right; exact Ha).
  destruct (keep arg); reflexivity.
Qed.

Lemma appended_Forall (P : string -> Prop) (g : Z -> string -> list string) cmd :
  (forall i arg, arg ∈ cmd -> Forall P (g i arg)) ->
  forall i, Forall P (appended g i cmd).
Proof.
  induction cmd as [|arg rest IH]; intros Hg i; cbn [appended]; [constructor|].
  apply Forall_app. split; [apply Hg; left|].
  apply IH. intros j a Ha. apply Hg. right. exact Ha.
Qed.

Lemma appended_keeps (g : Z -> string -> list string) cmd x :
  x ∈ cmd -> (forall i, x ∈ g i x) -> forall i, x ∈ appended g i cmd.
Proof.
  intros Hx Hg. induction cmd as [|arg rest IH]; intros i; [inversion Hx|].
  cbn [appended]. apply elem_of_app.
  apply elem_of_cons in Hx as [->|Hx]; [left; apply Hg | right; apply IH, Hx].
Qed.

(** X13.  The command that [BuildAndAnalyzeBinary] runs starts with
    [go build -o goweight-temp-binary]; after that it never holds "go",
    "build", "-work" or "-a", and it holds every other argument of the
    configured command, the file name behind a "-o" included (that name is
    not skipped).  Without a "-o" in the configured command, what follows
    the start is the configured command without those four words. *)
Theorem binaryBuildCmd_shape originalCmd :
  exists tail,
    binaryBuildCmd originalCmd = (["go"; "build"; "-o"; "goweight-temp-binary"] ++ tail)%list /\
    Forall (fun x => passedToBuild x = true) tail /\
    (forall arg, arg ∈ originalCmd -> passedToBuild arg = true -> arg <> "-o" -> arg ∈ tail) /\
    ("-o" ∉ originalCmd -> tail = List.filter passedToBuild originalCmd).
Proof.
  set (n := Z.of_nat (List.length originalCmd)).
  set (g := fun i arg => if String.eqb arg "-o" && (i + 1 <? n)
                         then ["-o"; "goweight-temp-binary"]
                         else if passedToBuild arg then [arg] else []).
  exists (appended g 0 originalCmd). split; [|split; [|split]].
  - unfold binaryBuildCmd. fold n.
    apply (rangeFrom_appended (binaryBuildArg n) g).
    intros i arg acc. apply binaryBuildArg_appends.
  - apply appended_Forall. intros i arg _. unfold g.
    destruct (String.eqb arg "-o" && (i + 1 <? n)); [repeat constructor|].
    destruct (passedToBuild arg) eqn:Hpass; repeat constructor. exact Hpass.
  - intros arg Hin Hpass Hne. apply appended_keeps; [exact Hin|].
    intros i. unfold g. rewrite Hpass.
    destruct (String.eqb_spec arg "-o") as [|_]; [contradiction|].
    cbn [andb]. left.
  - intros Hno. apply appended_without. intros i arg Hin. unfold g.
    destruct (String.eqb_spec arg "-o") as [->|_]; [contradiction | reflexivity].
Qed.

Lemma binaryBuildCmd_shape_witness :
  binaryBuildCmd (mainBuildCmd "netgo" "./cmd/app")
  = ["go"; "build"; "-o"; "goweight-temp-binary"; "-tags"; "netgo"; "./cmd/app"] /\
  "myapp" ∈ binaryBuildCmd ["go"; "build"; "-o"; "myapp"].
Proof.
  split.
  - destruct (binaryBuildCmd_shape (mainBuildCmd "netgo" "./cmd/app"))
      as (tail & -> & _ & _ & Hfilter).
    rewrite Hfilter; [reflexivity|].
    intros Hin. vm_compute in Hin.
    repeat (apply elem_of_cons in Hin as [Hin|Hin]; [discriminate|]). inversion Hin.
  - destruct (binaryBuildCmd_shape ["go"; "build"; "-o"; "myapp"])
      as (tail & -> & _ & Hkept & _).
    apply elem_of_app. right. apply Hkept; [|reflexivity|discriminate].
    right. right. right. left.
Defined.

(** X14.  The command that [AnalyzeBuildProcess] runs starts with
    [go build -work -a -x] and ends with [-o temp_output_for_analysis]
    and the packages asked for, "." when none is.  In between stand
    arguments of the configured command only, none of them "go", "build",
    "-work", "-a" or "-x", and all the others of them except "-o"; without
    a "-o" in the configured command they are the configured command
    without those five words. *)
Theorem analysisBuildCmd_shape originalCmd packages :
  exists middle,
    analysisBuildCmd originalCmd packages
    = (["go"; "build"; "-work"; "-a"; "-x"] ++ middle
       ++ ["-o"; "temp_output_for_analysis"]
       ++ match packages with [] => ["."] | _ => packages end)%list /\
    Forall (fun x => x ∈ originalCmd /\ passedToAnalysis x = true) middle /\
    (forall arg, arg ∈ originalCmd -> passedToAnalysis arg = true -> arg <> "-o" ->
                 arg ∈ middle) /\
    ("-o" ∉ originalCmd -> middle = List.filter passedToAnalysis originalCmd).
Proof.
  set (n := Z.of_nat (List.length originalCmd)).
  set (g := fun i arg => if String.eqb arg "-o" && (i + 1 <? n) then []
                         else if passedToAnalysis arg then [arg] else []).
  exists (appended g 0 originalCmd). split; [|split; [|split]].
  - unfold analysisBuildCmd. fold n.
    rewrite (rangeFrom_appended (analysisBuildArg n) g)
      by (intros i arg acc; apply analysisBuildArg_appends).
    destruct packages as [|p packages]; cbn [List.length Z.of_nat Z.ltb Z.compare];
      rewrite <- !app_assoc; reflexivity.
  - apply appended_Forall. intros i arg Hin. unfold g.
    destruct (String.eqb arg "-o" && (i + 1 <? n)); [constructor|].
    destruct (passedToAnalysis arg) eqn:Hpass; repeat constructor; assumption.
  - intros arg Hin Hpass Hne. apply appended_keeps; [exact Hin|].
    intros i. unfold g. rewrite Hpass.
    destruct (String.eqb_spec arg "-o") as [|_]; [contradiction|].
    cbn [andb]. left.
  - intros Hno. apply appended_without. intros i arg Hin. unfold g.
    destruct (String.eqb_spec arg "-o") as [->|_]; [contradiction | reflexivity].
Qed.

Lemma analysisBuildCmd_shape_witness :
  analysisBuildCmd defaultBuildCmd []
  = ["go"; "build"; "-work"; "-a"; "-x"; "-o"; "temp_output_for_analysis"; "."] /\
  analysisBuildCmd (defaultBuildCmd ++ ["-tags"; "netgo"]) ["./cmd/app"]
  = ["go"; "build"; "-work"; "-a"; "-x"; "-tags"; "netgo";
     "-o"; "temp_output_for_analysis"; "./cmd/app"].
Proof.
  split.
  - destruct (analysisBuildCmd_shape defaultBuildCmd []) as (middle & -> & _ & _ & Hfilter).
    rewrite Hfilter; [reflexivity|].
    intros Hin. vm_compute in Hin.
    repeat (apply elem_of_cons in Hin as [Hin|Hin]; [discriminate|]). inversion Hin.
  - destruct (analysisBuildCmd_shape (defaultBuildCmd ++ ["-tags"; "netgo"]) ["./cmd/app"])
      as (middle & -> & _ & _ & Hfilter).
    rewrite Hfilter; [reflexivity|].
    intros Hin. vm_compute in Hin.
    repeat (apply elem_of_cons in Hin as [Hin|Hin]; [discriminate|]). inversion Hin.
Defined.

(** ** Symbols from DWARF *)

(** X15.  Every symbol that [parseDWARF] returns has size 0, no address
    and no section, and a package that is the resolver's answer for its
    name and is not empty; and reading stops at the first error: what the
    reader would return after it adds nothing. *)
Theorem parseDWARF_symbols reader :
  Forall (fun s => sym_Size s = 0 /\ sym_Address s = 0 /\ sym_Section s = "" /\
                   sym_Package s = extractPackageFromSymbol (sym_Name s) /\
                   sym_Package s <> "")
         (parseDWARF reader) /\
  (forall err later, parseDWARF (reader ++ Err err :: later) = parseDWARF (reader ++ [Err err])).
Proof.
  split.
  - induction reader as [|[entry|err] rest IH]; cbn [parseDWARF]; try constructor.
    apply Forall_app. split; [|exact IH].
    destruct (dw_Tag entry =? TagSubprogram); [|constructor].
    destruct (dw_Name entry) as [name|]; [|constructor].
    destruct (String.eqb_spec (extractPackageFromSymbol name) "") as [|Hne]; constructor;
      [|constructor].
    cbn. repeat split. exact Hne.
  - intros err later.
    induction reader as [|[entry|err'] rest IH]; cbn [parseDWARF app]; try reflexivity.
    rewrite IH. reflexivity.
Qed.

(** ** The analysis of the build output *)

Example Clean_samples :
  filepath.Clean "a//b/../c/./d" = "a/c/d" /\
  filepath.Clean "/../a/b/../././/c" = "/a/c" /\
  filepath.Clean "../../a/.." = "../.." /\
  filepath.Clean "" = "." /\ filepath.Clean "abc/" = "abc".
Proof. repeat split. Qed.

Example path_samples :
  pathtext.Dir "/tmp/go-build1/b001/_pkg_.a" = "/tmp/go-build1/b001" /\
  pathtext.Dir "file.a" = "." /\
  pathtext.Base "a/b/" = "b" /\ pathtext.Base "///" = "/" /\
  pathtext.Ext "a.b/c" = "" /\
  filepath.Join [""; "."; "importcfg"] = "importcfg".
Proof. repeat split. Qed.

Example Fields_sample :
  morestrings.Fields (" a  b" +:+ String "009" "c d ") = ["a"; "b"; "c"; "d"].
Proof. reflexivity. Qed.

Example importcfg_sample :
  extractPackageNameFromWorkDir
    (fun p => if String.eqb p "/tmp/go-build1/importcfg"
              then Ok ("# import config" +:+ String "010"
                         "packagefile fmt=/tmp/go-build1/b001/_pkg_.a")
              else Err "no such file or directory")
    "/tmp/go-build1/b001/_pkg_.a"
  = "fmt".
Proof. reflexivity. Qed.

Lemma addModule_keeps (P : ModuleEntry -> Prop) modules file packageName :
  NoDup (List.map Name modules) -> Forall unsizedEntry modules ->
  NoDup (List.map Name (addModule modules file packageName)) /\
  Forall unsizedEntry (addModule modules file packageName).
Proof.
  intros Hnodup Hall. unfold addModule.
  destruct (existsb _ modules) eqn:Hexists; [auto|]. split.
  - rewrite map_app. cbn [List.map Name]. apply NoDup_app. split; [exact Hnodup|].
    split; [|apply NoDup_singleton].
    intros name Hin Hname. apply list_elem_of_singleton in Hname. subst name.
    apply list_elem_of_fmap in Hin as (m & Hname & Hm).
    assert (Htrue : existsb (fun m => String.eqb (Name m) packageName) modules = true).
    { apply existsb_exists. exists m. split; [apply list_elem_of_In, Hm|].
      rewrite <- Hname. apply String.eqb_refl. }
    congruence.
  - apply Forall_app. split; [exact Hall|]. repeat constructor.
Qed.

Lemma parseBuildLine_keeps readFile modules line :
  NoDup (List.map Name modules) -> Forall unsizedEntry modules ->
  NoDup (List.map Name (parseBuildLine readFile modules line)) /\
  Forall unsizedEntry (parseBuildLine readFile modules line).
Proof.
  intros Hnodup Hall. unfold parseBuildLine.
  set (first := if _ && _ && _ then _ else modules).
  assert (Hfirst : NoDup (List.map Name first) /\ Forall unsizedEntry first).
  { subst first. destruct (_ && _ && _); [|auto].
    destruct (negb _); [|auto]. apply (addModule_keeps unsizedEntry); assumption. }
  destruct Hfirst as [Hnodup1 Hall1].
  destruct (strings.HasPrefix line "pack r "); [|auto].
  destruct (3 <=? _); [|auto].
  destruct (morestrings.Fields line !! 2%nat) as [packFile|]; [|auto].
  destruct (morestrings.HasSuffix packFile "_pkg_.a"); [|auto].
  apply (addModule_keeps unsizedEntry); assumption.
Qed.

Lemma parseBuildLine_skips readFile modules line :
  buildLine line = false -> parseBuildLine readFile modules line = modules.
Proof.
  unfold buildLine, parseBuildLine. intros Hline.
  apply orb_false_iff in Hline as [-> ->]. reflexivity.
Qed.

(** X16.  The entries that [parseBuildOutput] returns have names that
    are all different, and each has size 0, the rendering "0 B" and no
    version.  Output without a compile line that names a package archive
    and without a "pack r" line gives no entry. *)
Theorem parseBuildOutput_entries readFile output :
  NoDup (List.map Name (parseBuildOutput readFile output)) /\
  Forall unsizedEntry (parseBuildOutput readFile output) /\
  (Forall (fun line => buildLine line = false)
          (strings.Split output (String "010" EmptyString)) ->
   parseBuildOutput readFile output = []).
Proof.
  unfold parseBuildOutput.
  assert (Hfold : forall lines modules,
             NoDup (List.map Name modules) -> Forall unsizedEntry modules ->
             NoDup (List.map Name (fold_left (parseBuildLine readFile) lines modules)) /\
             Forall unsizedEntry (fold_left (parseBuildLine readFile) lines modules)).
  { induction lines as [|line lines IH]; intros modules Hnodup Hall; cbn [fold_left]; [auto|].
    destruct (parseBuildLine_keeps readFile modules line Hnodup Hall) as [Hnodup1 Hall1].
    apply IH; assumption. }
  destruct (Hfold (strings.Split output (String "010" EmptyString)) []
              (NoDup_nil_2 : NoDup (List.map Name [])) (Forall_nil_2 _))
    as [Hnodup Hall].
  split; [|split].
  - rewrite (sort_Slice_Permutation bySizeDesc). exact Hnodup.
  - eapply Permutation_Forall; [symmetry; apply sort_Slice_Permutation | exact Hall].
  - intros Hskip.
    replace (fold_left (parseBuildLine readFile)
               (strings.Split output (String "010" EmptyString)) []) with (@nil ModuleEntry);
      [reflexivity|].
    clear Hnodup Hall. generalize (@nil ModuleEntry) as modules.
    induction Hskip as [|line lines Hline _ IH]; intros modules; cbn [fold_left]; [reflexivity|].
    rewrite parseBuildLine_skips by exact Hline. apply IH.
Qed.

Lemma parseBuildOutput_entries_witness :
  parseBuildOutput (fun _ => Err "no such file or directory")
    ("WORK=/tmp/go-build1" +:+ String "010" "mkdir -p $WORK/b001/")
  = [].
Proof.
  apply (parseBuildOutput_entries (fun _ => Err "no such file or directory")
           ("WORK=/tmp/go-build1" +:+ String "010" "mkdir -p $WORK/b001/")).
  assert (Hlines : strings.Split ("WORK=/tmp/go-build1" +:+ String "010" "mkdir -p $WORK/b001/")
                                 (String "010" EmptyString)
                   = ["WORK=/tmp/go-build1"; "mkdir -p $WORK/b001/"])
    by (vm_compute; reflexivity).
  rewrite Hlines. repeat (constructor; [vm_compute; reflexivity|]). constructor.
Defined.

Lemma srev_onto_app s : forall acc, srev_onto s acc = srev s +:+ acc.
Proof.
  unfold srev. induction s as [|c s IH]; intros acc; [reflexivity|].
  cbn [srev_onto]. rewrite IH, (IH (String c EmptyString)), append_assoc. reflexivity.
Qed.

Lemma srev_app a b : srev (a +:+ b) = srev b +:+ srev a.
Proof.
  induction a as [|c a IH].
  - symmetry. apply append_nil_r.
  - rewrite append_String. unfold srev at 1 3. cbn [srev_onto].
    rewrite !srev_onto_app, IH, append_assoc. reflexivity.
Qed.

(** X17.  When no import configuration can be read for it, a package
    archive [<dir>/_pkg_.a] is given the name "_pkg_", whatever its
    directory: the base name of the file without its extension. *)
Theorem archive_name_without_importcfg readFile dir :
  (forall content, readFile (importCfgPathOf (dir +:+ "/_pkg_.a")) <> Ok content) ->
  extractPackageNameFromWorkDir readFile (dir +:+ "/_pkg_.a") = "_pkg_".
Proof.
  intros Hunreadable. unfold extractPackageNameFromWorkDir.
  fold (importCfgPathOf (dir +:+ "/_pkg_.a")).
  destruct (readFile (importCfgPathOf (dir +:+ "/_pkg_.a"))) as [content|err];
    [exfalso; exact (Hunreadable content eq_refl)|].
  assert (Hbase : pathtext.Base (dir +:+ "/_pkg_.a") = "_pkg_.a").
  { unfold pathtext.Base.
    replace (String.eqb (dir +:+ "/_pkg_.a") "") with false by (destruct dir; reflexivity).
    rewrite srev_app. change (srev "/_pkg_.a") with "a._gkp_/".
    rewrite !append_String. reflexivity. }
  rewrite Hbase. reflexivity.
Qed.

Lemma archive_name_without_importcfg_witness :
  extractPackageNameFromWorkDir (fun _ => Err "no such file or directory")
    "/tmp/go-build1/b001/_pkg_.a" = "_pkg_" /\
  extractPackageNameFromWorkDir (fun _ => Err "no such file or directory")
    "/tmp/go-build1/b002/_pkg_.a" = "_pkg_".
Proof.
  split.
  - apply (archive_name_without_importcfg _ "/tmp/go-build1/b001"). discriminate.
  - apply (archive_name_without_importcfg _ "/tmp/go-build1/b002"). discriminate.
Defined.

(** ** Top-level packages *)

Lemma prefix_trans a : forall b c,
  String.prefix a b = true -> String.prefix b c = true -> String.prefix a c = true.
Proof.
  induction a as [|x a IH]; intros b c Hab Hbc; [apply prefix_empty|].
  destruct b as [|y b]; [discriminate|]. destruct c as [|z c]; [discriminate|].
  cbn [String.prefix] in *.
  destruct (ascii_dec x y) as [->|]; [|discriminate].
  destruct (ascii_dec y z) as [->|]; [|discriminate].
  exact (IH b c Hab Hbc).
Qed.

Lemma prefix_false_trans a b c :
  String.prefix a c = false -> String.prefix b c = true -> String.prefix a b = false.
Proof.
  intros Hac Hbc. destruct (String.prefix a b) eqn:Hab; [|reflexivity].
  rewrite (prefix_trans a b c Hab Hbc) in Hac. discriminate.
Qed.

Lemma append_nil_l s : "" +:+ s = s.
Proof. reflexivity. Qed.

Lemma charFree_append c a b : charFree c a -> charFree c b -> charFree c (a +:+ b).
Proof.
  induction a as [|x a IH]; intros Ha Hb; [exact Hb|].
  rewrite append_String. destruct Ha as [Hx Ha]. split; [exact Hx | exact (IH Ha Hb)].
Qed.

Lemma prefix_single c x s :
  String.prefix (String c EmptyString) (String x s) = if ascii_dec c x then true else false.
Proof.
  cbn [String.prefix]. destruct (ascii_dec c x); [apply prefix_empty | reflexivity].
Qed.

(** The pieces that a one-byte separator cuts hold no separator. *)
Lemma genSplit_single_pieces c s : forall cur,
  charFree c cur -> Forall (charFree c) (strings.genSplit (String c EmptyString) 0 cur s).
Proof.
  induction s as [|x s IH]; intros cur Hcur; cbn [strings.genSplit].
  - repeat constructor. exact Hcur.
  - rewrite prefix_single. destruct (ascii_dec c x) as [->|Hne].
    + cbn [String.length Nat.sub]. constructor; [exact Hcur|]. apply IH. exact I.
    + apply IH. apply charFree_append; [exact Hcur|]. split; [congruence | exact I].
Qed.

Lemma genSplit_single_free c p : forall cur,
  charFree c p -> strings.genSplit (String c EmptyString) 0 cur p = [cur +:+ p].
Proof.
  induction p as [|x p IH]; intros cur Hp; cbn [strings.genSplit].
  - rewrite append_nil_r. reflexivity.
  - destruct Hp as [Hx Hp]. rewrite prefix_single.
    destruct (ascii_dec c x) as [->|_]; [contradiction|].
    rewrite IH by exact Hp. rewrite append_assoc. reflexivity.
Qed.

Lemma genSplit_single_cut c p rest : forall cur,
  charFree c p ->
  strings.genSplit (String c EmptyString) 0 cur (p +:+ String c rest)
  = (cur +:+ p) :: strings.genSplit (String c EmptyString) 0 EmptyString rest.
Proof.
  induction p as [|x p IH]; intros cur Hp.
  - rewrite append_nil_l. cbn [strings.genSplit]. rewrite prefix_single.
    destruct (ascii_dec c c); [|contradiction].
    rewrite append_nil_r. reflexivity.
  - destruct Hp as [Hx Hp]. rewrite append_String. cbn [strings.genSplit].
    rewrite prefix_single. destruct (ascii_dec c x) as [->|_]; [contradiction|].
    rewrite IH by exact Hp. rewrite append_assoc. reflexivity.
Qed.

Lemma Contains_cut (c : ascii) p rest :
  strings.Contains (p +:+ String c rest) (String c EmptyString) = true.
Proof.
  unfold strings.Contains, strings.Index.
  assert (Hfound : exists n, String.index 0 (String c EmptyString) (p +:+ String c rest) = Some n).
  { induction p as [|x p [n IH]].
    - exists 0%nat. rewrite append_nil_l. cbn [String.index]. rewrite prefix_single.
      destruct (ascii_dec c c); [reflexivity | contradiction].
    - rewrite append_String. cbn [String.index].
      destruct (String.prefix _ _); [eauto|]. rewrite IH. eauto. }
  destruct Hfound as [n ->]. apply Z.leb_le. lia.
Qed.

(** What the top-level package of a name can be. *)
Lemma getTopLevelPackage_cases s :
  getTopLevelPackage s = "runtime" \/
  getTopLevelPackage s = "internal/*" \/
  getTopLevelPackage s = "vendor/*" \/
  getTopLevelPackage s = s \/
  (strings.HasPrefix s "runtime" = false /\
   strings.HasPrefix s "internal/" = false /\
   strings.HasPrefix s "vendor/" = false /\
   exists p0 p1,
     charFree "/" p0 /\ charFree "/" p1 /\
     getTopLevelPackage s = p0 +:+ String "/" p1 /\
     String.prefix (p0 +:+ String "/" p1) s = true).
Proof.
  unfold getTopLevelPackage.
  destruct (strings.HasPrefix s "runtime") eqn:Hr; [auto|].
  destruct (strings.HasPrefix s "internal/") eqn:Hi; [auto|].
  destruct (strings.HasPrefix s "vendor/") eqn:Hv; [auto|].
  destruct (_ || _); [|auto].
  pose proof (Split_Join s "/" ltac:(discriminate)) as Hjoin.
  pose proof (genSplit_single_pieces "/" s "" I) as Hfree.
  change (strings.genSplit "/" 0 "" s) with (strings.Split s "/") in Hfree.
  destruct (strings.Split s "/") as [|p0 [|p1 rest]] eqn:Hparts; [auto| |].
  - (* one part: the name itself *)
    cbn in Hjoin. subst p0.
    destruct (strings.Contains s "."); cbn; auto.
  - right. right. right. right. repeat split; try reflexivity.
    exists p0, p1.
    apply Forall_cons in Hfree as [Hp0 Hfree]. apply Forall_cons in Hfree as [Hp1 _].
    assert (Hres : strings.Join (take 2 (p0 :: p1 :: rest)) "/" = p0 +:+ String "/" p1)
      by reflexivity.
    split; [exact Hp0|]. split; [exact Hp1|]. split.
    + replace (2 <=? Z.of_nat (List.length (p0 :: p1 :: rest))) with true
        by (symmetry; apply Z.leb_le; cbn [List.length]; lia).
      destruct (strings.Contains p0 "."); exact Hres.
    + pose proof (Join_take_prefix "/" (p0 :: p1 :: rest) 2) as Hp.
      rewrite Hjoin, Hres in Hp. exact Hp.
Qed.

(** X18.  Taking the top-level package of a top-level package changes
    nothing; and the top-level package of a name is "runtime",
    "internal/*" or "vendor/*", or the beginning of the name. *)
Theorem getTopLevelPackage_idempotent s :
  getTopLevelPackage (getTopLevelPackage s) = getTopLevelPackage s /\
  (getTopLevelPackage s = "runtime" \/ getTopLevelPackage s = "internal/*" \/
   getTopLevelPackage s = "vendor/*" \/
   String.prefix (getTopLevelPackage s) s = true).
Proof.
  destruct (getTopLevelPackage_cases s)
    as [Hr|[Hi|[Hv|[Hs|(Hr & Hi & Hv & p0 & p1 & Hp0 & Hp1 & Hres & Hpre)]]]].
  - rewrite Hr. split; [reflexivity | auto].
  - rewrite Hi. split; [reflexivity | auto].
  - rewrite Hv. split; [reflexivity | auto].
  - rewrite !Hs. split; [reflexivity|]. right. right. right. apply prefix_refl.
  - rewrite Hres. split; [|right; right; right; exact Hpre].
    unfold getTopLevelPackage at 1. unfold strings.HasPrefix in *.
    rewrite (prefix_false_trans _ _ _ Hr Hpre), (prefix_false_trans _ _ _ Hi Hpre),
      (prefix_false_trans _ _ _ Hv Hpre).
    rewrite (Contains_cut "/" p0 p1), orb_true_r.
    unfold strings.Split. rewrite (genSplit_single_cut "/" p0 p1 "" Hp0).
    rewrite (genSplit_single_free "/" p1 "" Hp1).
    cbn [List.length Z.of_nat]. 
    destruct (strings.Contains ("" +:+ p0) "."); reflexivity.
Qed.

(** ** The rolled-up report of a binary *)

(** X19.  The rolled-up report of a binary, when there is one, names
    every top-level package of the modules of the build information, each
    once and nothing else (also when the report before the rollup holds a
    module path twice); and there is one exactly when the build
    information can be read. *)
Theorem briefReport_groups `{Humanize} binaryFile w :
  (forall groups t,
      briefReport binaryFile w = (Some groups, t) ->
      exists info,
        buildinfo_ReadFile w binaryFile = Ok info /\
        NoDup (List.map Name groups) /\
        forall name, name ∈ List.map Name groups <->
                     exists p, p ∈ provenancePaths info /\ getTopLevelPackage p = name) /\
  ((exists groups t, briefReport binaryFile w = (Some groups, t)) <->
   exists info, buildinfo_ReadFile w binaryFile = Ok info).
Proof.
  assert (Hgroups : forall groups t,
             briefReport binaryFile w = (Some groups, t) ->
             exists info,
               buildinfo_ReadFile w binaryFile = Ok info /\
               NoDup (List.map Name groups) /\
               forall name, name ∈ List.map Name groups <->
                            exists p, p ∈ provenancePaths info /\ getTopLevelPackage p = name).
  { intros groups t Hrun. unfold briefReport in Hrun.
    apply bind_inv in Hrun as (report & t1 & t2 & Hreport & Hrun & _).
    injection Hrun as <- _.
    destruct (ProcessBinary_names _ _ _ _ Hreport) as (info & Hinfo & Hnames).
    exists info. split; [exact Hinfo|]. split; [apply rollup_NoDup|].
    intros name. rewrite rollup_name_iff. split.
    - intros (m & Hm & Htop). exists (Name m). split; [|exact Htop].
      rewrite <- Hnames. apply list_elem_of_fmap. eauto.
    - intros (p & Hp & Htop). rewrite <- Hnames in Hp.
      apply list_elem_of_fmap in Hp as (m & -> & Hm). eauto. }
  split; [exact Hgroups|]. split.
  - intros (groups & t & Hrun). destruct (Hgroups groups t Hrun) as (info & Hinfo & _). eauto.
  - intros [info Hinfo].
    destruct (ProcessBinary_completes binaryFile w info Hinfo) as (report & t & Hrun & _).
    exists (aggregateByTopLevelPackage report), (t ++ [])%list.
    unfold briefReport. eapply bind_step; [exact Hrun | reflexivity].
Qed.

Lemma briefReport_groups_witness :
  exists groups t,
    briefReport (H := noRendering) "app"
      (withBinary (elfOf [])
         (twoDeps "example.com/lib" "example.com/lib" "v1.0.0" "v1.1.0") bareWorld)
    = (Some groups, t) /\
    NoDup (List.map Name groups) /\
    "example.com/lib" ∈ List.map Name groups.
Proof.
  destruct (proj2 (proj2 (briefReport_groups (H := noRendering) "app"
                            (withBinary (elfOf [])
                               (twoDeps "example.com/lib" "example.com/lib" "v1.0.0" "v1.1.0")
                               bareWorld)))
                  (ex_intro _ _ eq_refl)) as (groups & t & Hrun).
  exists groups, t. split; [exact Hrun|].
  destruct (proj1 (briefReport_groups (H := noRendering) "app" _) groups t Hrun)
    as (info & Hinfo & Hnodup & Hnames).
  split; [exact Hnodup|].
  apply Hnames. exists "example.com/lib". split; [|reflexivity].
  injection Hinfo as <-. vm_compute. right. left.
Defined.

Lemma rollup_groups_witness :
  "github.com/acme" ∈ List.map Name
    (aggregateByTopLevelPackage (H := noRendering)
       [ entry "github.com/acme/foo" 300; entry "runtime" 500;
         entry "github.com/acme/bar" 400 ]).
Proof.
  apply (proj1 (rollup_groups (H := noRendering)
                  [ entry "github.com/acme/foo" 300; entry "runtime" 500;
                    entry "github.com/acme/bar" 400 ])).
  exists (entry "github.com/acme/bar" 400). split; [|reflexivity].
  right. right. left.
Defined.
